(** * Sushi chef for MEET (migranthealth.eu): a shallow embedding of chef.py

    The chef walks a four-level site (language, module, unit, article),
    archives every article page and hangs the results in a topic tree.
    This file embeds chef.py function by function and proves the properties
    its specification states about it.

    Conventions of the embedding.
    - Python [str] is [string]: a sequence of characters, here the ASCII
      ones; [len], slicing, [split], [replace], [strip] and [lower] are
      written out on it.
    - A parsed document is a forest of [node]s; every tag carries a [uid]
      that stands for the identity of the Python object, so that a node
      selected earlier can be detached later.
    - Effects (HTTP requests, sleeping, random tokens) are threaded through
      a state and error monad [M] over a [World]; a Python exception is the
      result [Raise].  The work directory of a page is passed as a value. *)

From Stdlib Require Import List String Ascii Bool Arith NArith ZArith Lia.
Import ListNotations.
Open Scope string_scope.
Open Scope list_scope.

(** ** Python strings *)

Module PyStr.

(** [s[:n]] *)
Fixpoint take (n : nat) (s : string) : string :=
  match n, s with
  | S n', String c s' => String c (take n' s')
  | _, _ => EmptyString
  end.

(** [s[n:]] *)
Fixpoint drop (n : nat) (s : string) : string :=
  match n, s with
  | S n', String _ s' => drop n' s'
  | _, _ => s
  end.

Definition is_upper (c : ascii) : bool :=
  let n := nat_of_ascii c in Nat.leb 65 n && Nat.leb n 90.

Definition lower_char (c : ascii) : ascii :=
  if is_upper c then ascii_of_nat (nat_of_ascii c + 32) else c.

(** [s.lower()] *)
Fixpoint lower (s : string) : string :=
  match s with
  | EmptyString => EmptyString
  | String c s' => String (lower_char c) (lower s')
  end.

(** [s.replace(a, b)] for one-character [a] and [b]. *)
Fixpoint replace (a b : ascii) (s : string) : string :=
  match s with
  | EmptyString => EmptyString
  | String c s' => String (if Ascii.eqb c a then b else c) (replace a b s')
  end.

(** [sub in s] *)
Fixpoint contains (sub s : string) : bool :=
  if prefix sub s then true
  else match s with
       | EmptyString => false
       | String _ s' => contains sub s'
       end.

(** [s.split(sep)] for a one-character separator: never empty. *)
Fixpoint split (sep : ascii) (s : string) : list string :=
  match s with
  | EmptyString => [EmptyString]
  | String c s' =>
      if Ascii.eqb c sep then EmptyString :: split sep s'
      else match split sep s' with
           | [] => [String c EmptyString]
           | w :: ws => String c w :: ws
           end
  end.

(** [s.find(c)], -1 when absent. *)
Fixpoint find (c : ascii) (s : string) : Z :=
  match s with
  | EmptyString => (-1)%Z
  | String d s' =>
      if Ascii.eqb d c then 0%Z
      else let i := find c s' in
           if (i <? 0)%Z then (-1)%Z else (i + 1)%Z
  end.

(** [s.rfind(c)], -1 when absent. *)
Fixpoint rfind (c : ascii) (s : string) : Z :=
  match s with
  | EmptyString => (-1)%Z
  | String d s' =>
      let i := rfind c s' in
      if (0 <=? i)%Z then (i + 1)%Z
      else if Ascii.eqb d c then 0%Z else (-1)%Z
  end.

(** The characters [str.strip()] removes, among the ASCII ones. *)
Definition is_space (c : ascii) : bool :=
  let n := nat_of_ascii c in
  (Nat.leb 9 n && Nat.leb n 13) || (Nat.leb 28 n && Nat.leb n 32).

Fixpoint lstrip (s : string) : string :=
  match s with
  | EmptyString => EmptyString
  | String c s' => if is_space c then lstrip s' else s
  end.

Fixpoint rstrip (s : string) : string :=
  match s with
  | EmptyString => EmptyString
  | String c s' =>
      match rstrip s' with
      | EmptyString => if is_space c then EmptyString else String c EmptyString
      | r => String c r
      end
  end.

(** [s.strip()] *)
Definition strip (s : string) : string := rstrip (lstrip s).

(** [s * n] *)
Fixpoint times (s : string) (n : nat) : string :=
  match n with
  | 0 => EmptyString
  | S n' => (s ++ times s n')%string
  end.

End PyStr.

(** ** truncate_metadata (chef.py, lines 246-250) *)

Definition MAX_CHARS : nat := 190.

Definition truncate_metadata (data_string : string) : string :=
  if Nat.ltb MAX_CHARS (String.length data_string)
  then (PyStr.take 190 data_string ++ " ...")%string
  else data_string.

(** ** Parsed documents

    [BeautifulSoup(html, "html.parser")] builds a tree of [Tag] and
    [NavigableString] objects; a document is the list of its top-level
    nodes.  The parser itself is outside the model. *)

#[warnings="-register-all"]
Inductive node : Type :=
| Tag (uid : nat) (name : string) (attrs : list (string * string))
      (contents : list node)
| NavigableString (text : string).

Definition document := list node.

Definition uid_of (n : node) : option nat :=
  match n with Tag u _ _ _ => Some u | NavigableString _ => None end.

Definition contents_of (n : node) : list node :=
  match n with Tag _ _ _ cs => cs | NavigableString _ => [] end.

Definition attrs_of (n : node) : list (string * string) :=
  match n with Tag _ _ a _ => a | NavigableString _ => [] end.

(** [tag.get(key)] *)
Fixpoint get_attr (key : string) (attrs : list (string * string)) : option string :=
  match attrs with
  | [] => None
  | (k, v) :: rest => if String.eqb k key then Some v else get_attr key rest
  end.

(** [tag.has_attr(key)] *)
Definition has_attr (key : string) (n : node) : bool :=
  match get_attr key (attrs_of n) with Some _ => true | None => false end.

(** [tag[key] = value]: replaces the value in place, or adds the attribute. *)
Fixpoint set_attr (key value : string) (attrs : list (string * string))
  : list (string * string) :=
  match attrs with
  | [] => [(key, value)]
  | (k, v) :: rest =>
      if String.eqb k key then (k, value) :: rest
      else (k, v) :: set_attr key value rest
  end.

(** [node.text]: the strings below the node, in document order. *)
Fixpoint get_text (n : node) : string :=
  match n with
  | NavigableString s => s
  | Tag _ _ _ cs =>
      (fix texts (l : list node) : string :=
         match l with
         | [] => EmptyString
         | c :: l' => (get_text c ++ texts l')%string
         end) cs
  end.

(** The words of a whitespace-separated attribute value ([class]). *)
Fixpoint words_from (cur : string) (s : string) : list string :=
  match s with
  | EmptyString => match cur with EmptyString => [] | _ => [cur] end
  | String c s' =>
      if PyStr.is_space c
      then match cur with
           | EmptyString => words_from EmptyString s'
           | _ => cur :: words_from EmptyString s'
           end
      else words_from (cur ++ String c EmptyString)%string s'
  end.

Definition classes_of (attrs : list (string * string)) : list string :=
  match get_attr "class" attrs with
  | Some v => words_from EmptyString v
  | None => []
  end.

(** ** CSS selectors

    The selectors of chef.py are compound selectors joined by the
    descendant combinator.  A compound selector tests the tag name, the id,
    classes, one attribute and the position among the siblings of the same
    tag name ([:nth-of-type]). *)

Record compound : Type := {
  c_tag : option string;
  c_id : option string;
  c_classes : list string;
  c_attr : option (string * option string);
  c_nth_of_type : option nat
}.

Definition selector := list compound.

(** What a selector can see of an element: its name, its attributes and
    its 1-based position among the siblings of the same name. *)
Record einfo : Type := {
  e_name : string;
  e_attrs : list (string * string);
  e_index : nat
}.

Definition opt_test {A} (o : option A) (f : A -> bool) : bool :=
  match o with None => true | Some a => f a end.

Definition match_compound (c : compound) (e : einfo) : bool :=
  opt_test (c_tag c) (String.eqb (e_name e)) &&
  opt_test (c_id c) (fun i =>
    match get_attr "id" (e_attrs e) with Some v => String.eqb v i | None => false end) &&
  forallb (fun k => existsb (String.eqb k) (classes_of (e_attrs e))) (c_classes c) &&
  opt_test (c_attr c) (fun '(k, want) =>
    match get_attr k (e_attrs e), want with
    | Some v, Some w => String.eqb v w
    | Some _, None => true
    | None, _ => false
    end) &&
  opt_test (c_nth_of_type c) (Nat.eqb (e_index e)).

(** [rev_cs] are the compounds left of the subject, nearest first; each
    must match some ancestor, in order. *)
Fixpoint matches_ancestors (rev_cs : list compound) (ancs : list einfo) : bool :=
  match rev_cs with
  | [] => true
  | c :: cs' =>
      (fix search (l : list einfo) : bool :=
         match l with
         | [] => false
         | a :: l' => (match_compound c a && matches_ancestors cs' l') || search l'
         end) ancs
  end.

Definition matches (sel : selector) (e : einfo) (ancs : list einfo) : bool :=
  match rev sel with
  | [] => false
  | c :: cs => match_compound c e && matches_ancestors cs ancs
  end.

Definition count_name (nm : string) (seen : list string) : nat :=
  List.length (filter (String.eqb nm) seen).

Definition push_seen (n : node) (seen : list string) : list string :=
  match n with Tag _ nm _ _ => nm :: seen | NavigableString _ => seen end.

(** The elements below (and including) [n] that match [sel], in document
    order; [ancs] are the ancestors of [n], nearest first, and [seen] the
    names of its preceding element siblings. *)
Fixpoint select_node (sel : selector) (ancs : list einfo) (seen : list string)
    (n : node) {struct n} : list node :=
  match n with
  | NavigableString _ => []
  | Tag u nm a cs =>
      let e := {| e_name := nm; e_attrs := a; e_index := S (count_name nm seen) |} in
      (if matches sel e ancs then [n] else []) ++
      (fix walk (seen' : list string) (l : list node) {struct l} : list node :=
         match l with
         | [] => []
         | c :: l' => select_node sel (e :: ancs) seen' c ++ walk (push_seen c seen') l'
         end) [] cs
  end.

Fixpoint select_list (sel : selector) (ancs : list einfo) (seen : list string)
    (l : list node) : list node :=
  match l with
  | [] => []
  | c :: l' => select_node sel ancs seen c ++ select_list sel ancs (push_seen c seen) l'
  end.

(** [doc.select(sel)] *)
Definition select (sel : selector) (doc : document) : list node :=
  select_list sel [] [] doc.

(** [doc.select_one(sel)] *)
Definition select_one (sel : selector) (doc : document) : option node :=
  hd_error (select sel doc).

(** [tag.select(sel)] and [tag.select_one(sel)], below one element. *)
Definition select_in (sel : selector) (t : node) : list node :=
  select (sel) (contents_of t).

Definition select_one_in (sel : selector) (t : node) : option node :=
  hd_error (select_in sel t).

(** The uids of all the tags of a forest. *)
Fixpoint uids_node (n : node) : list nat :=
  match n with
  | NavigableString _ => []
  | Tag u _ _ cs =>
      u :: (fix go (l : list node) : list nat :=
              match l with
              | [] => []
              | c :: l' => uids_node c ++ go l'
              end) cs
  end.

Fixpoint uids (l : list node) : list nat :=
  match l with
  | [] => []
  | c :: l' => uids_node c ++ uids l'
  end.

(** ** Detaching nodes

    [prune doomed doc] is [doc] without the tags whose uid is [doomed], and
    without what is below them. *)

Definition is_doomed (doomed : nat -> bool) (n : node) : bool :=
  match n with Tag u _ _ _ => doomed u | NavigableString _ => false end.

Fixpoint prune_node (doomed : nat -> bool) (n : node) : node :=
  match n with
  | NavigableString s => NavigableString s
  | Tag u nm a cs =>
      Tag u nm a
        ((fix go (l : list node) : list node :=
            match l with
            | [] => []
            | c :: l' =>
                if is_doomed doomed c then go l' else prune_node doomed c :: go l'
            end) cs)
  end.

Fixpoint prune (doomed : nat -> bool) (l : list node) : list node :=
  match l with
  | [] => []
  | c :: l' =>
      if is_doomed doomed c then prune doomed l' else prune_node doomed c :: prune doomed l'
  end.

(** [node.decompose()]: the node leaves the document it is in; a node that
    is no longer there (removed with one of its ancestors) changes nothing. *)
Definition decompose (target : node) (doc : document) : document :=
  match target with
  | Tag u _ _ _ => prune (Nat.eqb u) doc
  | NavigableString _ => doc
  end.

(** ** The removed regions (chef.py, lines 209-227) *)

Definition by_tag (t : string) : compound :=
  {| c_tag := Some t; c_id := None; c_classes := []; c_attr := None; c_nth_of_type := None |}.
Definition by_id (i : string) : compound :=
  {| c_tag := None; c_id := Some i; c_classes := []; c_attr := None; c_nth_of_type := None |}.
Definition by_class (cl : list string) : compound :=
  {| c_tag := None; c_id := None; c_classes := cl; c_attr := None; c_nth_of_type := None |}.

(** [img[alt="next"]] *)
Definition img_alt_next : compound :=
  {| c_tag := Some "img"; c_id := None; c_classes := [];
     c_attr := Some ("alt", Some "next"); c_nth_of_type := None |}.

(** [tr:nth-of-type(2)] *)
Definition tr_nth_of_type_2 : compound :=
  {| c_tag := Some "tr"; c_id := None; c_classes := [];
     c_attr := None; c_nth_of_type := Some 2 |}.

(** ['.generalbox table tr:nth-of-type(2)'] *)
Definition generalbox_second_row : selector :=
  [by_class ["generalbox"]; by_tag "table"; tr_nth_of_type_2].

Definition nodes_to_remove : list selector := [
  [by_tag "header"];
  [by_id "page-top-header"];
  [by_id "block-region-side-pre"];
  [by_id "region-main"; by_class ["row-fluid"]; by_class ["span4"; "heading-rts"]];
  [by_class ["readmoreLinks"]];
  [by_class ["courseSectionNext"]];
  [img_alt_next];
  [by_class ["modified"]];
  [by_class ["footer-rts"]];
  [by_id "page-footer"];
  [by_class ["back-to-top"]];
  [by_class ["skiplinks"]];
  [by_class ["linkicon"]];
  generalbox_second_row
].

(** [for node in doc.select(selector): node.decompose()] *)
Definition remove_selected (doc : document) (sel : selector) : document :=
  fold_left (fun d node => decompose node d) (select sel doc) doc.

(** [for selector in nodes_to_remove: ...] *)
Definition remove_all (sels : list selector) (doc : document) : document :=
  fold_left remove_selected sels doc.

Definition sanitize (doc : document) : document := remove_all nodes_to_remove doc.

(** ** The world and its effects

    [sess] (a [requests.Session] with its cache adapter), the clock and the
    random source are the world the chef acts on.  The remote site, seen
    through the session, answers a request as a function of everything the
    chef did before ([log]); nothing else is assumed of it.  Printing is
    left out. *)

Inductive exn : Type :=
| ConnectionError
| ReadTimeout
| OtherRequestException
| NameError (name : string)
| KeyError (key : string)
| TypeError
| AttributeError (attr : string)
| IndexError
| ValueError
| OutOfFuel.

(** A [requests.Response]: [soup] is what [BeautifulSoup(content,
    "html.parser")] makes of the body. *)
Record Response : Type := {
  status_code : nat;
  content : string;
  soup : document
}.

Inductive event : Type :=
| Get (url : string)
| Post (url : string) (data : list (string * string))
| Sleep (seconds : nat).

Inductive reply : Type :=
| Responded (r : Response)
| Failed (e : exn).

Record World : Type := {
  site : list event -> event -> reply;
  log : list event;
  entropy : nat -> N;
  drawn : nat
}.

Definition with_log (w : World) (l : list event) : World :=
  {| site := site w; log := l; entropy := entropy w; drawn := drawn w |}.

Definition record (e : event) (w : World) : World := with_log w (log w ++ [e]).

Inductive result (A : Type) : Type :=
| Ok (a : A)
| Raise (e : exn).
Arguments Ok {A} a.
Arguments Raise {A} e.

Definition M (A : Type) : Type := World -> result A * World.

Definition ret {A} (a : A) : M A := fun w => (Ok a, w).

Definition raise {A} (e : exn) : M A := fun w => (Raise e, w).

(** A computation without effects that may raise. *)
Definition lift {A} (r : result A) : M A := fun w => (r, w).

Definition bind {A B} (m : M A) (k : A -> M B) : M B :=
  fun w => match m w with
           | (Ok a, w') => k a w'
           | (Raise e, w') => (Raise e, w')
           end.

Notation "x <- m ;; k" := (bind m (fun x => k))
  (at level 61, m at next level, right associativity).
Notation "m ;;; k" := (bind m (fun _ => k))
  (at level 61, right associativity).

(** [try: body except (caught): handler] *)
Definition try_except {A} (body : M A) (caught : exn -> bool) (handler : exn -> M A)
  : M A :=
  fun w => match body w with
           | (Raise e, w') => if caught e then handler e w' else (Raise e, w')
           | r => r
           end.

(** [sess.get(url, ...)] *)
Definition sess_get (url : string) : M Response :=
  fun w => match site w (log w) (Get url) with
           | Responded r => (Ok r, record (Get url) w)
           | Failed e => (Raise e, record (Get url) w)
           end.

(** [sess.post(url, data)] *)
Definition sess_post (url : string) (data : list (string * string)) : M Response :=
  fun w => match site w (log w) (Post url data) with
           | Responded r => (Ok r, record (Post url data) w)
           | Failed e => (Raise e, record (Post url data) w)
           end.

(** [time.sleep(seconds)] *)
Definition sleep (seconds : nat) : M unit :=
  fun w => (Ok tt, record (Sleep seconds) w).

(** The names chef.py binds at module level: its imports, its assignments
    and its definitions. *)
Definition module_globals : list string := [
  "os"; "re"; "requests"; "tempfile"; "time"; "urlparse"; "parse_qs"; "uuid";
  "BeautifulSoup"; "languages"; "SushiChef"; "nodes"; "files"; "licenses";
  "CacheForeverHeuristic"; "FileCache"; "CacheControlAdapter";
  "InvalidatingCacheControlAdapter"; "preview_in_browser"; "download_file";
  "WebDriver"; "create_predictable_zip"; "download_static_assets";
  "selenium_ui"; "secrets"; "sess"; "cache"; "forever_adapter"; "headers";
  "MEET_LICENSE"; "MeetChef"; "login_to_meet"; "fetch_all_languages";
  "fetch_language"; "fetch_module"; "fetch_unit"; "fetch_article";
  "derive_filename"; "download_content_node"; "truncate_metadata";
  "url_blacklist"; "make_request"; "get_parsed_html_from_url"
].

(** Evaluating a global name: [NameError] when the module does not bind it. *)
Definition load_global (name : string) : M unit :=
  if existsb (String.eqb name) module_globals then ret tt else raise (NameError name).

(** ** make_request (chef.py, lines 262-280) *)

Definition max_retries : nat := 5.

(** [except (requests.exceptions.ConnectionError,
    requests.exceptions.ReadTimeout)] *)
Definition connection_or_timeout (e : exn) : bool :=
  match e with
  | ConnectionError | ReadTimeout => true
  | _ => false
  end.

(** What [Dummy404ResponseObject(url=url)] would be, were the name bound:
    a response with status 404 and an empty body. *)
Definition Dummy404ResponseObject (url : string) : Response :=
  {| status_code := 404; content := ""; soup := [] |}.

(** The [while True] loop.  [retry_count] grows with every failed attempt
    and the loop is left when it reaches [max_retries]; [fuel] only makes
    the recursion structural and never runs out (see
    [make_request_fuel]). *)
Fixpoint make_request_loop (fuel : nat) (url : string) (retry_count : nat)
  : M Response :=
  match fuel with
  | 0 => raise OutOfFuel
  | S fuel' =>
      try_except (sess_get url) connection_or_timeout (fun e =>
        let retry_count := retry_count + 1 in
        sleep (retry_count * 1) ;;;
        if (max_retries <=? retry_count)%nat
        then load_global "Dummy404ResponseObject" ;;;
             ret (Dummy404ResponseObject url)
        else make_request_loop fuel' url retry_count)
  end.

(** After the loop a status other than 200 is only printed; the response
    is returned as it is. *)
Definition make_request (url : string) : M Response :=
  make_request_loop max_retries url 0.

(** get_parsed_html_from_url (chef.py, lines 283-285) *)
Definition get_parsed_html_from_url (url : string) : M document :=
  response <- make_request url ;;
  ret (soup response).

(** ** uuid.uuid4().hex

    [uuid4] takes sixteen random bytes as a 128-bit number, sets the variant
    and the version bits, and [hex] prints the number as 32 lower-case
    hexadecimal digits.  The random bytes are the next draw from the
    world's [entropy]. *)

Definition uuid4_int (random : N) : N :=
  let i := N.modulo random (2 ^ 128) in
  let i := N.ldiff i (N.shiftl 0xc000 48) in
  let i := N.lor i (N.shiftl 0x8000 48) in
  let i := N.ldiff i (N.shiftl 0xf000 64) in
  N.lor i (N.shiftl 4 76).

Definition hex_digit (d : N) : ascii :=
  if (d <? 10)%N then ascii_of_N (48 + d) else ascii_of_N (87 + d).

(** ['%0kx' % n] *)
Fixpoint hex (k : nat) (n : N) : string :=
  match k with
  | 0 => EmptyString
  | S k' => (hex k' (N.shiftr n 4) ++ String (hex_digit (N.land n 15)) EmptyString)%string
  end.

Definition uuid4_hex : M string :=
  fun w =>
    (Ok (hex 32 (uuid4_int (entropy w (drawn w)))),
     {| site := site w; log := log w; entropy := entropy w; drawn := S (drawn w) |}).

(** ** urllib.parse.urlparse and os.path.basename

    The two functions of the Python standard library that
    [derive_filename] calls, after CPython 3.11 (Lib/urllib/parse.py,
    Lib/ipaddress.py, Lib/posixpath.py).  Of the components [urlparse]
    returns, the scheme, the network location and the path are kept; the
    query and the fragment are cut off and dropped.  [urlparse] raises
    [ValueError] when the network location holds square brackets that do
    not enclose an IPv6 or an IPvFuture address. *)

(** [c in s] for a character. *)
Fixpoint has_char (c : ascii) (s : string) : bool :=
  match s with
  | EmptyString => false
  | String d s' => Ascii.eqb d c || has_char c s'
  end.

Definition is_alpha (c : ascii) : bool :=
  let n := nat_of_ascii c in
  (Nat.leb 97 n && Nat.leb n 122) || (Nat.leb 65 n && Nat.leb n 90).

Definition is_digit (c : ascii) : bool :=
  let n := nat_of_ascii c in Nat.leb 48 n && Nat.leb n 57.

(** [c in scheme_chars] *)
Definition scheme_char (c : ascii) : bool :=
  is_alpha c || is_digit c ||
  Ascii.eqb c "+" || Ascii.eqb c "-" || Ascii.eqb c ".".

(** [c in '0123456789ABCDEFabcdef'] *)
Definition is_hex_digit (c : ascii) : bool :=
  let n := nat_of_ascii c in
  is_digit c || (Nat.leb 97 n && Nat.leb n 102) || (Nat.leb 65 n && Nat.leb n 70).

Fixpoint all_chars (p : ascii -> bool) (s : string) : bool :=
  match s with
  | EmptyString => true
  | String c s' => p c && all_chars p s'
  end.

(** [s.partition(c)[0]], which is [s.split(c, 1)[0]] *)
Definition before (c : ascii) (s : string) : string :=
  let i := PyStr.find c s in
  if (i <? 0)%Z then s else PyStr.take (Z.to_nat i) s.

(** [s.partition(c)[2]] *)
Definition after (c : ascii) (s : string) : string :=
  let i := PyStr.find c s in
  if (i <? 0)%Z then EmptyString else PyStr.drop (Z.to_nat i + 1) s.

(** [s.rpartition(c)[2]] *)
Definition after_last (c : ascii) (s : string) : string :=
  PyStr.drop (Z.to_nat (PyStr.rfind c s + 1)) s.

(** *** ipaddress: which strings are addresses *)

(** [int(s)] for a string of decimal digits. *)
Fixpoint decimal (acc : N) (s : string) : N :=
  match s with
  | EmptyString => acc
  | String c s' => decimal (10 * acc + (N_of_ascii c - 48))%N s'
  end.

(** [IPv4Address._parse_octet(octet_str)] returns. *)
Definition octet_ok (octet_str : string) : bool :=
  negb (String.eqb octet_str "") &&
  all_chars is_digit octet_str &&
  Nat.leb (String.length octet_str) 3 &&
  negb (negb (String.eqb octet_str "0") && prefix "0" octet_str) &&
  (decimal 0 octet_str <=? 255)%N.

(** [IPv4Address(addr_str)] returns. *)
Definition ipv4_ok (addr_str : string) : bool :=
  negb (has_char "/" addr_str) &&
  negb (String.eqb addr_str "") &&
  let octets := PyStr.split "." addr_str in
  Nat.eqb (List.length octets) 4 && forallb octet_ok octets.

(** [IPv6Address._parse_hextet(hextet_str)] returns: hexadecimal digits, at
    most four, and at least one for [int(hextet_str, 16)]. *)
Definition hextet_ok (hextet_str : string) : bool :=
  all_chars is_hex_digit hextet_str &&
  Nat.leb (String.length hextet_str) 4 &&
  negb (String.eqb hextet_str "").

Definition HEXTET_COUNT : nat := 8.

(** [IPv6Address._ip_int_from_string(ip_str)] returns.  An IPv4 suffix
    that is accepted is replaced by its two hextets, which are well formed
    whatever the address: they stand here as ["0"]. *)
Definition ipv6_parts_ok (ip_str : string) : bool :=
  if String.eqb ip_str "" then false
  else
    let parts := PyStr.split ":" ip_str in
    if Nat.ltb (List.length parts) 3 then false
    else
      let suffix := last parts "" in
      if has_char "." suffix && negb (ipv4_ok suffix) then false
      else
        let parts :=
          if has_char "." suffix then removelast parts ++ ["0"; "0"] else parts in
        if Nat.ltb (HEXTET_COUNT + 1) (List.length parts) then false
        else
          let empty i := String.eqb (nth i parts "") "" in
          match filter empty (seq 1 (List.length parts - 2)) with
          | [] =>
              Nat.eqb (List.length parts) HEXTET_COUNT &&
              negb (empty 0) && negb (empty (List.length parts - 1)) &&
              forallb hextet_ok parts
          | [skip_index] =>
              let parts_hi := skip_index in
              let parts_lo := List.length parts - skip_index - 1 in
              let parts_hi := if empty 0 then parts_hi - 1 else parts_hi in
              if empty 0 && negb (Nat.eqb parts_hi 0) then false
              else
                let parts_lo :=
                  if empty (List.length parts - 1) then parts_lo - 1 else parts_lo in
                if empty (List.length parts - 1) && negb (Nat.eqb parts_lo 0) then false
                else if Nat.leb HEXTET_COUNT (parts_hi + parts_lo) then false
                else forallb hextet_ok (firstn parts_hi parts) &&
                     forallb hextet_ok (skipn (List.length parts - parts_lo) parts)
          | _ => false
          end.

(** [IPv6Address(addr_str)] returns: no slash, a scope id after [%] that is
    neither empty nor holds another [%], and a well-formed address. *)
Definition ipv6_ok (addr_str : string) : bool :=
  negb (has_char "/" addr_str) &&
  (negb (has_char "%" addr_str) ||
   negb (String.eqb (after "%" addr_str) "") &&
   negb (has_char "%" (after "%" addr_str))) &&
  ipv6_parts_ok (before "%" addr_str).

(** *** urllib.parse *)

Definition newline : ascii := ascii_of_nat 10.

(** [_check_bracketed_host(hostname)] returns: the host is an IPvFuture
    address, [re.match(r"\Av[a-fA-F0-9]+\..+\Z", hostname)], or
    [ipaddress.ip_address(hostname)] is an IPv6 address. *)
Definition bracketed_host_ok (hostname : string) : bool :=
  if prefix "v" hostname then
    let rest := PyStr.drop 1 hostname in
    has_char "." rest &&
    negb (String.eqb (before "." rest) "") &&
    all_chars is_hex_digit (before "." rest) &&
    negb (String.eqb (after "." rest) "") &&
    negb (has_char newline (after "." rest))
  else negb (ipv4_ok hostname) && ipv6_ok hostname.

(** [_check_bracketed_netloc(netloc)] returns. *)
Definition bracketed_netloc_ok (netloc : string) : bool :=
  let hostname_and_port := after_last "@" netloc in
  if has_char "[" hostname_and_port then
    let before_bracket := before "[" hostname_and_port in
    let bracketed := after "[" hostname_and_port in
    if negb (String.eqb before_bracket "") then false
    else
      let hostname := before "]" bracketed in
      let port := after "]" bracketed in
      if negb (String.eqb port "") && negb (prefix ":" port) then false
      else bracketed_host_ok hostname
  else bracketed_host_ok (before ":" hostname_and_port).

(** [url.lstrip(_WHATWG_C0_CONTROL_OR_SPACE)]: the characters up to the
    space. *)
Fixpoint lstrip_c0 (url : string) : string :=
  match url with
  | EmptyString => EmptyString
  | String c url' => if Nat.leb (nat_of_ascii c) 32 then lstrip_c0 url' else url
  end.

(** [for b in _UNSAFE_URL_BYTES_TO_REMOVE: url = url.replace(b, "")]: tab,
    carriage return and line feed. *)
Fixpoint remove_unsafe (url : string) : string :=
  match url with
  | EmptyString => EmptyString
  | String c url' =>
      let n := nat_of_ascii c in
      if Nat.eqb n 9 || Nat.eqb n 13 || Nat.eqb n 10 then remove_unsafe url'
      else String c (remove_unsafe url')
  end.

(** The scheme and what follows its colon; no scheme when the text before
    the first colon does not start with a letter or holds a character that
    is not in [scheme_chars]. *)
Definition split_scheme (url : string) : string * string :=
  let i := PyStr.find ":" url in
  if (0 <? i)%Z
     && match url with String c _ => is_alpha c | EmptyString => false end
     && all_chars scheme_char (PyStr.take (Z.to_nat i) url)
  then (PyStr.lower (PyStr.take (Z.to_nat i) url), PyStr.drop (Z.to_nat i + 1) url)
  else ("", url).

(** [_splitnetloc(url, 2)]: the network location ends at the first of
    [/?#]. *)
Fixpoint netloc_of (s : string) : string :=
  match s with
  | EmptyString => EmptyString
  | String c s' =>
      if Ascii.eqb c "/" || Ascii.eqb c "?" || Ascii.eqb c "#" then EmptyString
      else String c (netloc_of s')
  end.

Fixpoint after_netloc (s : string) : string :=
  match s with
  | EmptyString => EmptyString
  | String c s' =>
      if Ascii.eqb c "/" || Ascii.eqb c "?" || Ascii.eqb c "#" then s
      else after_netloc s'
  end.

(** [urlsplit(url)]: the scheme, the network location and the path.
    [_checknetloc] is left out: it raises only for a network location with
    characters such as U+2100, which are not among those of [string]. *)
Definition urlsplit (url : string) : result (string * string * string) :=
  let url := remove_unsafe (lstrip_c0 url) in
  let '(scheme, url) := split_scheme url in
  let '(netloc, url) :=
    if prefix "//" url
    then (netloc_of (PyStr.drop 2 url), after_netloc (PyStr.drop 2 url))
    else ("", url) in
  if (has_char "[" netloc && negb (has_char "]" netloc))
     || (has_char "]" netloc && negb (has_char "[" netloc))
  then Raise ValueError
  else if has_char "[" netloc && has_char "]" netloc
          && negb (bracketed_netloc_ok netloc)
  then Raise ValueError
  else
    let url := before "#" url in
    let url := before "?" url in
    Ok (scheme, netloc, url).

Definition uses_params : list string :=
  [""; "ftp"; "hdl"; "prospero"; "http"; "imap"; "https"; "shttp"; "rtsp";
   "rtspu"; "sip"; "sips"; "mms"; "sftp"; "tel"].

(** [_splitparams(url)[0]] *)
Definition without_params (url : string) : string :=
  let start := Z.to_nat (PyStr.rfind "/" url + 1) in
  let i := PyStr.find ";" (PyStr.drop start url) in
  if (i <? 0)%Z then url else PyStr.take (start + Z.to_nat i) url.

(** [urlparse(url).path], or the exception [urlparse] raises. *)
Definition urlparse_path (url : string) : result string :=
  match urlsplit url with
  | Raise e => Raise e
  | Ok (scheme, _, url) =>
      if existsb (String.eqb scheme) uses_params && has_char ";" url
      then Ok (without_params url)
      else Ok url
  end.

(** [os.path.basename(p)] *)
Definition basename (p : string) : string :=
  PyStr.drop (Z.to_nat (PyStr.rfind "/" p + 1)) p.

(** ** derive_filename (chef.py, lines 193-197) *)

Definition derive_filename (url : string) : M string :=
  if String.eqb (last (PyStr.split "/" url) "") "all" then ret "all.css"
  else
    path <- lift (urlparse_path url) ;;
    let name := PyStr.replace "%" "_" (basename path) in
    token <- uuid4_hex ;;
    ret (PyStr.lower (token ++ "." ++ name)%string).

(** ** The topic tree (ricecooker.classes.nodes, le_utils languages) *)

Record Language : Type := {
  lang_code : string;
  lang_name : string;
  lang_native_name : string
}.

(** The [language] argument of a node: a code such as ["en"], or a
    [Language] object. *)
Inductive lang_tag : Type :=
| LangCode (code : string)
| LangObject (language : Language).

Record License : Type := {
  license_description : string;
  copyright_holder : string
}.

Definition MEET_LICENSE : License :=
  {| license_description :=
       "Permission has been granted by MEET to distribute this content through Kolibri.";
     copyright_holder := "MEET (migranthealth.eu)" |}.

(** A directory: file names and file contents.  The work directory of a
    page is passed along as a value; its random path does not matter. *)
Definition directory := list (string * string).

#[warnings="-register-all"]
Inductive tree_node : Type :=
| ChannelNode (source_domain source_id title thumbnail description language : string)
    (children : list tree_node)
| TopicNode (source_id title : string) (language : lang_tag)
    (description : option string) (children : list tree_node)
| HTML5AppNode (source_id title : string) (license : License)
    (files : list directory) (language : lang_tag).

(** [node.add_child(child)] *)
Definition add_child (parent child : tree_node) : tree_node :=
  match parent with
  | ChannelNode d i t th de l cs => ChannelNode d i t th de l (cs ++ [child])
  | TopicNode i t l d cs => TopicNode i t l d (cs ++ [child])
  | HTML5AppNode i t li f l => HTML5AppNode i t li f l
  end.

Definition children_of (n : tree_node) : list tree_node :=
  match n with
  | ChannelNode _ _ _ _ _ _ cs => cs
  | TopicNode _ _ _ _ cs => cs
  | HTML5AppNode _ _ _ _ _ => []
  end.

Definition language_of (n : tree_node) : lang_tag :=
  match n with
  | ChannelNode _ _ _ _ _ l _ => LangCode l
  | TopicNode _ _ l _ _ => l
  | HTML5AppNode _ _ _ _ l => l
  end.

Definition source_id_of (n : tree_node) : string :=
  match n with
  | ChannelNode _ i _ _ _ _ _ => i
  | TopicNode i _ _ _ _ => i
  | HTML5AppNode i _ _ _ _ => i
  end.

Definition title_of (n : tree_node) : string :=
  match n with
  | ChannelNode _ _ t _ _ _ _ => t
  | TopicNode _ t _ _ _ => t
  | HTML5AppNode _ t _ _ _ => t
  end.

Definition description_of (n : tree_node) : option string :=
  match n with
  | ChannelNode _ _ _ _ d _ _ => Some d
  | TopicNode _ _ _ d _ => d
  | HTML5AppNode _ _ _ _ _ => None
  end.

Definition files_of (n : tree_node) : list directory :=
  match n with
  | HTML5AppNode _ _ _ f _ => f
  | _ => []
  end.

(** ** Loops and lookups *)

(** [for x in xs: body], the loop's variables being [s]. *)
Fixpoint for_each {A S : Type} (xs : list A) (body : A -> S -> M S) (s : S) : M S :=
  match xs with
  | [] => ret s
  | x :: xs' => s' <- body x s ;; for_each xs' body s'
  end.

(** [tag[key]], where [tag] is the result of [select_one]: [TypeError] on
    [None], [KeyError] when the attribute is missing. *)
Definition item (tag : option node) (key : string) : M string :=
  match tag with
  | None => raise TypeError
  | Some t =>
      match get_attr key (attrs_of t) with
      | Some v => ret v
      | None => raise (KeyError key)
      end
  end.

(** [tag.text], where [tag] is the result of [select_one]. *)
Definition text_of (tag : option node) : M string :=
  match tag with
  | None => raise (AttributeError "text")
  | Some t => ret (get_text t)
  end.

(** [tag.contents[0].strip()], where [tag] is the result of [select_one]:
    the first child must be a string. *)
Definition first_string_stripped (tag : option node) : M string :=
  match tag with
  | None => raise (AttributeError "contents")
  | Some t =>
      match contents_of t with
      | [] => raise IndexError
      | NavigableString s :: _ => ret (PyStr.strip s)
      | Tag _ _ _ _ :: _ => raise TypeError
      end
  end.

(** ** Writing the page out *)

Fixpoint escape (s : string) : string :=
  match s with
  | EmptyString => EmptyString
  | String c s' =>
      ((if Ascii.eqb c "&" then "&amp;"
        else if Ascii.eqb c "<" then "&lt;"
        else if Ascii.eqb c ">" then "&gt;"
        else String c EmptyString) ++ escape s')%string
  end.

Definition void_elements : list string :=
  ["area"; "base"; "br"; "col"; "embed"; "hr"; "img"; "input"; "link"; "meta";
   "param"; "source"; "track"; "wbr"].

(** The double quote around attribute values. *)
Definition dquote : ascii := ascii_of_nat 34.

Fixpoint str_attrs (attrs : list (string * string)) : string :=
  match attrs with
  | [] => EmptyString
  | (k, v) :: rest =>
      (" " ++ k ++ "=" ++ String dquote (escape v) ++ String dquote (str_attrs rest))%string
  end.

(** [str(node)], up to the finer points of bs4's output formatter. *)
Fixpoint str_node (n : node) : string :=
  match n with
  | NavigableString s => escape s
  | Tag _ nm a cs =>
      if existsb (String.eqb nm) void_elements
      then ("<" ++ nm ++ str_attrs a ++ "/>")%string
      else ("<" ++ nm ++ str_attrs a ++ ">" ++
            (fix strs (l : list node) : string :=
               match l with
               | [] => EmptyString
               | c :: l' => (str_node c ++ strs l')%string
               end) cs ++
            "</" ++ nm ++ ">")%string
  end.

(** [str(doc)] *)
Fixpoint str (doc : document) : string :=
  match doc with
  | [] => EmptyString
  | c :: l' => (str_node c ++ str l')%string
  end.

(** [open(os.path.join(destination, name), "w").write(data)] *)
Fixpoint write_file (name data : string) (destination : directory) : directory :=
  match destination with
  | [] => [(name, data)]
  | (n, d) :: rest =>
      if String.eqb n name then (n, data) :: rest
      else (n, d) :: write_file name data rest
  end.

(** [tempfile.mkdtemp()]: a fresh, empty directory. *)
Definition mkdtemp : directory := [].

(** Modelled from the spec: [create_predictable_zip] is ricecooker's
    (ricecooker.utils.zip), not part of chef.py.  Spec 4.4, step 6: the
    work directory is packaged into a deterministic archive, the same
    directory contents giving a byte-identical archive.  The archive is
    modelled as the files of the directory in the order of their names. *)
Fixpoint insert_file (f : string * string) (sorted : directory) : directory :=
  match sorted with
  | [] => [f]
  | g :: rest =>
      if String.leb (fst f) (fst g) then f :: g :: rest
      else g :: insert_file f rest
  end.

Definition create_predictable_zip (destination : directory) : directory :=
  fold_right insert_file [] destination.

(** ** Static assets *)

(** url_blacklist (chef.py, lines 253-259) *)
Definition url_blacklist : list string := [
  "analytics.js";
  "yui_combo.php";
  "fontawesome-webfont";
  "dnd_arrow";
  "pic1.jpg"
].

Definition is_blacklisted (url : string) (blacklist : list string) : bool :=
  existsb (fun entry => PyStr.contains entry url) blacklist.

(** The asset reference an element carries, if any: the [src] of a script,
    an image or an embedded medium, the [href] of a stylesheet link. *)
Definition asset_reference (n : node) : option (nat * string * string) :=
  match n with
  | NavigableString _ => None
  | Tag u nm a _ =>
      if existsb (String.eqb nm) ["script"; "img"; "source"; "audio"; "video"; "embed"]
      then match get_attr "src" a with
           | Some v => Some (u, "src", v)
           | None => None
           end
      else if String.eqb nm "link"
                && existsb (String.eqb "stylesheet")
                     (match get_attr "rel" a with
                      | Some v => words_from EmptyString v
                      | None => []
                      end)
      then match get_attr "href" a with
           | Some v => Some (u, "href", v)
           | None => None
           end
      else None
  end.

Definition opt_list {A} (o : option A) : list A :=
  match o with Some a => [a] | None => [] end.

(** The asset references of a document, in document order. *)
Fixpoint assets_node (n : node) : list (nat * string * string) :=
  opt_list (asset_reference n) ++
  match n with
  | NavigableString _ => []
  | Tag _ _ _ cs => flat_map assets_node cs
  end.

Definition assets (doc : document) : list (nat * string * string) :=
  flat_map assets_node doc.

(** [node[key] = value] for the node of uid [u]. *)
Fixpoint set_attr_node (u : nat) (key value : string) (n : node) : node :=
  match n with
  | NavigableString s => NavigableString s
  | Tag v nm a cs =>
      Tag v nm (if Nat.eqb v u then set_attr key value a else a)
        (map (set_attr_node u key value) cs)
  end.

Definition set_attr_at (u : nat) (key value : string) (doc : document) : document :=
  map (set_attr_node u key value) doc.

(** A reference resolved against the base URL of the site (the root of the
    host): a reference with a scheme stands, one that starts with a slash
    is taken from the root, any other is appended to the base. *)
Definition urljoin (base_url ref : string) : string :=
  if PyStr.contains "://" ref then ref
  else if prefix "//" ref then ("http:" ++ ref)%string
  else if prefix "/" ref then (base_url ++ PyStr.drop 1 ref)%string
  else (base_url ++ ref)%string.

(** Modelled from the spec: [download_static_assets] is ricecooker's
    (ricecooker.utils.downloader), not part of chef.py.  Spec 4.4, steps 2
    and 3: every static asset reference of the document is visited in
    document order; a URL that contains a denylisted substring is dropped
    from the page and not fetched; any other asset is given a local file
    name by [derive_filename], fetched with [request_fn], saved under the
    work directory, and the reference is rewritten to the local name. *)
Definition visit_asset (base_url : string) (request_fn : string -> M Response)
    (url_blacklist : list string) (derive_filename : string -> M string)
    (found : nat * string * string) (state : document * directory)
  : M (document * directory) :=
  let '(u, key, ref) := found in
  let '(doc, destination) := state in
  let url := urljoin base_url ref in
  if is_blacklisted url url_blacklist
  then ret (set_attr_at u key "" doc, destination)
  else
    filename <- derive_filename url ;;
    response <- request_fn url ;;
    ret (set_attr_at u key filename doc,
         write_file filename (content response) destination).

Definition download_static_assets (doc : document) (destination : directory)
    (base_url : string) (request_fn : string -> M Response)
    (url_blacklist : list string) (derive_filename : string -> M string)
  : M (document * directory) :=
  for_each (assets doc)
    (visit_asset base_url request_fn url_blacklist derive_filename)
    (doc, destination).

(** ** download_content_node (chef.py, lines 201-243) *)

Definition download_content_node (url title : string) : M tree_node :=
  doc <- get_parsed_html_from_url url ;;
  let destination := mkdtemp in
  r <- download_static_assets doc destination
         "http://migranthealth.eu/" make_request url_blacklist derive_filename ;;
  let '(doc, destination) := r in
  let doc := sanitize doc in
  let destination := write_file "index.html" (str doc) destination in
  let zip_path := create_predictable_zip destination in
  ret (HTML5AppNode url (truncate_metadata title) MEET_LICENSE [zip_path]
         (LangCode "en")).

(** ** The walker (chef.py, lines 92-186) *)

Definition sel_a : selector := [by_tag "a"].

(** ['.course-content .topics .content .activity.modtype_page'] *)
Definition sel_page_activities : selector :=
  [by_class ["course-content"]; by_class ["topics"]; by_class ["content"];
   by_class ["activity"; "modtype_page"]].

Definition sel_instancename : selector := [by_class ["instancename"]].

(** ['.course-content .topics .section.main'] *)
Definition sel_sections : selector :=
  [by_class ["course-content"]; by_class ["topics"]; by_class ["section"; "main"]].

Definition sel_section_title : selector := [by_class ["section-title"]].

Definition sel_summarytext : selector := [by_class ["summarytext"]].

(** ['form#mform1'] *)
Definition form_mform1 : compound :=
  {| c_tag := Some "form"; c_id := Some "mform1"; c_classes := [];
     c_attr := None; c_nth_of_type := None |}.

Definition sel_form : selector := [form_mform1].

(** ['form#mform1 input'] *)
Definition sel_form_inputs : selector := [form_mform1; by_tag "input"].

Definition sel_coursename : selector := [by_class ["coursename"]].

(** ['.category.essentialcats a'] *)
Definition sel_category_links : selector :=
  [by_class ["category"; "essentialcats"]; by_tag "a"].

Definition fetch_article (url title : string) : M tree_node :=
  download_content_node url title.

Definition fetch_unit (url title description : string) : M tree_node :=
  let unit_node := TopicNode url title (LangCode "en") (Some description) [] in
  doc <- get_parsed_html_from_url url ;;
  for_each (select sel_page_activities doc)
    (fun unit unit_node =>
       article_title <- first_string_stripped (select_one_in sel_instancename unit) ;;
       article_url <- item (select_one_in sel_a unit) "href" ;;
       article <- fetch_article article_url article_title ;;
       ret (add_child unit_node article))
    unit_node.

Definition enrol_url : string := "http://migranthealth.eu/etraining/enrol/index.php".

(** The loop over the inputs of the form (lines 138-141). *)
Definition collect_post_values (inputs : list node) : M (list (string * string)) :=
  for_each inputs
    (fun element post_values =>
       if has_attr "value" element
       then
         key <- item (Some element) "name" ;;
         value <- item (Some element) "value" ;;
         ret (set_attr key value post_values)
       else ret post_values)
    [].

(** "If we haven't enrolled into the module yet, enroll!" (lines 134-144) *)
Definition enroll (url : string) (doc : document) : M document :=
  match select_one sel_form doc with
  | None => ret doc
  | Some form =>
      action <- item (Some form) "action" ;;
      if String.eqb action enrol_url
      then
        post_values <- collect_post_values (select sel_form_inputs doc) ;;
        sess_post action post_values ;;;
        sleep 1 ;;;
        get_parsed_html_from_url url
      else ret doc
  end.

(** The body of the loop over the sections (lines 147-154). *)
Definition fetch_section (section : node) (module_node : tree_node) : M tree_node :=
  match select_one_in sel_section_title section with
  | None => ret module_node
  | Some section_title =>
      let unit_title := PyStr.strip (get_text section_title) in
      unit_url <- item (select_one_in sel_a section_title) "href" ;;
      summary <- text_of (select_one_in sel_summarytext section) ;;
      let unit_description := PyStr.strip summary in
      unit <- fetch_unit unit_url unit_title unit_description ;;
      ret (add_child module_node unit)
  end.

Definition fetch_module (url title : string) : M tree_node :=
  let module_node := TopicNode url title (LangCode "en") None [] in
  doc <- get_parsed_html_from_url url ;;
  doc <- enroll url doc ;;
  for_each (select sel_sections doc) fetch_section module_node.

(** [language] is what [getlang_by_name] returned: [None] when the name is
    unknown, and then [language.name] raises. *)
Definition fetch_language (url : string) (language : option Language) : M tree_node :=
  match language with
  | None => raise (AttributeError "name")
  | Some language =>
      let language_node :=
        TopicNode (lang_code language) (lang_native_name language)
          (LangObject language) None [] in
      doc <- get_parsed_html_from_url url ;;
      for_each (select sel_coursename doc)
        (fun course language_node =>
           let title := get_text course in
           url <- item (select_one_in sel_a course) "href" ;;
           module_node <- fetch_module url title ;;
           ret (add_child language_node module_node))
        language_node
  end.

Section Chef.

(** [languages.getlang_by_name] of le_utils: the language of that name, or
    [None]. *)
Variable getlang_by_name : string -> option Language.

(** [secrets.meet_username], [secrets.meet_password] *)
Variables meet_username meet_password : string.

(** The name looked up for a link: [link.text.strip()[len('MEET '):]] *)
Definition language_name_of (link : node) : string :=
  PyStr.drop (String.length "MEET ") (PyStr.strip (get_text link)).

(** The body of the loop over the language links (lines 95-99). *)
Definition fetch_language_link (link : node) (channel : tree_node) : M tree_node :=
  url <- item (Some link) "href" ;;
  let language_name := language_name_of link in
  let language := getlang_by_name language_name in
  language_node <- fetch_language url language ;;
  ret (add_child channel language_node).

Definition fetch_all_languages (channel : tree_node) : M tree_node :=
  doc <- get_parsed_html_from_url "http://migranthealth.eu/etraining/" ;;
  for_each (select sel_category_links doc) fetch_language_link channel.

Definition login_to_meet : M unit :=
  sess_post "http://migranthealth.eu/etraining/login/index.php"
    [("username", meet_username); ("password", meet_password);
     ("rememberusername", "1"); ("anchor", "")] ;;;
  ret tt.

(** [self.get_channel()] builds the channel from [channel_info]. *)
Definition get_channel : tree_node :=
  ChannelNode "migranthealth.eu" "meet-migrant-health"
    "MEET Community Health Training for Migrants" "thumbnail.png"
    "An initiative of the European Commission's Lifelong Learning Initiative for community health educators"
    "en" [].

Definition construct_channel : M tree_node :=
  let channel := get_channel in
  login_to_meet ;;;
  fetch_all_languages channel.

End Chef.

(** ** The vocabulary of the properties

    What the theorems below speak of, besides chef.py itself. *)

(** The uids a list of selected nodes dooms. *)
Definition doomed_by (targets : list node) (u : nat) : bool :=
  existsb (fun t => match uid_of t with Some v => Nat.eqb v u | None => false end) targets.

(** A selector none of whose compounds tests a position. *)
Definition position_free (sel : selector) : bool :=
  forallb (fun c => match c_nth_of_type c with None => true | Some _ => false end) sel.

(** Two elements that differ at most in their position. *)
Definition same_look (e e' : einfo) : Prop :=
  e_name e = e_name e' /\ e_attrs e = e_attrs e'.

(** An element selected in the pruned forest was selected, under the same
    uid, in the forest before, and was not doomed. *)
Definition traced (doomed : nat -> bool) (before : list node) (n' : node) : Prop :=
  exists n v, In n before /\ uid_of n = Some v /\ uid_of n' = Some v /\ doomed v = false.

(** A page with a three-row table inside a generalbox. *)
Definition three_row_page : document :=
  [Tag 1 "div" [("class", "generalbox")]
     [Tag 2 "table" []
        [Tag 3 "tr" [] [NavigableString "first"];
         Tag 4 "tr" [] [NavigableString "second"];
         Tag 5 "tr" [] [NavigableString "third"]]]].

(** A site on which every request for [url] times out or fails to connect. *)
Definition unreachable (url : string) (w : World) : Prop :=
  forall h, match site w h (Get url) with
            | Failed e => connection_or_timeout e = true
            | Responded _ => False
            end.

(** A site that never answers. *)
Definition silent_world : World :=
  {| site := fun _ _ => Failed ReadTimeout; log := []; entropy := fun _ => 0%N;
     drawn := 0 |}.

(** The text of [url] after its last slash: [url.split('/')[-1]]. *)
Definition last_piece (url : string) : string := last (PyStr.split "/" url) "".

(** The token [derive_filename] draws in [w]. *)
Definition next_token (w : World) : string := hex 32 (uuid4_int (entropy w (drawn w))).

(** The module node while its sections are visited: its fields stay, its
    children are units tagged ["en"]. *)
Definition module_in_progress (url title : string) (s : tree_node) : Prop :=
  exists units,
    s = TopicNode url title (LangCode "en") None units /\
    Forall (fun u => language_of u = LangCode "en") units.

Definition titled (section : node) : bool :=
  match select_one_in sel_section_title section with
  | Some _ => true
  | None => false
  end.

(** [unit_node] carries the title, the link and the description of
    [section]. *)
Definition unit_of_section (section : node) (unit_node : tree_node) : Prop :=
  exists section_title link summary,
    select_one_in sel_section_title section = Some section_title /\
    select_one_in sel_a section_title = Some link /\
    select_one_in sel_summarytext section = Some summary /\
    title_of unit_node = PyStr.strip (get_text section_title) /\
    get_attr "href" (attrs_of link) = Some (source_id_of unit_node) /\
    description_of unit_node = Some (PyStr.strip (get_text summary)).

(** The document [fetch_module] reads the sections from: the module page,
    fetched again after enrolling when that was needed. *)
Definition module_document (url : string) : M document :=
  doc <- get_parsed_html_from_url url ;;
  enroll url doc.

(** [child] is the node of the language that the label of [link] names. *)
Definition language_child (getlang_by_name : string -> option Language)
    (link : node) (child : tree_node) : Prop :=
  exists language,
    getlang_by_name (language_name_of link) = Some language /\
    language_of child = LangObject language /\
    source_id_of child = lang_code language.

(** Every run of [m] only appends to the log, and appends only events that
    satisfy [P]. *)
Definition grows {A} (P : event -> Prop) (m : M A) : Prop :=
  forall w, exists evs, log (snd (m w)) = log w ++ evs /\ Forall P evs.

(** An event that is not a form submission. *)
Definition no_post (e : event) : Prop :=
  match e with Post _ _ => False | _ => True end.

(** The fields of the enrollment POST and the inputs of the form: every
    field is the name and the value of an input, and every input that
    carries a value has a field under its name. *)
Definition posted_fields (inputs : list node) (fields : list (string * string)) : Prop :=
  (forall k v, In (k, v) fields ->
     exists input, In input inputs /\
                   get_attr "name" (attrs_of input) = Some k /\
                   get_attr "value" (attrs_of input) = Some v) /\
  (forall input v, In input inputs -> get_attr "value" (attrs_of input) = Some v ->
     exists k v', get_attr "name" (attrs_of input) = Some k /\ In (k, v') fields).

(** The test of line 136: the page has a [form#mform1] whose action is the
    enrollment endpoint. *)
Definition enrollment_needed (doc : document) : bool :=
  match select_one sel_form doc with
  | Some form =>
      match get_attr "action" (attrs_of form) with
      | Some action => String.eqb action enrol_url
      | None => false
      end
  | None => false
  end.

(** The attributes of the tags of uid [u]. *)
Fixpoint attrs_at_node (u : nat) (n : node) : list (list (string * string)) :=
  match n with
  | NavigableString _ => []
  | Tag v _ a cs =>
      (if Nat.eqb v u then [a] else []) ++ flat_map (attrs_at_node u) cs
  end.

Definition attrs_at (u : nat) (doc : document) : list (list (string * string)) :=
  flat_map (attrs_at_node u) doc.

(** The uid of the element an asset reference was found on. *)
Definition asset_uid (x : nat * string * string) : nat := fst (fst x).

(** The asset references [found] sit on elements among [ids], on distinct
    ones when [ids] are distinct. *)
Definition assets_within (ids : list nat) (found : list (nat * string * string)) : Prop :=
  incl (map asset_uid found) ids /\ (NoDup ids -> NoDup (map asset_uid found)).

(** The base URL and the visit of one asset, as [download_content_node]
    sets them (lines 205-207). *)
Definition base : string := "http://migranthealth.eu/".

Definition visit : nat * string * string -> document * directory -> M (document * directory) :=
  visit_asset base make_request url_blacklist derive_filename.

(** Any event but the request for the asset [ref] points to. *)
Definition not_target (ref : string) (e : event) : Prop := e <> Get (urljoin base ref).

(** The reference of the tags of uid [u] is blank. *)
Definition blanked (u : nat) (key : string) (doc : document) : Prop :=
  Forall (fun a => get_attr key a = Some "") (attrs_at u doc).

(** Two worlds in which the site answers alike, whatever the history, and
    in which the random source will draw alike. *)
Definition same_site (w1 w2 : World) : Prop :=
  (forall h1 h2 e, site w1 h1 e = site w2 h2 e) /\
  (forall k, entropy w1 (drawn w1 + k) = entropy w2 (drawn w2 + k)).

(** [m] gives the same result in two such worlds, and leaves them so. *)
Definition agrees {A} (m : M A) : Prop :=
  forall w1 w2, same_site w1 w2 ->
    fst (m w1) = fst (m w2) /\ same_site (snd (m w1)) (snd (m w2)).

(** ** A small site

    One language, one module that asks for enrollment, two sections of
    which one has a title, one unit with one article; the article page
    carries chrome, a three-row table and four assets, two of them
    denylisted. *)

Module Site.

Definition root_url := "http://migranthealth.eu/etraining/".
Definition language_url := "http://migranthealth.eu/etraining/course/index.php?categoryid=1".
Definition module_url := "http://migranthealth.eu/etraining/course/view.php?id=3".
Definition unit_url := "http://migranthealth.eu/etraining/course/view.php?id=3&section=3".
Definition article_url := "http://migranthealth.eu/etraining/mod/page/view.php?id=75".

Definition root_page : document :=
  [Tag 1 "div" [("class", "category essentialcats")]
     [Tag 2 "a" [("href", language_url)] [NavigableString " MEET English "]]].

Definition language_page : document :=
  [Tag 1 "div" [("class", "coursename")]
     [Tag 2 "a" [("href", module_url)]
        [NavigableString "Module 1: Planning a CHE service"]]].

Definition enrol_page : document :=
  [Tag 1 "form" [("id", "mform1"); ("action", enrol_url)]
     [Tag 2 "input" [("name", "id"); ("type", "hidden"); ("value", "3")] [];
      Tag 3 "input" [("name", "sesskey"); ("type", "hidden"); ("value", "k9")] [];
      Tag 4 "input" [("name", "comment"); ("type", "text")] [];
      Tag 5 "input" [("name", "submitbutton"); ("type", "submit"); ("value", "Enrol me")] []]].

Definition module_page : document :=
  [Tag 1 "div" [("class", "course-content")]
     [Tag 2 "ul" [("class", "topics")]
        [Tag 3 "li" [("class", "section main clearfix")]
           [Tag 4 "div" [("class", "summary")] []];
         Tag 5 "li" [("class", "section main clearfix")]
           [Tag 6 "h3" [("class", "section-title")]
              [Tag 7 "a" [("href", unit_url)]
                 [NavigableString "Unit 3: Needs and Context Analysis"]];
            Tag 8 "div" [("class", "summarytext")]
              [NavigableString " How to analyse needs. "]]]]].

Definition unit_page : document :=
  [Tag 1 "div" [("class", "course-content")]
     [Tag 2 "ul" [("class", "topics")]
        [Tag 3 "li" [("class", "section main")]
           [Tag 4 "div" [("class", "content")]
              [Tag 5 "li" [("class", "activity page modtype_page")]
                 [Tag 6 "a" [("href", article_url)]
                    [Tag 7 "span" [("class", "instancename")]
                       [NavigableString "The context Section 2";
                        Tag 8 "span" [("class", "accesshide")]
                          [NavigableString " Page"]]]]]]]]].

Definition article_page : document :=
  [Tag 1 "header" [] [NavigableString "MEET"];
   Tag 2 "link" [("rel", "stylesheet");
                 ("href", "http://migranthealth.eu/etraining/theme/styles.php/clean/all")] [];
   Tag 3 "script" [("src", "http://www.google-analytics.com/analytics.js")] [];
   Tag 4 "div" [("id", "region-main")]
     [Tag 5 "div" [("class", "generalbox")]
        [Tag 6 "table" []
           [Tag 7 "tr" [] [NavigableString "one"];
            Tag 8 "tr" [] [NavigableString "two"];
            Tag 9 "tr" [] [NavigableString "three"]];
         Tag 10 "img" [("src", "/etraining/pix/Healthy%20Food.PNG")] [];
         Tag 11 "img" [("src", "/etraining/pix/pic1.jpg")] []]];
   Tag 12 "div" [("id", "page-footer")] [NavigableString "footer"]].

Definition page (status : nat) (doc : document) : reply :=
  Responded {| status_code := status; content := str doc; soup := doc |}.

Definition asset (body : string) : reply :=
  Responded {| status_code := 200; content := body; soup := [] |}.

Definition is_enrol_post (e : event) : bool :=
  match e with Post url _ => String.eqb url enrol_url | _ => false end.

(** The module page shows the enrollment form until the chef has enrolled. *)
Definition answers (history : list event) (request : event) : reply :=
  match request with
  | Get url =>
      if String.eqb url root_url then page 200 root_page
      else if String.eqb url language_url then page 200 language_page
      else if String.eqb url module_url
      then if existsb is_enrol_post history then page 200 module_page
           else page 200 enrol_page
      else if String.eqb url unit_url then page 200 unit_page
      else if String.eqb url article_url then page 200 article_page
      else if String.eqb url "http://migranthealth.eu/etraining/theme/styles.php/clean/all"
      then asset "body { margin: 0 }"
      else if String.eqb url "http://migranthealth.eu/etraining/pix/Healthy%20Food.PNG"
      then asset "PNG"
      else page 404 []
  | Post _ _ => page 200 []
  | Sleep _ => page 200 []
  end.

(** The site at the start of a crawl; the [k]-th random draw is [k]. *)
Definition start : World :=
  {| site := answers; log := []; entropy := N.of_nat; drawn := 0 |}.

(** The site as it is once the chef has enrolled: every answer is the
    same whatever happened before. *)
Definition settled_answers (history : list event) (request : event) : reply :=
  answers [Post enrol_url []] request.

Definition settled : World :=
  {| site := settled_answers; log := []; entropy := N.of_nat; drawn := 0 |}.

Definition settled_fixed : World :=
  {| site := settled_answers; log := []; entropy := fun _ => 7%N; drawn := 0 |}.

Definition english : Language :=
  {| lang_code := "en"; lang_name := "English"; lang_native_name := "English" |}.

Definition getlang_by_name (name : string) : option Language :=
  if String.eqb name "English" then Some english else None.

End Site.

(** ** The vocabulary of the further properties *)

(** The log of [k] failed attempts of [make_request]: each request is
    followed by a sleep of as many seconds as attempts were made. *)
Fixpoint retry_trace (url : string) (k : nat) : list event :=
  match k with
  | 0 => []
  | S k' => retry_trace url k' ++ [Get url; Sleep k]
  end.

(** What a reply of the session means to the caller of [sess.get]. *)
Definition outcome (answer : reply) : result Response :=
  match answer with
  | Responded r => Ok r
  | Failed e => Raise e
  end.

(** A reply that [make_request] answers with another attempt. *)
Definition retryable (answer : reply) : bool :=
  match answer with
  | Responded _ => false
  | Failed e => connection_or_timeout e
  end.

Definition is_get (e : event) : bool :=
  match e with Get _ => true | _ => false end.

(** A site that times out, then refuses the connection, then answers that
    the page is not found. *)
Definition flaky_world : World :=
  {| site := fun history _ =>
               match List.length history with
               | 0 => Failed ReadTimeout
               | 2 => Failed ConnectionError
               | _ => Responded {| status_code := 404; content := "Not Found"; soup := [] |}
               end;
     log := []; entropy := fun _ => 0%N; drawn := 0 |}.

(** [article] is the content node of the page activity [activity]: its id
    is the link of the activity, its title the first text fragment of the
    instance name, stripped and truncated. *)
Definition article_of_activity (activity : node) (article : tree_node) : Prop :=
  exists instancename title_text rest link href archive,
    select_one_in sel_instancename activity = Some instancename /\
    contents_of instancename = NavigableString title_text :: rest /\
    select_one_in sel_a activity = Some link /\
    get_attr "href" (attrs_of link) = Some href /\
    article = HTML5AppNode href (truncate_metadata (PyStr.strip title_text))
                MEET_LICENSE [archive] (LangCode "en").

(** [module_node] is the topic node of the course element [course]: its id
    is the link of the course, its title the whole text of the element. *)
Definition module_of_course (course : node) (module_node : tree_node) : Prop :=
  exists link href units,
    select_one_in sel_a course = Some link /\
    get_attr "href" (attrs_of link) = Some href /\
    module_node = TopicNode href (get_text course) (LangCode "en") None units.

(** The four levels below the channel. *)
Definition leaf_shape (n : tree_node) : Prop :=
  exists id title archive,
    n = HTML5AppNode id title MEET_LICENSE [archive] (LangCode "en") /\
    String.length title <= 194.

Definition unit_shape (n : tree_node) : Prop :=
  exists id title description articles,
    n = TopicNode id title (LangCode "en") (Some description) articles /\
    Forall leaf_shape articles.

Definition module_shape (n : tree_node) : Prop :=
  exists id title units,
    n = TopicNode id title (LangCode "en") None units /\
    Forall unit_shape units.

Definition language_shape (n : tree_node) : Prop :=
  exists language modules,
    n = TopicNode (lang_code language) (lang_native_name language)
          (LangObject language) None modules /\
    Forall module_shape modules.

(** An event that is not a form submission, unless to the enrollment
    endpoint. *)
Definition only_enrol (e : event) : Prop :=
  match e with
  | Post url _ => url = enrol_url
  | _ => True
  end.

(** An input that carries a value but no name. *)
Definition nameless_valued (input : node) : bool :=
  has_attr "value" input && negb (has_attr "name" input).

(** An enrollment form with a submit button that has no name. *)
Definition nameless_form_page : document :=
  [Tag 1 "form" [("id", "mform1"); ("action", enrol_url)]
     [Tag 2 "input" [("name", "id"); ("value", "3")] [];
      Tag 3 "input" [("type", "submit"); ("value", "Enrol me")] []]].

(** A site whose every page is that form. *)
Definition nameless_form_world : World :=
  {| site := fun _ _ =>
       Responded {| status_code := 200; content := ""; soup := nameless_form_page |};
     log := []; entropy := fun _ => 0%N; drawn := 0 |}.

(** A form in which two inputs share the name [id]. *)
Definition repeated_inputs : list node :=
  [Tag 1 "input" [("name", "id"); ("value", "3")] [];
   Tag 2 "input" [("name", "sesskey"); ("value", "k9")] [];
   Tag 3 "input" [("name", "id"); ("value", "4")] [];
   Tag 4 "input" [("name", "sesskey")] []].

(** A module page whose second section has a title without a link. *)
Definition linkless_module_page : document :=
  [Tag 1 "div" [("class", "course-content")]
     [Tag 2 "ul" [("class", "topics")]
        [Tag 3 "li" [("class", "section main")] [];
         Tag 4 "li" [("class", "section main")]
           [Tag 5 "h3" [("class", "section-title")] [NavigableString "General"];
            Tag 6 "div" [("class", "summarytext")] [NavigableString "About"]];
         Tag 7 "li" [("class", "section main")] []]]].

Definition linkless_world : World :=
  {| site := fun _ _ =>
       Responded {| status_code := 200; content := ""; soup := linkless_module_page |};
     log := []; entropy := fun _ => 0%N; drawn := 0 |}.

(** A page on which no selector of [nodes_to_remove] matches. *)
Definition plain_page : document :=
  [Tag 1 "div" [("id", "region-main")]
     [Tag 2 "h2" [] [NavigableString "The context"];
      Tag 3 "p" [("class", "lead")] [NavigableString "Needs differ."];
      Tag 4 "table" [] [Tag 5 "tr" [] []; Tag 6 "tr" [] []]]].

(** A page with a footer that holds a list of links. *)
Definition footer_page : document :=
  [Tag 1 "p" [] [NavigableString "Needs differ."];
   Tag 2 "div" [("class", "footer-rts")]
     [Tag 3 "ul" []
        [Tag 4 "li" [] [Tag 5 "a" [("href", "/etraining/")] [NavigableString "Home"]]]]].

(** [n] is a node of the forest [l], at any depth. *)
Inductive within (n : node) : list node -> Prop :=
| within_here l : In n l -> within n l
| within_below u nm a cs l : In (Tag u nm a cs) l -> within n cs -> within n l.





(** * Proofs *)

Section StringFacts.

Lemma length_append (a b : string) :
  String.length (a ++ b)%string = String.length a + String.length b.
Proof.
  induction a as [|c a IH]; simpl; [reflexivity | now rewrite IH].
Qed.

Lemma length_take (n : nat) (s : string) :
  String.length (PyStr.take n s) = Nat.min n (String.length s).
Proof.
  revert s; induction n as [|n IH]; intros [|c s]; simpl; auto.
Qed.

End StringFacts.

(** C5. A string of at most 190 characters passes through
    [truncate_metadata] unchanged; a longer one is cut to its first 190
    characters followed by [" ..."], 194 characters in all. *)
Theorem truncate_metadata_spec (s : string) :
  (String.length s <= 190 -> truncate_metadata s = s) /\
  (190 < String.length s ->
     truncate_metadata s = (PyStr.take 190 s ++ " ...")%string /\
     String.length (truncate_metadata s) = 194).
Proof.
  unfold truncate_metadata, MAX_CHARS.
  split; intros H.
  - destruct (Nat.ltb_spec 190 (String.length s)) as [L|L]; [lia | reflexivity].
  - destruct (Nat.ltb_spec 190 (String.length s)) as [L|L]; [| lia].
    split; [reflexivity |].
    rewrite length_append, length_take.
    change (String.length " ...") with 4. lia.
Qed.

Lemma truncate_metadata_spec_witness :
  truncate_metadata "Unit 3: Needs and Context Analysis"
    = "Unit 3: Needs and Context Analysis" /\
  (truncate_metadata (PyStr.times "abcdefghij" 20)
     = (PyStr.take 190 (PyStr.times "abcdefghij" 20) ++ " ...")%string /\
   String.length (truncate_metadata (PyStr.times "abcdefghij" 20)) = 194).
Proof.
  split.
  - apply (proj1 (truncate_metadata_spec _)). simpl. lia.
  - apply (proj2 (truncate_metadata_spec _)). vm_compute. lia.
Defined.

(** ** Documents: induction, selection and pruning *)

Section NodeInduction.

Variable P : node -> Prop.
Hypothesis P_string : forall s, P (NavigableString s).
Hypothesis P_tag : forall u nm a cs, Forall P cs -> P (Tag u nm a cs).

Fixpoint node_forall_ind (n : node) : P n :=
  match n with
  | NavigableString s => P_string s
  | Tag u nm a cs =>
      P_tag u nm a cs
        ((fix go (l : list node) : Forall P l :=
            match l with
            | [] => Forall_nil P
            | c :: l' => Forall_cons c (node_forall_ind c) (go l')
            end) cs)
  end.

End NodeInduction.

Lemma select_node_tag sel ancs seen u nm a cs :
  select_node sel ancs seen (Tag u nm a cs) =
  let e := {| e_name := nm; e_attrs := a; e_index := S (count_name nm seen) |} in
  (if matches sel e ancs then [Tag u nm a cs] else []) ++
  select_list sel (e :: ancs) [] cs.
Proof.
  simpl. f_equal.
  generalize (@nil string) as seen'.
  induction cs as [|c cs IH]; intros seen'; [reflexivity |].
  simpl. now rewrite IH.
Qed.

Lemma prune_node_tag doomed u nm a cs :
  prune_node doomed (Tag u nm a cs) = Tag u nm a (prune doomed cs).
Proof.
  simpl. f_equal.
  induction cs as [|c cs IH]; [reflexivity |].
  simpl. now rewrite IH.
Qed.

Lemma uids_node_tag u nm a cs :
  uids_node (Tag u nm a cs) = u :: uids cs.
Proof. reflexivity. Qed.

Lemma prune_cons doomed c l :
  prune doomed (c :: l) =
  if is_doomed doomed c then prune doomed l else prune_node doomed c :: prune doomed l.
Proof. reflexivity. Qed.

Lemma uids_cons c l : uids (c :: l) = uids_node c ++ uids l.
Proof. reflexivity. Qed.

Lemma select_list_cons sel ancs seen c l :
  select_list sel ancs seen (c :: l) =
  select_node sel ancs seen c ++ select_list sel ancs (push_seen c seen) l.
Proof. reflexivity. Qed.

Lemma is_doomed_prune_node doomed doomed' n :
  is_doomed doomed' (prune_node doomed n) = is_doomed doomed' n.
Proof. destruct n; reflexivity. Qed.

#[local] Arguments prune_node : simpl never.
#[local] Arguments select_node : simpl never.
#[local] Arguments uids_node : simpl never.
#[local] Arguments prune : simpl never.
#[local] Arguments uids : simpl never.
#[local] Arguments select_list : simpl never.

(** A property of forests follows from the same property of their trees:
    the three steps below are shared by every fact about [prune]. *)
Ltac forest_from_trees l Hl :=
  induction Hl as [| ?c ?l ?Hc _ ?IHl].

(** What survives a pruning was there before, and was not doomed. *)
Lemma uids_prune_list doomed l :
  Forall (fun n => forall u, In u (uids_node (prune_node doomed n)) ->
                             is_doomed doomed n = false ->
                             In u (uids_node n) /\ doomed u = false) l ->
  forall u, In u (uids (prune doomed l)) -> In u (uids l) /\ doomed u = false.
Proof.
  intros Hl u. forest_from_trees l Hl; intros Hu.
  - contradiction.
  - rewrite prune_cons in Hu. rewrite uids_cons, in_app_iff.
    destruct (is_doomed doomed c) eqn:Ec.
    + destruct (IHl Hu); auto.
    + rewrite uids_cons, in_app_iff in Hu. destruct Hu as [Hu | Hu].
      * destruct (Hc u Hu eq_refl); auto.
      * destruct (IHl Hu); auto.
Qed.

Lemma uids_prune_node doomed n u :
  In u (uids_node (prune_node doomed n)) ->
  is_doomed doomed n = false ->
  In u (uids_node n) /\ doomed u = false.
Proof.
  revert u. induction n as [s | v nm a cs IH] using node_forall_ind; intros u Hu Hd.
  - contradiction.
  - rewrite prune_node_tag, uids_node_tag in Hu. rewrite uids_node_tag.
    destruct Hu as [-> | Hu]; [split; [now left | exact Hd] |].
    destruct (uids_prune_list doomed cs IH u Hu). split; [now right | assumption].
Qed.

Lemma uids_prune doomed l u :
  In u (uids (prune doomed l)) -> In u (uids l) /\ doomed u = false.
Proof.
  apply uids_prune_list, Forall_forall. intros n _ v. apply uids_prune_node.
Qed.

Lemma prune_ext_list doomed doomed' l :
  (forall u, doomed u = doomed' u) ->
  Forall (fun n => prune_node doomed n = prune_node doomed' n) l ->
  prune doomed l = prune doomed' l.
Proof.
  intros E Hl. forest_from_trees l Hl; [reflexivity |].
  rewrite !prune_cons, Hc, IHl.
  destruct c; simpl; [rewrite E |]; reflexivity.
Qed.

Lemma prune_ext_node doomed doomed' n :
  (forall u, doomed u = doomed' u) -> prune_node doomed n = prune_node doomed' n.
Proof.
  intros E. induction n as [s | v nm a cs IH] using node_forall_ind; [reflexivity |].
  rewrite !prune_node_tag. f_equal. now apply prune_ext_list.
Qed.

Lemma prune_ext doomed doomed' l :
  (forall u, doomed u = doomed' u) -> prune doomed l = prune doomed' l.
Proof.
  intros E. apply prune_ext_list; [exact E |].
  apply Forall_forall. intros n _. now apply prune_ext_node.
Qed.

Lemma prune_prune_list doomed doomed' l :
  Forall (fun n => prune_node doomed' (prune_node doomed n)
                   = prune_node (fun u => doomed u || doomed' u) n) l ->
  prune doomed' (prune doomed l) = prune (fun u => doomed u || doomed' u) l.
Proof.
  intros Hl. forest_from_trees l Hl; [reflexivity |].
  rewrite (prune_cons doomed), (prune_cons (fun u => doomed u || doomed' u)).
  replace (is_doomed (fun u => doomed u || doomed' u) c)
    with (is_doomed doomed c || is_doomed doomed' c) by (destruct c; reflexivity).
  destruct (is_doomed doomed c); simpl orb; [exact IHl |].
  rewrite prune_cons, is_doomed_prune_node.
  destruct (is_doomed doomed' c); [exact IHl |].
  now rewrite Hc, IHl.
Qed.

Lemma prune_prune_node doomed doomed' n :
  prune_node doomed' (prune_node doomed n)
  = prune_node (fun u => doomed u || doomed' u) n.
Proof.
  induction n as [s | v nm a cs IH] using node_forall_ind; [reflexivity |].
  rewrite !prune_node_tag. f_equal. now apply prune_prune_list.
Qed.

Lemma prune_prune doomed doomed' l :
  prune doomed' (prune doomed l) = prune (fun u => doomed u || doomed' u) l.
Proof.
  apply prune_prune_list, Forall_forall. intros n _. apply prune_prune_node.
Qed.

Lemma prune_nothing l : prune (fun _ => false) l = l.
Proof.
  assert (Hn : forall n, prune_node (fun _ => false) n = n).
  { induction n as [s | v nm a cs IH] using node_forall_ind; [reflexivity |].
    rewrite prune_node_tag. f_equal.
    forest_from_trees cs IH; [reflexivity |].
    rewrite prune_cons, Hc, IHl. destruct c; reflexivity. }
  induction l as [|c l IH]; [reflexivity |].
  rewrite prune_cons, Hn, IH. destruct c; reflexivity.
Qed.

Lemma decompose_all targets doc :
  fold_left (fun d node => decompose node d) targets doc = prune (doomed_by targets) doc.
Proof.
  assert (G : forall done,
             fold_left (fun d node => decompose node d) targets (prune (doomed_by done) doc)
             = prune (doomed_by (done ++ targets)) doc).
  { induction targets as [|t targets IH]; intros done.
    - simpl. now rewrite app_nil_r.
    - simpl fold_left.
      assert (E : decompose t (prune (doomed_by done) doc)
                  = prune (doomed_by (done ++ [t])) doc).
      { destruct t as [v nm a cs | s]; simpl.
        - rewrite prune_prune. apply prune_ext. intros u.
          unfold doomed_by. rewrite existsb_app. simpl. now rewrite orb_false_r.
        - apply prune_ext. intros u. unfold doomed_by. rewrite existsb_app. simpl.
          now rewrite orb_false_r. }
      rewrite E, IH. now rewrite <- app_assoc. }
  specialize (G []). simpl in G. rewrite <- G.
  f_equal. symmetry. apply prune_nothing.
Qed.

(** ** Selection after pruning

    A selector without a positional test looks only at the name and the
    attributes of an element and of its ancestors; removing other nodes
    cannot make it match an element it did not match before. *)

Lemma match_compound_look c e e' :
  c_nth_of_type c = None -> same_look e e' ->
  match_compound c e = match_compound c e'.
Proof.
  intros Hc [Hn Ha]. unfold match_compound. now rewrite Hc, Hn, Ha.
Qed.

Lemma matches_ancestors_look cs ancs ancs' :
  position_free cs = true -> Forall2 same_look ancs ancs' ->
  matches_ancestors cs ancs = matches_ancestors cs ancs'.
Proof.
  revert ancs ancs'. induction cs as [|c cs IH]; intros ancs ancs' Hf Hl.
  - reflexivity.
  - simpl in Hf. apply andb_true_iff in Hf as [Hc Hf].
    destruct (c_nth_of_type c) eqn:Ec; [discriminate |].
    induction Hl as [|a a' l l' Ha Hl IHl]; [reflexivity |].
    simpl in *. rewrite IHl.
    now rewrite (match_compound_look c a a' Ec Ha), (IH l l' Hf Hl).
Qed.

Lemma position_free_rev sel : position_free (rev sel) = position_free sel.
Proof.
  unfold position_free.
  apply eq_true_iff_eq. rewrite !forallb_forall.
  split; intros H c Hc; apply H; [rewrite <- in_rev | rewrite in_rev]; exact Hc.
Qed.

Lemma matches_look sel e e' ancs ancs' :
  position_free sel = true -> same_look e e' -> Forall2 same_look ancs ancs' ->
  matches sel e ancs = matches sel e' ancs'.
Proof.
  intros Hf He Hl. unfold matches.
  rewrite <- position_free_rev in Hf.
  destruct (rev sel) as [|c cs]; [reflexivity |].
  simpl in Hf. apply andb_true_iff in Hf as [Hc Hf].
  destruct (c_nth_of_type c) eqn:Ec; [discriminate |].
  now rewrite (match_compound_look c e e' Ec He), (matches_ancestors_look cs ancs ancs' Hf Hl).
Qed.

Section SelectPrune.

Variable sel : selector.
Variable doomed : nat -> bool.
Hypothesis sel_free : position_free sel = true.

Lemma select_prune_list l :
  Forall (fun c => forall ancs ancs' seen seen',
            Forall2 same_look ancs ancs' -> is_doomed doomed c = false ->
            forall n', In n' (select_node sel ancs' seen' (prune_node doomed c)) ->
                       traced doomed (select_node sel ancs seen c) n') l ->
  forall ancs ancs' seen seen',
    Forall2 same_look ancs ancs' ->
    forall n', In n' (select_list sel ancs' seen' (prune doomed l)) ->
               traced doomed (select_list sel ancs seen l) n'.
Proof.
  intros Hl. forest_from_trees l Hl; intros ancs ancs' seen seen' Ha n' Hn'.
  - contradiction.
  - assert (Htail : forall seen1 seen2,
               In n' (select_list sel ancs' seen1 (prune doomed l)) ->
               traced doomed (select_list sel ancs seen2 (c :: l)) n').
    { intros seen1 seen2 H.
      destruct (IHl ancs ancs' (push_seen c seen2) seen1 Ha n' H) as (n & v & Hin & Hu).
      exists n, v. split; [| exact Hu].
      rewrite select_list_cons, in_app_iff. now right. }
    rewrite prune_cons in Hn'.
    destruct (is_doomed doomed c) eqn:Ec; [now apply (Htail seen') |].
    rewrite select_list_cons, in_app_iff in Hn'.
    destruct Hn' as [Hn' | Hn']; [| now apply (Htail (push_seen (prune_node doomed c) seen'))].
    destruct (Hc ancs ancs' seen seen' Ha eq_refl n' Hn') as (n & v & Hin & Hu).
    exists n, v. split; [| exact Hu].
    rewrite select_list_cons, in_app_iff. now left.
Qed.

Lemma select_prune_node c :
  forall ancs ancs' seen seen',
    Forall2 same_look ancs ancs' -> is_doomed doomed c = false ->
    forall n', In n' (select_node sel ancs' seen' (prune_node doomed c)) ->
               traced doomed (select_node sel ancs seen c) n'.
Proof.
  induction c as [s | v nm a cs IH] using node_forall_ind;
    intros ancs ancs' seen seen' Ha Hd n' Hn'.
  - contradiction.
  - rewrite prune_node_tag, select_node_tag in Hn'. cbv zeta in Hn'.
    rewrite select_node_tag. cbv zeta.
    set (e := {| e_name := nm; e_attrs := a; e_index := S (count_name nm seen) |}) in *.
    set (e' := {| e_name := nm; e_attrs := a; e_index := S (count_name nm seen') |}) in *.
    assert (He : same_look e e') by (split; reflexivity).
    rewrite in_app_iff in Hn'. destruct Hn' as [Hn' | Hn'].
    + rewrite <- (matches_look sel e e' ancs ancs' sel_free He Ha) in Hn'.
      destruct (matches sel e ancs); [| contradiction].
      destruct Hn' as [<- | []].
      exists (Tag v nm a cs), v. repeat split; [now left | exact Hd].
    + assert (Ha' : Forall2 same_look (e :: ancs) (e' :: ancs')) by now constructor.
      destruct (select_prune_list cs IH (e :: ancs) (e' :: ancs') [] [] Ha' n' Hn')
        as (n & w & Hin & Hu).
      exists n, w. split; [| exact Hu].
      rewrite in_app_iff. now right.
Qed.

Lemma select_prune doc n' :
  In n' (select sel (prune doomed doc)) -> traced doomed (select sel doc) n'.
Proof.
  unfold select. apply select_prune_list; [| constructor].
  apply Forall_forall. intros c _. apply select_prune_node.
Qed.

Lemma select_prune_empty doc :
  select sel doc = [] -> select sel (prune doomed doc) = [].
Proof.
  intros E. destruct (select sel (prune doomed doc)) as [|n' rest] eqn:E'; [reflexivity |].
  destruct (select_prune doc n') as (n & v & Hin & _); [rewrite E'; now left |].
  rewrite E in Hin. contradiction.
Qed.

End SelectPrune.

Lemma doomed_by_selected targets n u :
  In n targets -> uid_of n = Some u -> doomed_by targets u = true.
Proof.
  intros Hin Hu. unfold doomed_by. apply existsb_exists.
  exists n. split; [exact Hin |]. rewrite Hu. apply Nat.eqb_refl.
Qed.

Lemma remove_selected_prune doc sel :
  remove_selected doc sel = prune (doomed_by (select sel doc)) doc.
Proof. apply decompose_all. Qed.

(** One pass of the loop leaves nothing that a position-free selector
    matches ... *)
Lemma select_after_remove sel doc :
  position_free sel = true -> select sel (remove_selected doc sel) = [].
Proof.
  intros Hf. rewrite remove_selected_prune.
  destruct (select sel (prune _ doc)) as [|n' rest] eqn:E'; [reflexivity |].
  destruct (select_prune sel (doomed_by (select sel doc)) Hf doc n')
    as (n & v & Hin & Hu & _ & Hd); [rewrite E'; now left |].
  rewrite (doomed_by_selected _ n v Hin Hu) in Hd. discriminate.
Qed.

(** ... and the later passes cannot bring a match back. *)
Lemma select_stays_empty sel sels doc :
  position_free sel = true -> select sel doc = [] -> select sel (remove_all sels doc) = [].
Proof.
  intros Hf. revert doc. induction sels as [|s sels IH]; intros doc E; [exact E |].
  simpl. apply IH. rewrite remove_selected_prune. now apply select_prune_empty.
Qed.

Lemma remove_all_app pre post doc :
  remove_all (pre ++ post) doc = remove_all post (remove_all pre doc).
Proof. apply fold_left_app. Qed.

Lemma uids_remove_all sels doc u :
  In u (uids (remove_all sels doc)) -> In u (uids doc).
Proof.
  revert doc. induction sels as [|s sels IH]; intros doc H; [exact H |].
  simpl in H. apply IH in H. rewrite remove_selected_prune in H.
  now apply uids_prune in H.
Qed.

(** Every element a selector matched when it ran has left the document. *)
Lemma selected_is_gone pre sel post doc n u :
  In n (select sel (remove_all pre doc)) -> uid_of n = Some u ->
  ~ In u (uids (remove_all (pre ++ sel :: post) doc)).
Proof.
  intros Hin Hu H.
  rewrite remove_all_app in H. simpl in H.
  apply uids_remove_all in H. rewrite remove_selected_prune in H.
  apply uids_prune in H as [_ Hd].
  rewrite (doomed_by_selected _ n u Hin Hu) in Hd. discriminate.
Qed.

(** C1, as stated, fails: after the second row has been removed the third
    row is the second of its table, and the last selector matches it in
    the sanitized document. *)
Lemma sanitize_leaves_a_match :
  sanitize three_row_page =
    [Tag 1 "div" [("class", "generalbox")]
       [Tag 2 "table" []
          [Tag 3 "tr" [] [NavigableString "first"];
           Tag 5 "tr" [] [NavigableString "third"]]]] /\
  In generalbox_second_row nodes_to_remove /\
  select generalbox_second_row (sanitize three_row_page)
    = [Tag 5 "tr" [] [NavigableString "third"]].
Proof.
  split; [vm_compute; reflexivity |].
  split; [unfold nodes_to_remove; simpl; tauto | vm_compute; reflexivity].
Qed.

(** C1, amended.  The sanitized document contains no element matching any
    of the thirteen selectors that carry no positional test, and none of
    the elements a selector matched at the time it ran: in particular no row
    that was the second of its table when the last selector ran. *)
Theorem sanitize_removes (doc : document) :
  (forall sel, In sel nodes_to_remove -> sel <> generalbox_second_row ->
               select sel (sanitize doc) = []) /\
  (forall pre sel post n u,
      nodes_to_remove = pre ++ sel :: post ->
      In n (select sel (remove_all pre doc)) -> uid_of n = Some u ->
      ~ In u (uids (sanitize doc))).
Proof.
  split.
  - intros sel Hin Hneq. unfold sanitize.
    destruct (in_split _ _ Hin) as (pre & post & E).
    assert (Hf : position_free sel = true).
    { unfold nodes_to_remove in Hin. simpl in Hin.
      repeat (destruct Hin as [<- | Hin]; [first [reflexivity | now elim Hneq] |]).
      contradiction. }
    rewrite E, remove_all_app. simpl.
    apply select_stays_empty; [exact Hf |].
    now apply select_after_remove.
  - intros pre sel post n u E Hin Hu. unfold sanitize. rewrite E.
    now apply selected_is_gone with (n := n).
Qed.

Lemma sanitize_removes_witness :
  select [by_tag "header"] (sanitize Site.article_page) = [] /\
  ~ In 8 (uids (sanitize Site.article_page)).
Proof.
  split.
  - apply (proj1 (sanitize_removes Site.article_page)).
    + unfold nodes_to_remove. simpl. tauto.
    + discriminate.
  - apply (proj2 (sanitize_removes Site.article_page)
             (firstn 13 nodes_to_remove) generalbox_second_row []
             (Tag 8 "tr" [] [NavigableString "two"]) 8).
    + reflexivity.
    + vm_compute. tauto.
    + reflexivity.
Defined.

(** ** make_request *)

Lemma log_record e w : log (record e w) = log w ++ [e].
Proof. reflexivity. Qed.

(** One failed attempt: the request, the sleep, then either the way out of
    the loop or the next attempt. *)
Lemma make_request_loop_failed fuel url retry_count w e :
  site w (log w) (Get url) = Failed e -> connection_or_timeout e = true ->
  make_request_loop (S fuel) url retry_count w =
  (if (max_retries <=? retry_count + 1)%nat
   then load_global "Dummy404ResponseObject" ;;; ret (Dummy404ResponseObject url)
   else make_request_loop fuel url (retry_count + 1))
    (record (Sleep (retry_count + 1)) (record (Get url) w)).
Proof.
  intros Hs He. simpl. unfold try_except, sess_get. rewrite Hs, He.
  unfold bind at 1. unfold sleep. now rewrite Nat.mul_1_r.
Qed.

Lemma make_request_loop_answered fuel url retry_count w r :
  site w (log w) (Get url) = Responded r ->
  make_request_loop (S fuel) url retry_count w = (Ok r, record (Get url) w).
Proof.
  intros Hs. simpl. unfold try_except, sess_get. now rewrite Hs.
Qed.

(** The loop never runs out of fuel: from [max_retries - retry_count] on,
    more fuel changes nothing. *)
Lemma make_request_fuel fuel url retry_count w :
  0 < fuel -> max_retries - retry_count <= fuel ->
  make_request_loop (S fuel) url retry_count w = make_request_loop fuel url retry_count w.
Proof.
  revert retry_count w. induction fuel as [|fuel IH]; intros rc w Hpos Hle; [lia |].
  destruct (site w (log w) (Get url)) as [r | e] eqn:Hs.
  - now rewrite !(make_request_loop_answered _ _ _ _ r Hs).
  - destruct (connection_or_timeout e) eqn:He.
    + rewrite !(make_request_loop_failed _ _ _ _ e Hs He).
      destruct (Nat.leb_spec max_retries (rc + 1)) as [L | L]; [reflexivity |].
      apply IH; unfold max_retries in *; lia.
    + simpl. unfold try_except, sess_get. now rewrite Hs, He.
Qed.

(** Any fuel from [max_retries] on gives the run of [make_request]. *)
Lemma make_request_any_fuel fuel url w :
  max_retries <= fuel -> make_request_loop fuel url 0 w = make_request url w.
Proof.
  intros H. induction H as [|fuel H IH]; [reflexivity |].
  rewrite make_request_fuel; [exact IH | |]; unfold max_retries in *; lia.
Qed.

(** C3 (the code departs from it).  When every attempt fails, [make_request]
    makes five attempts and sleeps 1, 2, 3, 4 and 5 seconds after them; it
    then evaluates the name [Dummy404ResponseObject], which chef.py never
    binds, and raises [NameError] where the sentinel response was meant to
    be returned. *)
Theorem make_request_exhausted (url : string) (w : World) :
  unreachable url w ->
  exists w',
    make_request url w = (Raise (NameError "Dummy404ResponseObject"), w') /\
    log w' = log w ++ [Get url; Sleep 1; Get url; Sleep 2; Get url; Sleep 3;
                       Get url; Sleep 4; Get url; Sleep 5].
Proof.
  intros H. unfold make_request, max_retries.
  assert (step : forall fuel rc w0, site w0 = site w ->
            make_request_loop (S fuel) url rc w0 =
            (if (5 <=? rc + 1)%nat
             then load_global "Dummy404ResponseObject" ;;; ret (Dummy404ResponseObject url)
             else make_request_loop fuel url (rc + 1))
              (record (Sleep (rc + 1)) (record (Get url) w0))).
  { intros fuel rc w0 E. specialize (H (log w0)). rewrite <- E in H.
    destruct (site w0 (log w0) (Get url)) as [r | e] eqn:Hs; [contradiction |].
    exact (make_request_loop_failed fuel url rc w0 e Hs H). }
  rewrite step by reflexivity; cbn [Nat.leb Nat.add].
  rewrite step by reflexivity; cbn [Nat.leb Nat.add].
  rewrite step by reflexivity; cbn [Nat.leb Nat.add].
  rewrite step by reflexivity; cbn [Nat.leb Nat.add].
  rewrite step by reflexivity; cbn [Nat.leb Nat.add].
  eexists. split; [reflexivity |].
  simpl. repeat rewrite <- app_assoc. reflexivity.
Qed.

Lemma make_request_exhausted_witness :
  exists w',
    make_request "http://migranthealth.eu/etraining/" silent_world
      = (Raise (NameError "Dummy404ResponseObject"), w') /\
    log w' = log silent_world ++
      [Get "http://migranthealth.eu/etraining/"; Sleep 1;
       Get "http://migranthealth.eu/etraining/"; Sleep 2;
       Get "http://migranthealth.eu/etraining/"; Sleep 3;
       Get "http://migranthealth.eu/etraining/"; Sleep 4;
       Get "http://migranthealth.eu/etraining/"; Sleep 5].
Proof.
  apply (make_request_exhausted "http://migranthealth.eu/etraining/" silent_world).
  intros h. reflexivity.
Defined.

(** ** derive_filename *)

Lemma lower_append (a b : string) :
  PyStr.lower (a ++ b)%string = (PyStr.lower a ++ PyStr.lower b)%string.
Proof.
  induction a as [|c a IH]; simpl; [reflexivity | now rewrite IH].
Qed.

Lemma lower_hex_digit (n : N) :
  PyStr.lower_char (hex_digit (N.land n 15)) = hex_digit (N.land n 15).
Proof.
  assert (H : (N.land n 15 < 16)%N).
  { change 15%N with (N.ones 4). rewrite N.land_ones. now apply N.mod_lt. }
  remember (N.land n 15) as d eqn:E. clear E n.
  assert (D : In d [0; 1; 2; 3; 4; 5; 6; 7; 8; 9; 10; 11; 12; 13; 14; 15]%N).
  { destruct d as [|p]; [now left |].
    do 16 (try (destruct p as [p | p |]; try lia)); simpl; tauto. }
  simpl in D.
  repeat (destruct D as [<- | D]; [reflexivity |]). contradiction.
Qed.

(** A token is in lower case already. *)
Lemma lower_hex (k : nat) (n : N) : PyStr.lower (hex k n) = hex k n.
Proof.
  revert n. induction k as [|k IH]; intros n; [reflexivity |].
  change (hex (S k) n)
    with (hex k (N.shiftr n 4) ++ String (hex_digit (N.land n 15)) EmptyString)%string.
  rewrite lower_append, IH.
  change (PyStr.lower (String (hex_digit (N.land n 15)) EmptyString))
    with (String (PyStr.lower_char (hex_digit (N.land n 15))) EmptyString).
  now rewrite lower_hex_digit.
Qed.

(** [urlparse(url).path] on a few URLs: the query and the fragment are cut
    off; a scheme needs no more than a letter first; parameters go with a
    scheme that uses them; brackets must enclose an IPv6 address. *)
Example urlparse_path_examples :
  urlparse_path "http://migranthealth.eu/a/b.css?rev=1#top" = Ok "/a/b.css" /\
  urlparse_path "abc:80" = Ok "80" /\
  urlparse_path "http://[::1]:8080/a.png;v=1" = Ok "/a.png" /\
  urlparse_path "http://[::1/a.png" = Raise ValueError /\
  urlparse_path "http://[1.2.3.4]/a.png" = Raise ValueError.
Proof. repeat split; vm_compute; reflexivity. Qed.

(** [urlparse] raises nothing but [ValueError]. *)
Lemma urlparse_path_raises (url : string) (e : exn) :
  urlparse_path url = Raise e -> e = ValueError.
Proof.
  unfold urlparse_path, urlsplit.
  destruct (split_scheme _) as [scheme rest].
  destruct (prefix "//" rest);
    repeat match goal with
           | |- context [if ?c then _ else _] => destruct c
           end;
    intros H; try discriminate; now inversion H.
Qed.

(** C6, as stated, fails: the path of this URL ends in the segment [all],
    yet the name is not [all.css], because the test looks at the text after
    the last slash of the whole URL, query string included. *)
Lemma derive_filename_all_with_query :
  urlparse_path "http://migranthealth.eu/etraining/theme/styles.php/all?rev=1"
    = Ok "/etraining/theme/styles.php/all" /\
  last_piece "/etraining/theme/styles.php/all" = "all" /\
  fst (derive_filename "http://migranthealth.eu/etraining/theme/styles.php/all?rev=1"
         silent_world)
    = Ok "00000000000040008000000000000000.all".
Proof. repeat split; vm_compute; reflexivity. Qed.

(** C6, amended.  [derive_filename] returns exactly [all.css], drawing no
    token, when the text after the last slash of the URL is [all].
    Otherwise, when [urlparse] gives a path, it returns a fresh token, a
    dot, and the lower-cased basename of that path with [%] replaced by
    [_]; when [urlparse] rejects the URL, it raises the [ValueError] of
    [urlparse] and draws no token.  With the same token drawn, the same URL
    yields the same name. *)
Theorem derive_filename_spec (url : string) (w : World) :
  (last_piece url = "all" -> derive_filename url w = (Ok "all.css", w)) /\
  (last_piece url <> "all" ->
     forall path, urlparse_path url = Ok path ->
     fst (derive_filename url w) =
     Ok (next_token w ++ "." ++
         PyStr.lower (PyStr.replace "%" "_" (basename path)))%string) /\
  (last_piece url <> "all" ->
     forall e, urlparse_path url = Raise e ->
     e = ValueError /\ derive_filename url w = (Raise ValueError, w)) /\
  (forall w', next_token w' = next_token w ->
     fst (derive_filename url w') = fst (derive_filename url w)).
Proof.
  unfold derive_filename, last_piece, next_token.
  destruct (String.eqb_spec (last (PyStr.split "/" url) "") "all") as [E | E].
  - split; [intros _; reflexivity |].
    split; [intros H; now elim H |].
    split; [intros H; now elim H | intros w' _; reflexivity].
  - split; [intros H; now elim E |].
    split; [| split].
    + intros _ path P. rewrite P.
      cbv beta iota delta [bind lift uuid4_hex ret fst].
      now rewrite lower_append, lower_hex.
    + intros _ e P. pose proof (urlparse_path_raises _ _ P) as ->.
      split; [reflexivity |]. now rewrite P.
    + intros w' H. destruct (urlparse_path url) as [path | e].
      * cbv beta iota delta [bind lift uuid4_hex ret fst]. now rewrite H.
      * reflexivity.
Qed.

Lemma derive_filename_spec_witness :
  derive_filename "http://migranthealth.eu/etraining/theme/styles.php/clean/all"
    silent_world = (Ok "all.css", silent_world) /\
  fst (derive_filename "http://migranthealth.eu/etraining/pix/Healthy%20Food.PNG"
         silent_world)
    = Ok (next_token silent_world ++ "." ++
          PyStr.lower (PyStr.replace "%" "_"
            (basename "/etraining/pix/Healthy%20Food.PNG")))%string /\
  (ValueError = ValueError /\
   derive_filename "http://[::1/a.png" silent_world = (Raise ValueError, silent_world)).
Proof.
  split; [| split].
  - apply (proj1 (derive_filename_spec _ silent_world)). vm_compute. reflexivity.
  - apply (proj1 (proj2 (derive_filename_spec _ silent_world))).
    + vm_compute. discriminate.
    + vm_compute. reflexivity.
  - apply (proj1 (proj2 (proj2 (derive_filename_spec "http://[::1/a.png" silent_world)))).
    + vm_compute. discriminate.
    + vm_compute. reflexivity.
Defined.

(** ** Reasoning about runs *)

Lemma bind_ok {A B} (m : M A) (k : A -> M B) w b w' :
  bind m k w = (Ok b, w') ->
  exists a w1, m w = (Ok a, w1) /\ k a w1 = (Ok b, w').
Proof.
  unfold bind. destruct (m w) as [[a | e] w1]; intros H; [| discriminate].
  now exists a, w1.
Qed.

Lemma bind_step {A B} (m : M A) (k : A -> M B) w a w1 :
  m w = (Ok a, w1) -> bind m k w = k a w1.
Proof. intros H. unfold bind. now rewrite H. Qed.

Lemma ret_ok {A} (a b : A) w w' : ret a w = (Ok b, w') -> a = b /\ w = w'.
Proof. unfold ret. intros H. now inversion H. Qed.

Lemma item_ok tag key w v w' :
  item tag key w = (Ok v, w') ->
  exists t, tag = Some t /\ get_attr key (attrs_of t) = Some v /\ w' = w.
Proof.
  unfold item. destruct tag as [t |]; [| discriminate].
  destruct (get_attr key (attrs_of t)) as [x |] eqn:G; [| discriminate].
  intros H. apply ret_ok in H as [-> ->]. now exists t.
Qed.

Lemma text_of_ok tag w v w' :
  text_of tag w = (Ok v, w') -> exists t, tag = Some t /\ v = get_text t /\ w' = w.
Proof.
  unfold text_of. destruct tag as [t |]; [| discriminate].
  intros H. apply ret_ok in H as [<- ->]. now exists t.
Qed.

(** Splitting a run of successive statements. *)
Tactic Notation "run_ok" hyp(H) "as" ident(a) ident(w) ident(E) :=
  apply bind_ok in H as (a & w & E & H).

Lemma for_each_app {A S} (xs ys : list A) (body : A -> S -> M S) s w :
  for_each (xs ++ ys) body s w =
  (s' <- for_each xs body s ;; for_each ys body s') w.
Proof.
  revert s w. induction xs as [|x xs IH]; intros s w; [reflexivity |].
  simpl. destruct (body x s w) as [[s1 | e] w1] eqn:E; unfold bind; rewrite E.
  - rewrite IH. reflexivity.
  - reflexivity.
Qed.

(** What every turn of a loop keeps, the loop keeps. *)
Lemma for_each_keeps {A S} (I : S -> Prop) (xs : list A) (body : A -> S -> M S) :
  (forall x s w s' w', I s -> body x s w = (Ok s', w') -> I s') ->
  forall s w s' w', I s -> for_each xs body s w = (Ok s', w') -> I s'.
Proof.
  intros Hbody. induction xs as [|x xs IH]; intros s w s' w' Hs H.
  - apply ret_ok in H as [<- _]. exact Hs.
  - simpl in H. run_ok H as s1 w1 E. eapply IH; [| exact H]. eapply Hbody; eassumption.
Qed.

(** ** The nodes of the walker *)

Lemma fetch_unit_fields url title description w node w' :
  fetch_unit url title description w = (Ok node, w') ->
  exists articles,
    node = TopicNode url title (LangCode "en") (Some description) articles.
Proof.
  unfold fetch_unit. intros H. run_ok H as doc w0 E0.
  eapply (for_each_keeps
            (fun s => exists articles,
                        s = TopicNode url title (LangCode "en") (Some description) articles));
    [| | exact H].
  - clear. intros unit s wa s' wb (articles & ->) H.
    run_ok H as article_title w1 E1. run_ok H as article_url w2 E2.
    run_ok H as article w3 E3. apply ret_ok in H as [<- _].
    now exists (articles ++ [article]).
  - now exists [].
Qed.

Lemma fetch_section_keeps url title section s w s' w' :
  module_in_progress url title s ->
  fetch_section section s w = (Ok s', w') ->
  module_in_progress url title s'.
Proof.
  intros (units & -> & Hu) H. unfold fetch_section in H.
  destruct (select_one_in sel_section_title section) as [section_title |].
  - run_ok H as unit_url w1 E1. run_ok H as summary w2 E2. run_ok H as unit_node w3 E3.
    apply ret_ok in H as [<- _].
    apply fetch_unit_fields in E3 as (articles & ->).
    exists (units ++ [TopicNode unit_url (PyStr.strip (get_text section_title))
                        (LangCode "en") (Some (PyStr.strip summary)) articles]).
    split; [reflexivity |]. apply Forall_app. split; [exact Hu | now constructor].
  - apply ret_ok in H as [<- _]. now exists units.
Qed.

Lemma fetch_module_fields url title w node w' :
  fetch_module url title w = (Ok node, w') -> module_in_progress url title node.
Proof.
  unfold fetch_module. intros H. run_ok H as doc0 w0 E0. run_ok H as doc w1 E1.
  eapply (for_each_keeps (module_in_progress url title)); [| | exact H].
  - intros section s wa s' wb. apply fetch_section_keeps.
  - exists []. split; [reflexivity | constructor].
Qed.

(** C10. The node of a language carries that language; every module node
    below it and every unit node below a module is tagged ["en"], whatever
    the language of the branch. *)
Theorem language_tags (url : string) (language : Language) (w : World)
    (node : tree_node) (w' : World) :
  fetch_language url (Some language) w = (Ok node, w') ->
  language_of node = LangObject language /\
  Forall (fun module_node =>
            language_of module_node = LangCode "en" /\
            Forall (fun unit_node => language_of unit_node = LangCode "en")
                   (children_of module_node))
         (children_of node).
Proof.
  unfold fetch_language. intros H. run_ok H as doc w0 E0.
  set (I := fun s : tree_node =>
              exists modules,
                s = TopicNode (lang_code language) (lang_native_name language)
                      (LangObject language) None modules /\
                Forall (fun m => language_of m = LangCode "en" /\
                                 Forall (fun u => language_of u = LangCode "en")
                                        (children_of m)) modules).
  assert (HI : I node).
  { eapply (for_each_keeps I); [| | exact H].
    - clear. intros course s wa s' wb (modules & -> & Hm) H.
      run_ok H as module_url w1 E1. run_ok H as module_node w2 E2.
      apply ret_ok in H as [<- _].
      apply fetch_module_fields in E2 as (units & -> & Hu).
      eexists. split; [reflexivity |].
      apply Forall_app. split; [exact Hm |]. constructor; [| constructor].
      split; [reflexivity | exact Hu].
    - exists []. split; [reflexivity | constructor]. }
  destruct HI as (modules & -> & Hm). split; [reflexivity | exact Hm].
Qed.

Lemma language_tags_witness :
  exists node,
    fst (fetch_language Site.language_url (Some Site.english) Site.start) = Ok node /\
    language_of node = LangObject Site.english /\
    Forall (fun module_node =>
              language_of module_node = LangCode "en" /\
              Forall (fun unit_node => language_of unit_node = LangCode "en")
                     (children_of module_node))
           (children_of node).
Proof.
  eexists. split; [vm_compute; reflexivity |].
  eapply (language_tags Site.language_url Site.english Site.start).
  vm_compute. reflexivity.
Defined.

(** ** The sections of a module *)

Lemma fetch_section_untitled section s w :
  titled section = false -> fetch_section section s w = (Ok s, w).
Proof.
  unfold titled, fetch_section.
  destruct (select_one_in sel_section_title section); [discriminate | reflexivity].
Qed.

Lemma fetch_section_titled section i t l d cs w s' w' :
  titled section = true ->
  fetch_section section (TopicNode i t l d cs) w = (Ok s', w') ->
  exists unit_node,
    s' = TopicNode i t l d (cs ++ [unit_node]) /\ unit_of_section section unit_node.
Proof.
  unfold titled, fetch_section.
  destruct (select_one_in sel_section_title section) as [section_title |] eqn:T;
    [intros _ H | discriminate].
  run_ok H as unit_url w1 E1. run_ok H as summary w2 E2. run_ok H as unit_node w3 E3.
  apply ret_ok in H as [<- _].
  apply item_ok in E1 as (link & L & Hhref & _).
  apply text_of_ok in E2 as (summary_tag & Sm & -> & _).
  apply fetch_unit_fields in E3 as (articles & ->).
  eexists. split; [reflexivity |].
  exists section_title, link, summary_tag. repeat split; assumption.
Qed.

Lemma fetch_sections_units sections :
  forall i t l d cs w s' w',
    for_each sections fetch_section (TopicNode i t l d cs) w = (Ok s', w') ->
    exists units,
      s' = TopicNode i t l d (cs ++ units) /\
      Forall2 unit_of_section (filter titled sections) units.
Proof.
  induction sections as [|section sections IH]; intros i t l d cs w s' w' H.
  - apply ret_ok in H as [<- _]. exists []. split; [now rewrite app_nil_r | constructor].
  - simpl in H. run_ok H as s1 w1 E1. simpl filter.
    destruct (titled section) eqn:T.
    + apply (fetch_section_titled _ _ _ _ _ _ _ _ _ T) in E1 as (unit_node & -> & Hu).
      apply IH in H as (units & -> & Hus).
      exists (unit_node :: units). split; [now rewrite <- app_assoc | now constructor].
    + rewrite (fetch_section_untitled _ _ _ T) in E1. inversion E1; subst s1 w1.
      now apply IH in H.
Qed.

(** C7. The module node gets exactly one unit node per section that has a
    title element, in document order, carrying the title, the link and the
    description of that section; a section without a title element adds no
    node and raises nothing: it leaves the module node and the world as
    they are. *)
Theorem fetch_module_units (url title : string) (w : World)
    (node : tree_node) (w' : World) :
  fetch_module url title w = (Ok node, w') ->
  exists doc w1,
    module_document url w = (Ok doc, w1) /\
    Forall2 unit_of_section (filter titled (select sel_sections doc)) (children_of node) /\
    (forall section s w2,
        In section (select sel_sections doc) -> titled section = false ->
        fetch_section section s w2 = (Ok s, w2)).
Proof.
  unfold fetch_module. intros H.
  run_ok H as doc0 w0 E0. run_ok H as doc w1 E1.
  exists doc, w1. split; [| split].
  - unfold module_document. now rewrite (bind_step _ _ _ _ _ E0).
  - apply fetch_sections_units in H as (units & -> & Hu). exact Hu.
  - intros section s w2 _. apply fetch_section_untitled.
Qed.

Lemma fetch_module_units_witness :
  exists node,
    fst (fetch_module Site.module_url "Module 1: Planning a CHE service" Site.start)
      = Ok node /\
    exists doc w1,
      module_document Site.module_url Site.start = (Ok doc, w1) /\
      Forall2 unit_of_section (filter titled (select sel_sections doc))
              (children_of node) /\
      (forall section s w2,
          In section (select sel_sections doc) -> titled section = false ->
          fetch_section section s w2 = (Ok s, w2)).
Proof.
  eexists. split; [vm_compute; reflexivity |].
  eapply (fetch_module_units Site.module_url "Module 1: Planning a CHE service" Site.start).
  vm_compute. reflexivity.
Defined.

(** The module page of the small site has two sections; only the titled
    one becomes a unit. *)
Example two_sections_one_unit :
  List.length (select sel_sections Site.module_page) = 2 /\
  exists articles,
    fst (fetch_module Site.module_url "Module 1: Planning a CHE service" Site.start)
    = Ok (TopicNode Site.module_url "Module 1: Planning a CHE service" (LangCode "en") None
            [TopicNode Site.unit_url "Unit 3: Needs and Context Analysis" (LangCode "en")
               (Some "How to analyse needs.") articles]).
Proof.
  split; [reflexivity |]. eexists. vm_compute. reflexivity.
Qed.

(** ** The languages of the channel *)

Lemma fetch_language_fields url language w node w' :
  fetch_language url language w = (Ok node, w') ->
  exists l modules,
    language = Some l /\
    node = TopicNode (lang_code l) (lang_native_name l) (LangObject l) None modules.
Proof.
  unfold fetch_language. destruct language as [l |]; [| discriminate].
  intros H. run_ok H as doc w0 E0.
  exists l.
  assert (HI : exists modules,
             node = TopicNode (lang_code l) (lang_native_name l) (LangObject l) None modules).
  { eapply (for_each_keeps
              (fun s => exists modules,
                          s = TopicNode (lang_code l) (lang_native_name l)
                                (LangObject l) None modules)); [| | exact H].
    - clear. intros course s wa s' wb (modules & ->) H.
      run_ok H as module_url w1 E1. run_ok H as module_node w2 E2.
      apply ret_ok in H as [<- _]. now eexists.
    - now exists []. }
  destruct HI as (modules & ->). now exists modules.
Qed.

Lemma fetch_language_links getlang_by_name links :
  forall d i t th de l cs w s' w',
    for_each links (fetch_language_link getlang_by_name)
      (ChannelNode d i t th de l cs) w = (Ok s', w') ->
    exists nodes,
      s' = ChannelNode d i t th de l (cs ++ nodes) /\
      Forall2 (language_child getlang_by_name) links nodes.
Proof.
  induction links as [|link links IH]; intros d i t th de l cs w s' w' H.
  - apply ret_ok in H as [<- _]. exists []. split; [now rewrite app_nil_r | constructor].
  - simpl in H. run_ok H as s1 w1 E1.
    unfold fetch_language_link in E1.
    run_ok E1 as url w2 E2. run_ok E1 as language_node w3 E3.
    apply ret_ok in E1 as [<- _].
    apply fetch_language_fields in E3 as (language & modules & Hl & ->).
    apply IH in H as (nodes & -> & Hn).
    eexists (_ :: nodes). split; [now rewrite <- app_assoc |].
    constructor; [| exact Hn]. now exists language.
Qed.

(** C8. The name looked up for a language link is its stripped label
    without the prefix ["MEET "].  A link whose name resolves to no
    language makes [fetch_all_languages] raise: at that link,
    [AttributeError], once the links before it have been handled; and
    whenever the crawl of the languages returns, every link has been
    resolved and has its node in the channel, in order. *)
Theorem unknown_language_is_fatal (getlang_by_name : string -> option Language)
    (d i t th de l : string) (cs : list tree_node) (w : World) :
  let channel := ChannelNode d i t th de l cs in
  let root := "http://migranthealth.eu/etraining/" in
  (forall link rest,
      PyStr.strip (get_text link) = ("MEET " ++ rest)%string ->
      language_name_of link = rest) /\
  (forall doc w0 link,
      get_parsed_html_from_url root w = (Ok doc, w0) ->
      In link (select sel_category_links doc) ->
      getlang_by_name (language_name_of link) = None ->
      exists e w', fetch_all_languages getlang_by_name channel w = (Raise e, w')) /\
  (forall doc w0 before link after channel1 w1 url,
      get_parsed_html_from_url root w = (Ok doc, w0) ->
      select sel_category_links doc = before ++ link :: after ->
      for_each before (fetch_language_link getlang_by_name) channel w0
        = (Ok channel1, w1) ->
      get_attr "href" (attrs_of link) = Some url ->
      getlang_by_name (language_name_of link) = None ->
      fetch_all_languages getlang_by_name channel w
        = (Raise (AttributeError "name"), w1)) /\
  (forall node w',
      fetch_all_languages getlang_by_name channel w = (Ok node, w') ->
      exists doc w0 nodes,
        get_parsed_html_from_url root w = (Ok doc, w0) /\
        node = ChannelNode d i t th de l (cs ++ nodes) /\
        Forall2 (language_child getlang_by_name) (select sel_category_links doc) nodes).
Proof.
  intros channel root.
  assert (Hok : forall node w',
             fetch_all_languages getlang_by_name channel w = (Ok node, w') ->
             exists doc w0 nodes,
               get_parsed_html_from_url root w = (Ok doc, w0) /\
               node = ChannelNode d i t th de l (cs ++ nodes) /\
               Forall2 (language_child getlang_by_name)
                       (select sel_category_links doc) nodes).
  { intros node w' H. unfold fetch_all_languages in H. run_ok H as doc w0 E0.
    apply fetch_language_links in H as (nodes & -> & Hn).
    now exists doc, w0, nodes. }
  split; [| split; [| split; [| exact Hok]]].
  - intros link rest E. unfold language_name_of. now rewrite E.
  - intros doc w0 link E0 Hin Hnone.
    destruct (fetch_all_languages getlang_by_name channel w) as [[node | e] w'] eqn:R;
      [| now exists e, w'].
    exfalso. destruct (Hok node w' eq_refl) as (doc' & w0' & nodes & E0' & _ & Hn).
    rewrite E0 in E0'. inversion E0'; subst doc' w0'.
    clear - Hin Hnone Hn. induction Hn as [|x y xs ys Hxy _ IH]; [contradiction |].
    destruct Hin as [<- | Hin]; [| now apply IH].
    destruct Hxy as (language & Hl & _). congruence.
  - intros doc w0 before link after channel1 w1 url E0 Es Eb Hhref Hnone.
    unfold fetch_all_languages. rewrite (bind_step _ _ _ _ _ E0).
    fold root. rewrite Es, for_each_app. rewrite (bind_step _ _ _ _ _ Eb).
    simpl for_each. unfold fetch_language_link at 1.
    unfold bind, item. simpl attrs_of. rewrite Hhref. unfold ret.
    rewrite Hnone. reflexivity.
Qed.

Lemma unknown_language_is_fatal_witness :
  exists e w',
    fetch_all_languages (fun _ => None) get_channel Site.start = (Raise e, w').
Proof.
  eapply (proj1 (proj2 (unknown_language_is_fatal (fun _ => None)
            "migranthealth.eu" "meet-migrant-health"
            "MEET Community Health Training for Migrants" "thumbnail.png"
            "An initiative of the European Commission's Lifelong Learning Initiative for community health educators"
            "en" [] Site.start))).
  - vm_compute. reflexivity.
  - left. reflexivity.
  - reflexivity.
Defined.

(** ** What a run adds to the log *)

Lemma grows_ret {A} P (a : A) : grows P (ret a).
Proof. intros w. exists []. split; [now rewrite app_nil_r | constructor]. Qed.

Lemma grows_raise {A} P e : grows P (@raise A e).
Proof. intros w. exists []. split; [now rewrite app_nil_r | constructor]. Qed.

Lemma grows_lift {A} P (r : result A) : grows P (lift r).
Proof. intros w. exists []. split; [now rewrite app_nil_r | constructor]. Qed.

Lemma grows_bind {A B} P (m : M A) (k : A -> M B) :
  grows P m -> (forall a, grows P (k a)) -> grows P (bind m k).
Proof.
  intros Hm Hk w. unfold bind.
  destruct (Hm w) as (evs & E & F).
  destruct (m w) as [[a | e] w1]; simpl in E.
  - destruct (Hk a w1) as (evs' & E' & F').
    exists (evs ++ evs'). split; [now rewrite E', E, app_assoc | now apply Forall_app].
  - now exists evs.
Qed.

Lemma grows_try_except {A} P (body : M A) caught handler :
  grows P body -> (forall e, grows P (handler e)) ->
  grows P (try_except body caught handler).
Proof.
  intros Hm Hk w. unfold try_except.
  destruct (Hm w) as (evs & E & F).
  destruct (body w) as [[a | e] w1]; simpl in E.
  - now exists evs.
  - destruct (caught e); [| now exists evs].
    destruct (Hk e w1) as (evs' & E' & F').
    exists (evs ++ evs'). split; [now rewrite E', E, app_assoc | now apply Forall_app].
Qed.

Lemma grows_for_each {A S} P (xs : list A) (body : A -> S -> M S) :
  (forall x s, In x xs -> grows P (body x s)) -> forall s, grows P (for_each xs body s).
Proof.
  induction xs as [|x xs IH]; intros Hbody s.
  - apply grows_ret.
  - simpl. apply grows_bind; [apply Hbody; now left |].
    intros s1. apply IH. intros y s2 Hy. apply Hbody. now right.
Qed.

Lemma grows_event {A} (P : event -> Prop) (f : World -> result A) e :
  P e -> grows P (fun w => (f w, record e w)).
Proof. intros H w. exists [e]. split; [reflexivity | now constructor]. Qed.

Lemma grows_sess_get P url : P (Get url) -> grows P (sess_get url).
Proof.
  intros H w. unfold sess_get.
  destruct (site w (log w) (Get url)); (exists [Get url]; split; [reflexivity | now constructor]).
Qed.

Lemma grows_sess_post P url data : P (Post url data) -> grows P (sess_post url data).
Proof.
  intros H w. unfold sess_post.
  destruct (site w (log w) (Post url data));
    (exists [Post url data]; split; [reflexivity | now constructor]).
Qed.

Lemma grows_sleep P n : P (Sleep n) -> grows P (sleep n).
Proof. intros H. now apply grows_event. Qed.

Lemma grows_load_global P name : grows P (load_global name).
Proof.
  unfold load_global. destruct (existsb _ _); [apply grows_ret | apply grows_raise].
Qed.

Lemma grows_uuid4_hex P : grows P uuid4_hex.
Proof. intros w. exists []. split; [simpl; now rewrite app_nil_r | constructor]. Qed.

Lemma grows_item P tag key : grows P (item tag key).
Proof.
  unfold item. destruct tag as [t |]; [| apply grows_raise].
  destruct (get_attr key (attrs_of t)); [apply grows_ret | apply grows_raise].
Qed.

Lemma grows_text_of P tag : grows P (text_of tag).
Proof. unfold text_of. destruct tag; [apply grows_ret | apply grows_raise]. Qed.

Lemma grows_first_string_stripped P tag : grows P (first_string_stripped tag).
Proof.
  unfold first_string_stripped. destruct tag as [t |]; [| apply grows_raise].
  destruct (contents_of t) as [|[] ?]; first [apply grows_ret | apply grows_raise].
Qed.

Lemma make_request_loop_S fuel url retry_count :
  make_request_loop (S fuel) url retry_count =
  try_except (sess_get url) connection_or_timeout (fun e =>
    sleep ((retry_count + 1) * 1) ;;;
    if (max_retries <=? retry_count + 1)%nat
    then load_global "Dummy404ResponseObject" ;;; ret (Dummy404ResponseObject url)
    else make_request_loop fuel url (retry_count + 1)).
Proof. reflexivity. Qed.

(** [make_request url] only requests [url] and sleeps. *)
Lemma grows_make_request P url :
  P (Get url) -> (forall n, P (Sleep n)) -> grows P (make_request url).
Proof.
  intros Hg Hs. unfold make_request. generalize 0 as retry_count.
  induction max_retries as [|fuel IH]; intros retry_count; [apply grows_raise |].
  rewrite make_request_loop_S. apply grows_try_except; [now apply grows_sess_get |].
  intros e. apply grows_bind; [apply grows_sleep, Hs |]. intros _.
  destruct (Nat.leb _ (retry_count + 1)); [| apply IH].
  apply grows_bind; [apply grows_load_global | intros _; apply grows_ret].
Qed.

Lemma grows_get_parsed_html_from_url P url :
  P (Get url) -> (forall n, P (Sleep n)) -> grows P (get_parsed_html_from_url url).
Proof.
  intros Hg Hs. apply grows_bind; [now apply grows_make_request | intros; apply grows_ret].
Qed.

Lemma grows_derive_filename P url : grows P (derive_filename url).
Proof.
  unfold derive_filename. destruct (String.eqb _ _); [apply grows_ret |].
  apply grows_bind; [apply grows_lift |]. intros path.
  apply grows_bind; [apply grows_uuid4_hex | intros; apply grows_ret].
Qed.

Lemma grows_download_content_node url title :
  grows no_post (download_content_node url title).
Proof.
  unfold download_content_node.
  apply grows_bind; [now apply grows_get_parsed_html_from_url |]. intros doc.
  apply grows_bind.
  - unfold download_static_assets. apply grows_for_each.
    intros [[u key] ref] [doc' destination] _. unfold visit_asset.
    destruct (is_blacklisted _ _); [apply grows_ret |].
    apply grows_bind; [apply grows_derive_filename |]. intros filename.
    apply grows_bind; [now apply grows_make_request | intros; apply grows_ret].
  - intros [doc' destination]. apply grows_ret.
Qed.

Lemma grows_fetch_unit url title description :
  grows no_post (fetch_unit url title description).
Proof.
  unfold fetch_unit.
  apply grows_bind; [now apply grows_get_parsed_html_from_url |]. intros doc.
  apply grows_for_each. intros unit_tag s _.
  apply grows_bind; [apply grows_first_string_stripped |]. intros article_title.
  apply grows_bind; [apply grows_item |]. intros article_url.
  apply grows_bind; [apply grows_download_content_node | intros; apply grows_ret].
Qed.

Lemma grows_fetch_section section s : grows no_post (fetch_section section s).
Proof.
  unfold fetch_section.
  destruct (select_one_in sel_section_title section); [| apply grows_ret].
  apply grows_bind; [apply grows_item |]. intros unit_url.
  apply grows_bind; [apply grows_text_of |]. intros summary.
  apply grows_bind; [apply grows_fetch_unit | intros; apply grows_ret].
Qed.

(** ** Enrollment *)

Lemma grows_run {A} P (m : M A) w r w1 :
  grows P m -> m w = (r, w1) -> exists evs, log w1 = log w ++ evs /\ Forall P evs.
Proof. intros G E. specialize (G w). now rewrite E in G. Qed.

Lemma in_set_attr key value d k v :
  In (k, v) (set_attr key value d) -> (k, v) = (key, value) \/ In (k, v) d.
Proof.
  induction d as [|[k0 v0] d IH]; simpl.
  - intros [H | []]. left. now symmetry.
  - destruct (String.eqb_spec k0 key) as [-> | N]; simpl.
    + intros [H | H]; [left; now symmetry | right; now right].
    + intros [H | H]; [right; now left |]. destruct (IH H); [now left | right; now right].
Qed.

Lemma set_attr_has_key key value d : In (key, value) (set_attr key value d).
Proof.
  induction d as [|[k0 v0] d IH]; simpl; [now left |].
  destruct (String.eqb_spec k0 key) as [-> | N]; [now left | now right].
Qed.

Lemma set_attr_keeps_keys key value d k v :
  In (k, v) d -> exists v', In (k, v') (set_attr key value d).
Proof.
  induction d as [|[k0 v0] d IH]; simpl; [contradiction |].
  destruct (String.eqb_spec k0 key) as [-> | N]; intros [H | H].
  - inversion H; subst. exists value. now left.
  - exists v. now right.
  - exists v. now left.
  - destruct (IH H) as (v' & Hv'). exists v'. now right.
Qed.

Lemma collect_post_values_fields inputs w fields w' :
  collect_post_values inputs w = (Ok fields, w') ->
  w' = w /\ posted_fields inputs fields.
Proof.
  unfold collect_post_values.
  assert (G : forall acc,
             for_each inputs
               (fun element post_values =>
                  if has_attr "value" element
                  then key <- item (Some element) "name" ;;
                       value <- item (Some element) "value" ;;
                       ret (set_attr key value post_values)
                  else ret post_values) acc w = (Ok fields, w') ->
             w' = w /\
             (forall k v, In (k, v) fields ->
                In (k, v) acc \/
                exists input, In input inputs /\
                              get_attr "name" (attrs_of input) = Some k /\
                              get_attr "value" (attrs_of input) = Some v) /\
             (forall input v, In input inputs ->
                get_attr "value" (attrs_of input) = Some v ->
                exists k v', get_attr "name" (attrs_of input) = Some k /\ In (k, v') fields) /\
             (forall k v, In (k, v) acc -> exists v', In (k, v') fields)).
  { revert w. induction inputs as [|element inputs IH]; intros w acc H.
    - apply ret_ok in H as [<- <-].
      repeat split; [now left | contradiction | intros k v Hin; now exists v].
    - cbn [for_each] in H. run_ok H as acc1 w1 E1.
      apply IH in H as (-> & Hfrom & Hall & Hkeep).
      unfold has_attr in E1.
      destruct (get_attr "value" (attrs_of element)) as [value |] eqn:V.
      + run_ok E1 as key w2 E2. run_ok E1 as value' w3 E3.
        apply ret_ok in E1 as [<- <-].
        apply item_ok in E2 as (t & Ht & Hname & ->). inversion Ht; subst t.
        apply item_ok in E3 as (t & Ht' & Hval & ->). inversion Ht'; subst t.
        split; [reflexivity |]. split; [| split].
        * intros k v Hin. destruct (Hfrom k v Hin) as [Hacc | (input & Hi & Hn & Hv)].
          -- apply in_set_attr in Hacc as [Heq | Hacc]; [| now left].
             inversion Heq; subst. right. exists element. repeat split; [now left | assumption ..].
          -- right. exists input. repeat split; [now right | assumption ..].
        * intros input v [<- | Hin] Hv; [| now apply (Hall input v)].
          destruct (Hkeep key value' (set_attr_has_key key value' acc)) as (v' & Hv').
          now exists key, v'.
        * intros k v Hin. destruct (set_attr_keeps_keys key value' acc k v Hin) as (v1 & H1).
          now apply (Hkeep k v1).
      + apply ret_ok in E1 as [<- <-].
        split; [reflexivity |]. split; [| split].
        * intros k v Hin. destruct (Hfrom k v Hin) as [Hacc | (input & Hi & Hn & Hv)];
            [now left |]. right. exists input. repeat split; [now right | assumption ..].
        * intros input v [<- | Hin] Hv; [congruence | now apply (Hall input v)].
        * exact Hkeep. }
  intros H. apply G in H as (-> & Hfrom & Hall & _).
  split; [reflexivity |]. split; [| exact Hall].
  intros k v Hin. destruct (Hfrom k v Hin) as [[] | H]. exact H.
Qed.

(** C4. When the module page carries the enrollment form, [fetch_module]
    submits it once, with the named values of the form's inputs that carry
    a value, sleeps one second, fetches the module page again and reads the
    sections from that fresh page; nothing else it does is a POST.  When the
    page carries no such form there is no POST and no second fetch: the
    sections are read from the page first fetched. *)
Theorem fetch_module_enrolls (url title : string) (w : World)
    (node : tree_node) (w' : World) :
  fetch_module url title w = (Ok node, w') ->
  let module_node := TopicNode url title (LangCode "en") None [] in
  exists doc0 w0,
    get_parsed_html_from_url url w = (Ok doc0, w0) /\
    if enrollment_needed doc0
    then
      exists fields doc1 w2 before after,
        posted_fields (select sel_form_inputs doc0) fields /\
        get_parsed_html_from_url url
          (record (Sleep 1) (record (Post enrol_url fields) w0)) = (Ok doc1, w2) /\
        for_each (select sel_sections doc1) fetch_section module_node w2 = (Ok node, w') /\
        log w' = log w ++ before ++ [Post enrol_url fields; Sleep 1] ++ after /\
        Forall no_post before /\ Forall no_post after
    else
      for_each (select sel_sections doc0) fetch_section module_node w0 = (Ok node, w') /\
      exists evs, log w' = log w ++ evs /\ Forall no_post evs.
Proof.
  unfold fetch_module. intros H. cbv zeta.
  set (module_node := TopicNode url title (LangCode "en") None []) in *.
  run_ok H as doc0 w0 E0. run_ok H as doc w1 E1.
  exists doc0, w0. split; [exact E0 |].
  destruct (grows_run no_post _ _ _ _
              (grows_get_parsed_html_from_url no_post url I (fun _ => I)) E0)
    as (before & Lb & Fb).
  destruct (grows_run no_post _ _ _ _
              (grows_for_each no_post (select sel_sections doc) fetch_section
                 (fun x s _ => grows_fetch_section x s) module_node) H)
    as (later & Ll & Fl).
  unfold enroll in E1. unfold enrollment_needed.
  destruct (select_one sel_form doc0) as [form |].
  - run_ok E1 as action w2 E2.
    apply item_ok in E2 as (t & Ht & Haction & ->). inversion Ht; subst t.
    rewrite Haction.
    destruct (String.eqb_spec action enrol_url) as [-> | N].
    + run_ok E1 as fields w3 E3. run_ok E1 as response w4 E4. run_ok E1 as u w5 E5.
      apply collect_post_values_fields in E3 as (-> & Hfields).
      unfold sess_post in E4.
      destruct (site w0 (log w0) (Post enrol_url fields)); [| discriminate].
      inversion E4; subst response w4. inversion E5; subst u w5.
      destruct (grows_run no_post _ _ _ _
                  (grows_get_parsed_html_from_url no_post url I (fun _ => I)) E1)
        as (refetch & Lr & Fr).
      exists fields, doc, w1, before, (refetch ++ later).
      split; [exact Hfields |]. split; [exact E1 |]. split; [exact H |].
      split; [| split; [exact Fb | now apply Forall_app]].
      rewrite Ll, Lr, !log_record, Lb. rewrite <- !app_assoc. reflexivity.
    + apply ret_ok in E1 as [<- <-]. split; [exact H |].
      exists (before ++ later). split; [now rewrite Ll, Lb, app_assoc | now apply Forall_app].
  - apply ret_ok in E1 as [<- <-]. split; [exact H |].
    exists (before ++ later). split; [now rewrite Ll, Lb, app_assoc | now apply Forall_app].
Qed.

Lemma fetch_module_enrolls_witness :
  exists node,
    fst (fetch_module Site.module_url "Module 1: Planning a CHE service" Site.start)
      = Ok node /\
    exists doc0 w0,
      get_parsed_html_from_url Site.module_url Site.start = (Ok doc0, w0) /\
      if enrollment_needed doc0
      then
        exists fields doc1 w2 before after,
          posted_fields (select sel_form_inputs doc0) fields /\
          get_parsed_html_from_url Site.module_url
            (record (Sleep 1) (record (Post enrol_url fields) w0)) = (Ok doc1, w2) /\
          for_each (select sel_sections doc1) fetch_section
            (TopicNode Site.module_url "Module 1: Planning a CHE service"
               (LangCode "en") None []) w2
            = (Ok node,
               snd (fetch_module Site.module_url "Module 1: Planning a CHE service"
                      Site.start)) /\
          log (snd (fetch_module Site.module_url "Module 1: Planning a CHE service"
                      Site.start))
            = log Site.start ++ before ++ [Post enrol_url fields; Sleep 1] ++ after /\
          Forall no_post before /\ Forall no_post after
      else
        for_each (select sel_sections doc0) fetch_section
          (TopicNode Site.module_url "Module 1: Planning a CHE service"
             (LangCode "en") None []) w0
          = (Ok node,
             snd (fetch_module Site.module_url "Module 1: Planning a CHE service"
                    Site.start)) /\
        exists evs,
          log (snd (fetch_module Site.module_url "Module 1: Planning a CHE service"
                      Site.start)) = log Site.start ++ evs /\
          Forall no_post evs.
Proof.
  eexists. split; [vm_compute; reflexivity |].
  apply (fetch_module_enrolls Site.module_url "Module 1: Planning a CHE service"
           Site.start).
  vm_compute. reflexivity.
Defined.

(** On the small site the module page asks for enrollment: the form is
    posted with its three valued inputs, and the page is fetched again. *)
Example enrollment_trace :
  enrollment_needed Site.enrol_page = true /\
  firstn 4 (log (snd (fetch_module Site.module_url "Module 1" Site.start))) =
    [Get Site.module_url;
     Post enrol_url [("id", "3"); ("sesskey", "k9"); ("submitbutton", "Enrol me")];
     Sleep 1;
     Get Site.module_url].
Proof. split; vm_compute; reflexivity. Qed.

(** ** Denylisted assets *)

Lemma get_set_attr key value attrs : get_attr key (set_attr key value attrs) = Some value.
Proof.
  induction attrs as [|[k v] attrs IH]; simpl.
  - now rewrite String.eqb_refl.
  - destruct (String.eqb k key) eqn:E; simpl; now rewrite E.
Qed.

Lemma get_set_attr_other key key' value d :
  key <> key' -> get_attr key (set_attr key' value d) = get_attr key d.
Proof.
  intros N. induction d as [|[k0 v0] d IH]; simpl.
  - destruct (String.eqb_spec key' key); [congruence | reflexivity].
  - destruct (String.eqb_spec k0 key') as [-> | N']; simpl.
    + destruct (String.eqb_spec key' key); [congruence | reflexivity].
    + destruct (String.eqb_spec k0 key); [reflexivity | exact IH].
Qed.

Lemma attrs_at_set_other u v key value n :
  v <> u -> attrs_at_node u (set_attr_node v key value n) = attrs_at_node u n.
Proof.
  intros N. induction n as [s | x nm a cs IH] using node_forall_ind; [reflexivity |].
  simpl. f_equal.
  - destruct (Nat.eqb_spec x v) as [-> | ?]; [| reflexivity].
    destruct (Nat.eqb_spec v u); [contradiction | reflexivity].
  - induction IH as [|c cs Hc _ IHcs]; [reflexivity |]. simpl. now rewrite Hc, IHcs.
Qed.

Lemma attrs_at_set_same u key value n :
  Forall (fun a => get_attr key a = Some value)
         (attrs_at_node u (set_attr_node u key value n)).
Proof.
  induction n as [s | x nm a cs IH] using node_forall_ind; [constructor |].
  simpl. apply Forall_app. split.
  - destruct (Nat.eqb x u); constructor; [apply get_set_attr | constructor].
  - induction IH as [|c cs Hc _ IHcs]; [constructor |]. simpl.
    apply Forall_app. now split.
Qed.

Lemma attrs_at_doc_set_other u v key value doc :
  v <> u -> attrs_at u (set_attr_at v key value doc) = attrs_at u doc.
Proof.
  intros N. unfold attrs_at, set_attr_at.
  induction doc as [|c doc IH]; [reflexivity |].
  simpl. now rewrite attrs_at_set_other, IH.
Qed.

Lemma attrs_at_doc_set_same u key value doc :
  Forall (fun a => get_attr key a = Some value) (attrs_at u (set_attr_at u key value doc)).
Proof.
  unfold attrs_at, set_attr_at.
  induction doc as [|c doc IH]; [constructor |].
  simpl. apply Forall_app. split; [apply attrs_at_set_same | exact IH].
Qed.

(** Pruning brings no attribute list in. *)
Lemma attrs_at_prune_list u doomed l :
  Forall (fun n => incl (attrs_at_node u (prune_node doomed n)) (attrs_at_node u n)) l ->
  incl (attrs_at u (prune doomed l)) (attrs_at u l).
Proof.
  intros Hl. forest_from_trees l Hl; [intros a H; exact H |].
  rewrite prune_cons. unfold attrs_at in *. simpl flat_map at 2.
  destruct (is_doomed doomed c).
  - apply incl_appr. exact IHl.
  - simpl flat_map. apply incl_app_app; assumption.
Qed.

Lemma attrs_at_prune_node u doomed n :
  incl (attrs_at_node u (prune_node doomed n)) (attrs_at_node u n).
Proof.
  induction n as [s | x nm a cs IH] using node_forall_ind; [intros a H; exact H |].
  rewrite prune_node_tag. simpl.
  apply incl_app_app; [apply incl_refl |].
  now apply (attrs_at_prune_list u doomed cs).
Qed.

Lemma attrs_at_prune u doomed doc :
  incl (attrs_at u (prune doomed doc)) (attrs_at u doc).
Proof.
  apply attrs_at_prune_list, Forall_forall. intros n _. apply attrs_at_prune_node.
Qed.

Lemma attrs_at_sanitize u doc : incl (attrs_at u (sanitize doc)) (attrs_at u doc).
Proof.
  unfold sanitize. generalize nodes_to_remove as sels. intros sels. revert doc.
  induction sels as [|s sels IH]; intros doc; [apply incl_refl |].
  simpl. eapply incl_tran; [apply IH |].
  rewrite remove_selected_prune. apply attrs_at_prune.
Qed.

(** The asset references of a document belong to distinct elements. *)
Lemma NoDup_app_disjoint {A} (l1 l2 : list A) :
  NoDup (l1 ++ l2) -> forall a, In a l1 -> ~ In a l2.
Proof.
  induction l1 as [|x l1 IH]; simpl; intros H a Hin; [contradiction |].
  inversion H as [|? ? Hx Hrest]; subst. destruct Hin as [<- | Hin].
  - intros H2. apply Hx. apply in_or_app. now right.
  - now apply IH.
Qed.

Lemma assets_within_list l :
  Forall (fun n => assets_within (uids_node n) (assets_node n)) l ->
  assets_within (uids l) (assets l).
Proof.
  intros Hl. unfold assets. forest_from_trees l Hl.
  - split; [apply incl_refl | intros _; constructor].
  - destruct Hc as [Hc1 Hc2], IHl as [Hl1 Hl2].
    unfold assets_within. rewrite uids_cons. simpl flat_map. rewrite map_app. split.
    + apply incl_app_app; assumption.
    + intros ND. apply NoDup_app.
      * apply Hc2. now apply NoDup_app_remove_r in ND.
      * apply Hl2. now apply NoDup_app_remove_l in ND.
      * intros a H1 H2. apply (NoDup_app_disjoint _ _ ND a); [now apply Hc1 | now apply Hl1].
Qed.

Lemma assets_within_node n : assets_within (uids_node n) (assets_node n).
Proof.
  induction n as [s | x nm a cs IH] using node_forall_ind.
  - split; [apply incl_refl | intros _; constructor].
  - destruct (assets_within_list cs IH) as [H1 H2].
    unfold assets_within. rewrite uids_node_tag.
    change (assets_node (Tag x nm a cs))
      with (opt_list (asset_reference (Tag x nm a cs)) ++ assets cs).
    rewrite map_app.
    assert (Hown : map asset_uid (opt_list (asset_reference (Tag x nm a cs))) = [x]
                   \/ map asset_uid (opt_list (asset_reference (Tag x nm a cs))) = []).
    { unfold asset_reference.
      destruct (existsb _ _).
      - destruct (get_attr "src" a); [now left | now right].
      - destruct (_ && _); [| now right].
        destruct (get_attr "href" a); [now left | now right]. }
    split.
    + destruct Hown as [-> | ->]; simpl.
      * apply incl_cons; [now left | now apply incl_tl].
      * now apply incl_tl.
    + intros ND. inversion ND as [|? ? Hx Hrest]; subst.
      destruct Hown as [-> | ->]; simpl; [| now apply H2].
      constructor; [| now apply H2]. intros Hin. apply Hx. now apply H1.
Qed.

Lemma assets_distinct doc : NoDup (uids doc) -> NoDup (map asset_uid (assets doc)).
Proof.
  apply assets_within_list, Forall_forall. intros n _. apply assets_within_node.
Qed.

Lemma NoDup_map_same {A B} (f : A -> B) (l : list A) x y :
  NoDup (map f l) -> In x l -> In y l -> f x = f y -> x = y.
Proof.
  induction l as [|a l IH]; simpl; intros ND Hx Hy E; [contradiction |].
  inversion ND as [|? ? Ha Hrest]; subst.
  destruct Hx as [-> | Hx], Hy as [-> | Hy].
  - reflexivity.
  - exfalso. apply Ha. rewrite E. now apply in_map.
  - exfalso. apply Ha. rewrite <- E. now apply in_map.
  - now apply IH.
Qed.

(** The asset reference of an element is read off its own attributes. *)
Lemma asset_reference_inv x nm a cs u key r :
  asset_reference (Tag x nm a cs) = Some (u, key, r) ->
  x = u /\ get_attr key a = Some r.
Proof.
  unfold asset_reference.
  destruct (existsb (String.eqb nm) _).
  - destruct (get_attr "src" a) eqn:G; [| discriminate].
    intros H. inversion H; subst. now split.
  - destruct (_ && _); [| discriminate].
    destruct (get_attr "href" a) eqn:G; [| discriminate].
    intros H. inversion H; subst. now split.
Qed.

(** Setting the attribute an asset reference stands in changes the
    reference, and nothing else of it. *)
Lemma asset_reference_set x nm a cs cs' key r value :
  asset_reference (Tag x nm a cs) = Some (x, key, r) ->
  asset_reference (Tag x nm (set_attr key value a) cs') = Some (x, key, value).
Proof.
  unfold asset_reference.
  destruct (existsb (String.eqb nm) _).
  - destruct (get_attr "src" a); [| discriminate].
    intros H. inversion H; subst. now rewrite get_set_attr.
  - destruct (String.eqb nm "link" && _) eqn:L; [| discriminate].
    destruct (get_attr "href" a); [| discriminate].
    intros H. inversion H; subst.
    rewrite (get_set_attr_other "rel" "href") by discriminate.
    rewrite L. now rewrite get_set_attr.
Qed.

Lemma assets_node_tag x nm a cs :
  assets_node (Tag x nm a cs)
  = opt_list (asset_reference (Tag x nm a cs)) ++ flat_map assets_node cs.
Proof. reflexivity. Qed.

Lemma set_attr_node_tag u key value x nm a cs :
  set_attr_node u key value (Tag x nm a cs)
  = Tag x nm (if Nat.eqb x u then set_attr key value a else a)
      (map (set_attr_node u key value) cs).
Proof. reflexivity. Qed.

Lemma in_opt_list {A} (x : A) (o : option A) : In x (opt_list o) <-> o = Some x.
Proof.
  destruct o as [y |]; simpl; split; intros H.
  - destruct H as [-> | []]. reflexivity.
  - inversion H. now left.
  - contradiction.
  - discriminate.
Qed.

(** An asset reference of the element [u], once [u]'s attribute is set. *)
Lemma assets_set_same_node u key value r n :
  In (u, key, r) (assets_node n) ->
  In (u, key, value) (assets_node (set_attr_node u key value n)).
Proof.
  induction n as [s | x nm a cs IH] using node_forall_ind; [intros [] |].
  rewrite set_attr_node_tag, !assets_node_tag, !in_app_iff, !in_opt_list.
  intros [R | H].
  - left. destruct (asset_reference_inv _ _ _ _ _ _ _ R) as [-> _].
    rewrite Nat.eqb_refl. exact (asset_reference_set _ _ _ _ _ _ _ value R).
  - right. rewrite in_flat_map in H |- *. destruct H as (c & Hc & Hin).
    exists (set_attr_node u key value c). split; [now apply in_map |].
    rewrite Forall_forall in IH. now apply IH.
Qed.

Lemma assets_set_same u key value r doc :
  In (u, key, r) (assets doc) ->
  In (u, key, value) (assets (set_attr_at u key value doc)).
Proof.
  unfold assets, set_attr_at. rewrite !in_flat_map. intros (c & Hc & Hin).
  exists (set_attr_node u key value c). split; [now apply in_map |].
  exact (assets_set_same_node _ _ _ _ _ Hin).
Qed.

(** An asset reference of the element [u], when another element is
    touched. *)
Lemma assets_set_other_node u v key k value r n :
  v <> u ->
  In (u, key, r) (assets_node n) ->
  In (u, key, r) (assets_node (set_attr_node v k value n)).
Proof.
  intros N. induction n as [s | x nm a cs IH] using node_forall_ind; [intros [] |].
  rewrite set_attr_node_tag, !assets_node_tag, !in_app_iff, !in_opt_list.
  intros [R | H].
  - left. destruct (asset_reference_inv _ _ _ _ _ _ _ R) as [-> _].
    destruct (Nat.eqb_spec u v) as [E | _]; [now elim N |]. exact R.
  - right. rewrite in_flat_map in H |- *. destruct H as (c & Hc & Hin).
    exists (set_attr_node v k value c). split; [now apply in_map |].
    rewrite Forall_forall in IH. now apply IH.
Qed.

Lemma assets_set_other u v key k value r doc :
  v <> u ->
  In (u, key, r) (assets doc) ->
  In (u, key, r) (assets (set_attr_at v k value doc)).
Proof.
  intros N. unfold assets, set_attr_at. rewrite !in_flat_map. intros (c & Hc & Hin).
  exists (set_attr_node v k value c). split; [now apply in_map |].
  exact (assets_set_other_node _ _ _ _ _ _ _ N Hin).
Qed.

(** An asset reference is the value of an attribute of its element. *)
Lemma assets_attrs_node u key r n :
  In (u, key, r) (assets_node n) ->
  exists a, In a (attrs_at_node u n) /\ get_attr key a = Some r.
Proof.
  induction n as [s | x nm a cs IH] using node_forall_ind; [intros [] |].
  rewrite assets_node_tag, in_app_iff, in_opt_list.
  intros [R | H].
  - destruct (asset_reference_inv _ _ _ _ _ _ _ R) as [-> G].
    exists a. split; [| exact G]. simpl. rewrite Nat.eqb_refl. now left.
  - rewrite in_flat_map in H. destruct H as (c & Hc & Hin).
    rewrite Forall_forall in IH. destruct (IH c Hc Hin) as (a' & Ha & G).
    exists a'. split; [| exact G].
    change (attrs_at_node u (Tag x nm a cs))
      with ((if Nat.eqb x u then [a] else []) ++ flat_map (attrs_at_node u) cs).
    apply in_or_app. right. apply in_flat_map. now exists c.
Qed.

Lemma assets_attrs u key r doc :
  In (u, key, r) (assets doc) ->
  exists a, In a (attrs_at u doc) /\ get_attr key a = Some r.
Proof.
  unfold assets, attrs_at. rewrite in_flat_map. intros (c & Hc & Hin).
  destruct (assets_attrs_node _ _ _ _ Hin) as (a & Ha & G).
  exists a. split; [| exact G]. apply in_flat_map. now exists c.
Qed.

Section Denylist.

Variables (u : nat) (key ref : string).

Hypothesis target_denylisted : is_blacklisted (urljoin base ref) url_blacklist = true.

Lemma grows_visit found state : grows (not_target ref) (visit found state).
Proof.
  destruct found as [[v k] r], state as [doc destination].
  unfold visit, visit_asset.
  destruct (is_blacklisted (urljoin base r) url_blacklist) eqn:B; [apply grows_ret |].
  apply grows_bind; [apply grows_derive_filename |]. intros filename.
  apply grows_bind; [| intros; apply grows_ret].
  apply grows_make_request.
  - intros E. inversion E as [E']. congruence.
  - intros n E. discriminate.
Qed.

Lemma visit_blanks found doc destination w doc' destination' w' :
  visit found (doc, destination) w = (Ok (doc', destination'), w') ->
  (asset_uid found = u -> found = (u, key, ref)) ->
  (asset_uid found = u \/ blanked u key doc) -> blanked u key doc'.
Proof.
  destruct found as [[v k] r]. unfold visit, visit_asset, asset_uid. simpl fst.
  intros H Hsame Hor.
  assert (Hdoc : exists value,
             doc' = set_attr_at v k value doc /\
             (is_blacklisted (urljoin base r) url_blacklist = true -> value = "")).
  { destruct (is_blacklisted (urljoin base r) url_blacklist).
    - apply ret_ok in H as [H _]. inversion H. now exists "".
    - run_ok H as filename w1 E1. run_ok H as response w2 E2.
      apply ret_ok in H as [H _]. inversion H. exists filename. split; [reflexivity | discriminate]. }
  destruct Hdoc as (value & -> & Hvalue).
  destruct (Nat.eq_dec v u) as [-> | N].
  - specialize (Hsame eq_refl). inversion Hsame; subst k r.
    rewrite (Hvalue target_denylisted). apply attrs_at_doc_set_same.
  - destruct Hor as [E | Hb]; [contradiction |].
    unfold blanked. now rewrite attrs_at_doc_set_other.
Qed.

Lemma visits_blank found_list :
  forall doc destination w doc' destination' w',
    for_each found_list visit (doc, destination) w = (Ok (doc', destination'), w') ->
    (forall x, In x found_list -> asset_uid x = u -> x = (u, key, ref)) ->
    (In (u, key, ref) found_list \/ blanked u key doc) -> blanked u key doc'.
Proof.
  induction found_list as [|x rest IH]; intros doc destination w doc' destination' w' H Hsame Hor.
  - apply ret_ok in H as [H _]. inversion H; subst. destruct Hor as [[] | Hb]. exact Hb.
  - cbn [for_each] in H. run_ok H as state w1 E1. destruct state as [doc1 destination1].
    apply (IH _ _ _ _ _ _ H); [intros y Hy; apply Hsame; now right |].
    destruct (Nat.eq_dec (asset_uid x) u) as [E | N].
    + right. apply (visit_blanks _ _ _ _ _ _ _ E1); [apply Hsame; now left | now left].
    + destruct Hor as [[-> | Hin] | Hb].
      * now elim N.
      * now left.
      * right. apply (visit_blanks _ _ _ _ _ _ _ E1); [apply Hsame; now left | now right].
Qed.

(** The element stays an asset element while the assets are visited, and
    its reference is the empty string from its own visit on. *)
Lemma visit_keeps_asset found doc destination w doc' destination' w' :
  visit found (doc, destination) w = (Ok (doc', destination'), w') ->
  (asset_uid found = u -> found = (u, key, ref)) ->
  (exists r, In (u, key, r) (assets doc)) ->
  (exists r, In (u, key, r) (assets doc')) /\
  (asset_uid found = u \/ In (u, key, "") (assets doc) ->
   In (u, key, "") (assets doc')).
Proof.
  destruct found as [[v k] r]. unfold visit, visit_asset, asset_uid. simpl fst.
  intros H Hsame [r0 Hr0].
  assert (Hdoc : exists value,
             doc' = set_attr_at v k value doc /\
             (is_blacklisted (urljoin base r) url_blacklist = true -> value = "")).
  { destruct (is_blacklisted (urljoin base r) url_blacklist).
    - apply ret_ok in H as [H _]. inversion H. now exists "".
    - run_ok H as filename w1 E1. run_ok H as response w2 E2.
      apply ret_ok in H as [H _]. inversion H. exists filename. split; [reflexivity | discriminate]. }
  destruct Hdoc as (value & -> & Hvalue).
  destruct (Nat.eq_dec v u) as [-> | N].
  - specialize (Hsame eq_refl). inversion Hsame; subst k r.
    rewrite (Hvalue target_denylisted).
    split; [exists "" | intros _]; exact (assets_set_same _ _ _ _ _ Hr0).
  - split; [exists r0; now apply assets_set_other |].
    intros [E | Hb]; [contradiction | now apply assets_set_other].
Qed.

Lemma visits_keep_asset found_list :
  forall doc destination w doc' destination' w',
    for_each found_list visit (doc, destination) w = (Ok (doc', destination'), w') ->
    (forall x, In x found_list -> asset_uid x = u -> x = (u, key, ref)) ->
    (exists r, In (u, key, r) (assets doc)) ->
    (In (u, key, ref) found_list \/ In (u, key, "") (assets doc)) ->
    In (u, key, "") (assets doc').
Proof.
  induction found_list as [|x rest IH];
    intros doc destination w doc' destination' w' H Hsame Hex Hor.
  - apply ret_ok in H as [H _]. inversion H; subst. destruct Hor as [[] | Hb]. exact Hb.
  - cbn [for_each] in H. run_ok H as state w1 E1. destruct state as [doc1 destination1].
    destruct (visit_keeps_asset _ _ _ _ _ _ _ E1 (Hsame x (or_introl eq_refl)) Hex)
      as [Hex1 Hstep].
    apply (IH _ _ _ _ _ _ H); [intros y Hy; apply Hsame; now right | exact Hex1 |].
    destruct (Nat.eq_dec (asset_uid x) u) as [E | N].
    + right. apply Hstep. now left.
    + destruct Hor as [[-> | Hin] | Hb].
      * now elim N.
      * now left.
      * right. apply Hstep. now right.
Qed.


End Denylist.


(** ** Archiving twice *)

Lemma agrees_ret {A} (a : A) : agrees (ret a).
Proof. intros w1 w2 H. now split. Qed.

Lemma agrees_raise {A} e : agrees (@raise A e).
Proof. intros w1 w2 H. now split. Qed.

Lemma agrees_lift {A} (r : result A) : agrees (lift r).
Proof. intros w1 w2 H. now split. Qed.

Lemma agrees_bind {A B} (m : M A) (k : A -> M B) :
  agrees m -> (forall a, agrees (k a)) -> agrees (bind m k).
Proof.
  intros Hm Hk w1 w2 H. unfold bind.
  destruct (Hm w1 w2 H) as [E S].
  destruct (m w1) as [[a1 | e1] v1], (m w2) as [[a2 | e2] v2]; simpl in E, S;
    try discriminate.
  - inversion E; subst a2. now apply Hk.
  - inversion E; subst e2. now split.
Qed.

Lemma agrees_try_except {A} (body : M A) caught handler :
  agrees body -> (forall e, agrees (handler e)) -> agrees (try_except body caught handler).
Proof.
  intros Hm Hk w1 w2 H. unfold try_except.
  destruct (Hm w1 w2 H) as [E S].
  destruct (body w1) as [[a1 | e1] v1], (body w2) as [[a2 | e2] v2]; simpl in E, S;
    try discriminate.
  - now split.
  - inversion E; subst e2. destruct (caught e1); [now apply Hk | now split].
Qed.

Lemma agrees_for_each {A S} (xs : list A) (body : A -> S -> M S) :
  (forall x s, agrees (body x s)) -> forall s, agrees (for_each xs body s).
Proof.
  intros Hbody. induction xs as [|x xs IH]; intros s; [apply agrees_ret |].
  simpl. apply agrees_bind; [apply Hbody | exact IH].
Qed.

Lemma same_site_record e1 e2 w1 w2 :
  same_site w1 w2 -> same_site (record e1 w1) (record e2 w2).
Proof. intros [H1 H2]. split; assumption. Qed.

Lemma agrees_sess_get url : agrees (sess_get url).
Proof.
  intros w1 w2 H. unfold sess_get.
  rewrite (proj1 H (log w1) (log w2) (Get url)).
  destruct (site w2 (log w2) (Get url)); (split; [reflexivity | now apply same_site_record]).
Qed.

Lemma agrees_sleep n : agrees (sleep n).
Proof. intros w1 w2 H. split; [reflexivity | now apply same_site_record]. Qed.

Lemma agrees_load_global name : agrees (load_global name).
Proof.
  unfold load_global. destruct (existsb _ _); [apply agrees_ret | apply agrees_raise].
Qed.

Lemma agrees_uuid4_hex : agrees uuid4_hex.
Proof.
  intros w1 w2 [H1 H2]. unfold uuid4_hex. cbn [fst snd]. split.
  - specialize (H2 0). rewrite !Nat.add_0_r in H2. now rewrite H2.
  - split; [exact H1 |]. intros k. cbn [entropy drawn].
    specialize (H2 (S k)). rewrite !Nat.add_succ_r in H2. exact H2.
Qed.

Lemma agrees_make_request url : agrees (make_request url).
Proof.
  unfold make_request. generalize 0 as retry_count.
  induction max_retries as [|fuel IH]; intros retry_count; [apply agrees_raise |].
  rewrite make_request_loop_S. apply agrees_try_except; [apply agrees_sess_get |].
  intros e. apply agrees_bind; [apply agrees_sleep |]. intros _.
  destruct (Nat.leb _ (retry_count + 1)); [| apply IH].
  apply agrees_bind; [apply agrees_load_global | intros _; apply agrees_ret].
Qed.

Lemma agrees_derive_filename url : agrees (derive_filename url).
Proof.
  unfold derive_filename. destruct (String.eqb _ _); [apply agrees_ret |].
  apply agrees_bind; [apply agrees_lift |]. intros path.
  apply agrees_bind; [apply agrees_uuid4_hex | intros; apply agrees_ret].
Qed.

Lemma agrees_download_content_node url title : agrees (download_content_node url title).
Proof.
  unfold download_content_node.
  apply agrees_bind.
  { apply agrees_bind; [apply agrees_make_request | intros; apply agrees_ret]. }
  intros doc. apply agrees_bind.
  - unfold download_static_assets. apply agrees_for_each.
    intros [[u key] ref] [doc' destination]. unfold visit_asset.
    destruct (is_blacklisted _ _); [apply agrees_ret |].
    apply agrees_bind; [apply agrees_derive_filename |]. intros filename.
    apply agrees_bind; [apply agrees_make_request | intros; apply agrees_ret].
  - intros [doc' destination]. apply agrees_ret.
Qed.




(** What [download_content_node] returns: the page written to
    [index.html] is the sanitized document. *)
Lemma download_content_node_writes url title w node w' :
  download_content_node url title w = (Ok node, w') ->
  exists doc destination,
    node = HTML5AppNode url (truncate_metadata title) MEET_LICENSE
             [create_predictable_zip
                (write_file "index.html" (str (sanitize doc)) destination)]
             (LangCode "en").
Proof.
  unfold download_content_node. intros H.
  run_ok H as doc0 w0 E0. run_ok H as r w1 E1. destruct r as [doc destination].
  apply ret_ok in H as [<- _]. now exists doc, destination.
Qed.

(** ** The whole crawl of the small site *)

Example whole_crawl :
  log (snd (construct_channel Site.getlang_by_name "user" "secret" Site.start)) =
    [Post "http://migranthealth.eu/etraining/login/index.php"
       [("username", "user"); ("password", "secret"); ("rememberusername", "1");
        ("anchor", "")];
     Get Site.root_url;
     Get Site.language_url;
     Get Site.module_url;
     Post enrol_url [("id", "3"); ("sesskey", "k9"); ("submitbutton", "Enrol me")];
     Sleep 1;
     Get Site.module_url;
     Get Site.unit_url;
     Get Site.article_url;
     Get "http://migranthealth.eu/etraining/theme/styles.php/clean/all";
     Get "http://migranthealth.eu/etraining/pix/Healthy%20Food.PNG"] /\
  exists channel,
    fst (construct_channel Site.getlang_by_name "user" "secret" Site.start) = Ok channel /\
    List.length (children_of channel) = 1.
Proof.
  split; [vm_compute; reflexivity |].
  eexists. split; vm_compute; reflexivity.
Qed.

(** * Further properties *)

(** ** make_request: retries, status codes, bounds *)

Lemma with_log_same w : with_log w (log w) = w.
Proof. now destruct w. Qed.

Lemma retry_trace_S url k :
  retry_trace url (S k) = retry_trace url k ++ [Get url; Sleep (S k)].
Proof. reflexivity. Qed.

Lemma make_request_loop_other fuel url retry_count w e :
  site w (log w) (Get url) = Failed e -> connection_or_timeout e = false ->
  make_request_loop (S fuel) url retry_count w = (Raise e, record (Get url) w).
Proof.
  intros Hs He. rewrite make_request_loop_S. unfold try_except, sess_get.
  now rewrite Hs, He.
Qed.

(** X1. After [k] failed attempts ([k] at most four), the first reply that
    is not a connection error or a read timeout ends [make_request]: a
    response is returned whatever its status code, any other exception is
    raised at once; the log holds the [k] requests with their sleeps of
    1, ..., [k] seconds and the last request, with no sleep after it. *)
Theorem make_request_retries (url : string) (w : World) (k : nat) (answer : reply) :
  k < max_retries ->
  (forall j, j < k -> retryable (site w (log w ++ retry_trace url j) (Get url)) = true) ->
  site w (log w ++ retry_trace url k) (Get url) = answer ->
  retryable answer = false ->
  make_request url w
  = (outcome answer, with_log w (log w ++ retry_trace url k ++ [Get url])).
Proof.
  intros Hk Hfail Hlast Hstop.
  assert (G : forall d retry_count fuel,
             retry_count + d = k -> d < fuel ->
             make_request_loop fuel url retry_count
               (with_log w (log w ++ retry_trace url retry_count))
             = (outcome answer, with_log w (log w ++ retry_trace url k ++ [Get url]))).
  { induction d as [|d IH]; intros rc fuel Hrc Hfuel;
      (destruct fuel as [|fuel]; [lia |]).
    - rewrite Nat.add_0_r in Hrc. subst rc.
      set (w0 := with_log w (log w ++ retry_trace url k)).
      assert (Hs : site w0 (log w0) (Get url) = answer) by exact Hlast.
      destruct answer as [r | e]; simpl outcome.
      + rewrite (make_request_loop_answered _ _ _ _ r Hs).
        unfold record, w0, with_log. simpl. now rewrite <- app_assoc.
      + rewrite (make_request_loop_other _ _ _ _ e Hs Hstop).
        unfold record, w0, with_log. simpl. now rewrite <- app_assoc.
    - set (w0 := with_log w (log w ++ retry_trace url rc)).
      assert (Hr : retryable (site w0 (log w0) (Get url)) = true)
        by (apply (Hfail rc); lia).
      destruct (site w0 (log w0) (Get url)) as [r | e] eqn:Hs; [discriminate |].
      rewrite (make_request_loop_failed _ _ _ _ e Hs Hr).
      destruct (Nat.leb_spec max_retries (rc + 1)) as [L | L]; [lia |].
      rewrite <- (IH (rc + 1) fuel) by lia.
      f_equal. unfold record, w0, with_log. simpl. f_equal.
      rewrite Nat.add_1_r, retry_trace_S. now rewrite <- !app_assoc. }
  unfold make_request. specialize (G k 0 max_retries eq_refl Hk).
  simpl retry_trace in G. rewrite app_nil_r, with_log_same in G. exact G.
Qed.

Lemma make_request_retries_witness :
  make_request "http://migranthealth.eu/etraining/" flaky_world
  = (Ok {| status_code := 404; content := "Not Found"; soup := [] |},
     with_log flaky_world
       (log flaky_world ++ retry_trace "http://migranthealth.eu/etraining/" 2 ++
        [Get "http://migranthealth.eu/etraining/"])).
Proof.
  apply (make_request_retries "http://migranthealth.eu/etraining/" flaky_world 2
           (Responded {| status_code := 404; content := "Not Found"; soup := [] |})).
  - unfold max_retries. lia.
  - intros j Hj. destruct j as [|[|j]]; [reflexivity | reflexivity | lia].
  - reflexivity.
  - reflexivity.
Defined.

Lemma make_request_loop_bounded fuel url :
  forall retry_count w,
    retry_count < max_retries ->
    exists evs,
      log (snd (make_request_loop fuel url retry_count w)) = log w ++ evs /\
      Forall (fun e => e = Get url \/
                       exists n, e = Sleep n /\ retry_count < n <= max_retries) evs /\
      List.length (filter is_get evs) <= fuel.
Proof.
  induction fuel as [|fuel IH]; intros rc w Hrc.
  - exists []. split; [simpl; now rewrite app_nil_r | split; [constructor | simpl; lia]].
  - destruct (site w (log w) (Get url)) as [r | e] eqn:Hs.
    + rewrite (make_request_loop_answered _ _ _ _ r Hs).
      exists [Get url]. split; [reflexivity |].
      split; [constructor; [now left | constructor] | simpl; lia].
    + destruct (connection_or_timeout e) eqn:He.
      * rewrite (make_request_loop_failed _ _ _ _ e Hs He).
        destruct (Nat.leb_spec max_retries (rc + 1)) as [L | L].
        -- exists [Get url; Sleep (rc + 1)]. split; [| split].
           ++ unfold bind, load_global, ret, raise.
              destruct (existsb _ module_globals); simpl; now rewrite <- app_assoc.
           ++ constructor; [now left |]. constructor; [| constructor].
              right. exists (rc + 1). split; [reflexivity | lia].
           ++ simpl. lia.
        -- destruct (IH (rc + 1) (record (Sleep (rc + 1)) (record (Get url) w)) L)
             as (evs & E & F & C).
           exists ([Get url; Sleep (rc + 1)] ++ evs). split; [| split].
           ++ rewrite E. simpl. now rewrite <- !app_assoc.
           ++ constructor; [now left |]. constructor.
              ** right. exists (rc + 1). split; [reflexivity | lia].
              ** eapply Forall_impl; [| exact F].
                 intros a [Ha | (n & Ha & Hn)]; [now left |].
                 right. exists n. split; [exact Ha | lia].
           ++ simpl. lia.
      * rewrite (make_request_loop_other _ _ _ _ e Hs He).
        exists [Get url]. split; [reflexivity |].
        split; [constructor; [now left | constructor] | simpl; lia].
Qed.

(** X2. Whatever the site does, [make_request url] requests [url] at most
    five times, requests nothing else, and sleeps between one and five
    seconds at a time. *)
Theorem make_request_bounded (url : string) (w : World) :
  exists evs,
    log (snd (make_request url w)) = log w ++ evs /\
    Forall (fun e => e = Get url \/ exists n, e = Sleep n /\ 1 <= n <= 5) evs /\
    List.length (filter is_get evs) <= 5.
Proof.
  destruct (make_request_loop_bounded max_retries url 0 w) as (evs & E & F & C);
    [unfold max_retries; lia |].
  exists evs. split; [exact E |]. split; [| exact C].
  eapply Forall_impl; [| exact F].
  intros a [Ha | (n & Ha & Hn)]; [now left |].
  right. exists n. split; [exact Ha | unfold max_retries in Hn; lia].
Qed.

(** ** truncate_metadata: applying it twice *)

Lemma take_append_all (a b : string) : PyStr.take (String.length a) (a ++ b) = a.
Proof. induction a as [|c a IH]; simpl; [now destruct b | now rewrite IH]. Qed.

(** X3. [truncate_metadata] is idempotent: a title that has been cut, marker
    included, is cut to itself. *)
Theorem truncate_metadata_idempotent (s : string) :
  truncate_metadata (truncate_metadata s) = truncate_metadata s.
Proof.
  unfold truncate_metadata at 2. unfold MAX_CHARS.
  destruct (Nat.ltb_spec 190 (String.length s)) as [L | L].
  - unfold truncate_metadata, MAX_CHARS.
    assert (H190 : String.length (PyStr.take 190 s) = 190)
      by (rewrite length_take; lia).
    rewrite length_append, H190.
    change (Nat.ltb 190 (190 + String.length " ...")) with true. cbv iota.
    pose proof (take_append_all (PyStr.take 190 s) " ...") as T.
    rewrite H190 in T. rewrite T.
    destruct (Nat.ltb_spec 190 (String.length s)); [reflexivity | lia].
  - unfold truncate_metadata, MAX_CHARS.
    destruct (Nat.ltb_spec 190 (String.length s)); [lia | reflexivity].
Qed.

(** ** derive_filename: the names it gives *)

Lemma has_char_append c (a b : string) :
  has_char c (a ++ b) = has_char c a || has_char c b.
Proof.
  induction a as [|d a IH]; simpl; [reflexivity |]. now rewrite IH, orb_assoc.
Qed.

Lemma lower_char_facts (c : ascii) :
  PyStr.lower_char (PyStr.lower_char c) = PyStr.lower_char c /\
  Ascii.eqb (PyStr.lower_char c) "/" = Ascii.eqb c "/" /\
  Ascii.eqb (PyStr.lower_char c) "%" = Ascii.eqb c "%".
Proof.
  destruct c as [b0 b1 b2 b3 b4 b5 b6 b7].
  destruct b0, b1, b2, b3, b4, b5, b6, b7; vm_compute; repeat split.
Qed.

Lemma lower_lower (s : string) : PyStr.lower (PyStr.lower s) = PyStr.lower s.
Proof.
  induction s as [|c s IH]; simpl; [reflexivity |].
  now rewrite IH, (proj1 (lower_char_facts c)).
Qed.

Lemma has_slash_lower (s : string) : has_char "/" (PyStr.lower s) = has_char "/" s.
Proof.
  induction s as [|c s IH]; simpl; [reflexivity |].
  now rewrite IH, (proj1 (proj2 (lower_char_facts c))).
Qed.

Lemma has_percent_lower (s : string) : has_char "%" (PyStr.lower s) = has_char "%" s.
Proof.
  induction s as [|c s IH]; simpl; [reflexivity |].
  now rewrite IH, (proj2 (proj2 (lower_char_facts c))).
Qed.

Lemma hex_digit_plain (n : N) :
  Ascii.eqb (hex_digit (N.land n 15)) "/" = false /\
  Ascii.eqb (hex_digit (N.land n 15)) "%" = false.
Proof.
  assert (H : (N.land n 15 < 16)%N).
  { change 15%N with (N.ones 4). rewrite N.land_ones. now apply N.mod_lt. }
  remember (N.land n 15) as d eqn:E. clear E n.
  assert (D : In d [0; 1; 2; 3; 4; 5; 6; 7; 8; 9; 10; 11; 12; 13; 14; 15]%N).
  { destruct d as [|p]; [now left |].
    do 16 (try (destruct p as [p | p |]; try lia)); simpl; tauto. }
  simpl in D.
  repeat (destruct D as [<- | D]; [split; reflexivity |]). contradiction.
Qed.

Lemma hex_plain (k : nat) (n : N) :
  has_char "/" (hex k n) = false /\ has_char "%" (hex k n) = false.
Proof.
  revert n. induction k as [|k IH]; intros n; [split; reflexivity |].
  change (hex (S k) n)
    with (hex k (N.shiftr n 4) ++ String (hex_digit (N.land n 15)) EmptyString)%string.
  rewrite !has_char_append. destruct (IH (N.shiftr n 4)) as [-> ->].
  destruct (hex_digit_plain n) as [H1 H2].
  cbn [has_char orb]. now rewrite H1, H2.
Qed.

Lemma replace_percent (s : string) :
  has_char "%" (PyStr.replace "%" "_" s) = false /\
  has_char "/" (PyStr.replace "%" "_" s) = has_char "/" s.
Proof.
  induction s as [|c s [IH1 IH2]]; [split; reflexivity |].
  simpl. rewrite IH1, IH2.
  destruct (Ascii.eqb_spec c "%") as [-> | N]; [split; reflexivity |].
  split; [| reflexivity]. rewrite orb_false_r. now apply Ascii.eqb_neq.
Qed.

(** [os.path.basename] leaves no slash. *)
Lemma basename_no_slash (p : string) : has_char "/" (basename p) = false.
Proof.
  unfold basename. induction p as [|d p IH]; [reflexivity |].
  cbn [PyStr.rfind].
  destruct (Z.leb_spec 0 (PyStr.rfind "/" p)) as [L | L].
  - replace (Z.to_nat (PyStr.rfind "/" p + 1 + 1))
      with (S (Z.to_nat (PyStr.rfind "/" p + 1))) by lia.
    exact IH.
  - replace (Z.to_nat (PyStr.rfind "/" p + 1)) with 0 in IH by lia.
    change (PyStr.drop 0 p) with p in IH.
    destruct (Ascii.eqb_spec d "/") as [-> | N].
    + exact IH.
    + change (Z.to_nat (-1 + 1)) with 0. cbn [PyStr.drop has_char].
      rewrite IH, orb_false_r. now apply Ascii.eqb_neq.
Qed.

(** What [urlparse] looks at is cut out of the URL: a character of the
    network location is a character of the URL. *)
Lemma has_char_drop c n (s : string) :
  has_char c (PyStr.drop n s) = true -> has_char c s = true.
Proof.
  revert s. induction n as [|n IH]; intros [|d s] H; try exact H.
  cbn [PyStr.drop] in H. cbn [has_char]. rewrite (IH _ H). apply orb_true_r.
Qed.

Lemma has_char_lstrip_c0 c (s : string) :
  has_char c (lstrip_c0 s) = true -> has_char c s = true.
Proof.
  induction s as [|d s IH]; intros H; [exact H |].
  cbn [lstrip_c0] in H. destruct (Nat.leb (nat_of_ascii d) 32); [| exact H].
  cbn [has_char]. rewrite (IH H). apply orb_true_r.
Qed.

Lemma has_char_remove_unsafe c (s : string) :
  has_char c (remove_unsafe s) = true -> has_char c s = true.
Proof.
  induction s as [|d s IH]; intros H; [exact H |].
  cbn [remove_unsafe] in H. cbn [has_char].
  destruct (_ || _) in H.
  - rewrite (IH H). apply orb_true_r.
  - cbn [has_char] in H. apply orb_true_iff in H as [H | H].
    + now rewrite H.
    + rewrite (IH H). apply orb_true_r.
Qed.

Lemma has_char_netloc_of c (s : string) :
  has_char c (netloc_of s) = true -> has_char c s = true.
Proof.
  induction s as [|d s IH]; intros H; [exact H |].
  cbn [netloc_of] in H. cbn [has_char].
  destruct (_ || _) in H; [discriminate |].
  cbn [has_char] in H. apply orb_true_iff in H as [H | H].
  - now rewrite H.
  - rewrite (IH H). apply orb_true_r.
Qed.

Lemma has_char_split_scheme c (s : string) :
  has_char c (snd (split_scheme s)) = true -> has_char c s = true.
Proof.
  unfold split_scheme. destruct (_ && _); cbn [snd]; [apply has_char_drop | auto].
Qed.

(** [urlparse] rejects a URL only for a square bracket in it. *)
Lemma urlparse_path_brackets (url : string) (e : exn) :
  urlparse_path url = Raise e ->
  has_char "[" url = true \/ has_char "]" url = true.
Proof.
  unfold urlparse_path, urlsplit.
  assert (Hrest : forall c,
             has_char c (snd (split_scheme (remove_unsafe (lstrip_c0 url)))) = true ->
             has_char c url = true).
  { intros c H.
    now apply has_char_lstrip_c0, has_char_remove_unsafe, has_char_split_scheme. }
  destruct (split_scheme (remove_unsafe (lstrip_c0 url))) as [scheme rest].
  cbn [snd] in Hrest.
  destruct (prefix "//" rest).
  - destruct (has_char "[" (netloc_of (PyStr.drop 2 rest))) eqn:B1.
    { intros _. left. eapply Hrest, has_char_drop, has_char_netloc_of, B1. }
    destruct (has_char "]" (netloc_of (PyStr.drop 2 rest))) eqn:B2.
    { intros _. right. eapply Hrest, has_char_drop, has_char_netloc_of, B2. }
    cbn [andb orb negb].
    destruct (_ && _); intros H; discriminate.
  - cbn [has_char andb orb negb].
    destruct (_ && _); intros H; discriminate.
Qed.

(** X4. [derive_filename] raises nothing but the [ValueError] of
    [urlparse], and that only for a URL that holds a square bracket.  Every
    name it gives is a single lower-case path component: it holds no slash
    and no percent sign, and lower-casing it changes nothing. *)
Theorem derive_filename_safe (url : string) (w : World) :
  match fst (derive_filename url w) with
  | Ok filename =>
      has_char "/" filename = false /\
      has_char "%" filename = false /\
      PyStr.lower filename = filename
  | Raise e =>
      e = ValueError /\
      urlparse_path url = Raise ValueError /\
      (has_char "[" url = true \/ has_char "]" url = true)
  end.
Proof.
  unfold derive_filename.
  destruct (String.eqb (last (PyStr.split "/" url) "") "all").
  - cbn [ret fst]. repeat split.
  - destruct (urlparse_path url) as [path | e] eqn:P;
      cbv beta iota delta [bind lift uuid4_hex ret fst].
    + set (token := hex 32 (uuid4_int (entropy w (drawn w)))).
      set (name := PyStr.replace "%" "_" (basename path)).
      split; [| split].
      * rewrite has_slash_lower, !has_char_append.
        unfold token. rewrite (proj1 (hex_plain 32 _)).
        unfold name. rewrite (proj2 (replace_percent _)), basename_no_slash. reflexivity.
      * rewrite has_percent_lower, !has_char_append.
        unfold token. rewrite (proj2 (hex_plain 32 _)).
        unfold name. rewrite (proj1 (replace_percent _)). reflexivity.
      * apply lower_lower.
    + pose proof (urlparse_path_raises _ _ P) as ->.
      split; [reflexivity |]. split; [reflexivity |].
      exact (urlparse_path_brackets _ _ P).
Qed.

(** Both outcomes occur: a name for an ordinary asset URL, [ValueError] for
    an unbalanced bracket in the host. *)
Example derive_filename_outcomes :
  fst (derive_filename "http://migranthealth.eu/etraining/pix/Healthy%20Food.PNG"
         silent_world)
    = Ok "00000000000040008000000000000000.healthy_20food.png" /\
  fst (derive_filename "http://[::1/a.png" silent_world) = Raise ValueError /\
  fst (derive_filename "http://[::1]/a.png" silent_world)
    = Ok "00000000000040008000000000000000.a.png".
Proof. repeat split; vm_compute; reflexivity. Qed.

(** ** The walker: what each level builds *)

Lemma first_string_stripped_ok tag w v w' :
  first_string_stripped tag w = (Ok v, w') ->
  exists t s rest,
    tag = Some t /\ contents_of t = NavigableString s :: rest /\
    v = PyStr.strip s /\ w' = w.
Proof.
  unfold first_string_stripped. destruct tag as [t |]; [| discriminate].
  destruct (contents_of t) as [|[u nm a cs | s] rest] eqn:C; try discriminate.
  intros H. apply ret_ok in H as [<- ->]. now exists t, s, rest.
Qed.

Lemma fetch_articles activities :
  forall i t l d cs w s' w',
    for_each activities
      (fun unit unit_node =>
         article_title <- first_string_stripped (select_one_in sel_instancename unit) ;;
         article_url <- item (select_one_in sel_a unit) "href" ;;
         article <- fetch_article article_url article_title ;;
         ret (add_child unit_node article))
      (TopicNode i t l d cs) w = (Ok s', w') ->
    exists articles,
      s' = TopicNode i t l d (cs ++ articles) /\
      Forall2 article_of_activity activities articles.
Proof.
  induction activities as [|activity activities IH]; intros i t l d cs w s' w' H.
  - apply ret_ok in H as [<- _]. exists []. split; [now rewrite app_nil_r | constructor].
  - cbn [for_each] in H. run_ok H as s1 w1 E1.
    run_ok E1 as article_title w2 E2. run_ok E1 as article_url w3 E3.
    run_ok E1 as article w4 E4. apply ret_ok in E1 as [<- _].
    apply first_string_stripped_ok in E2 as (instancename & text & rest & Hi & Hc & -> & _).
    apply item_ok in E3 as (link & Hl & Hhref & _).
    apply download_content_node_writes in E4 as (doc & destination & ->).
    apply IH in H as (articles & -> & Ha).
    eexists (_ :: articles). split; [now rewrite <- app_assoc |].
    constructor; [| exact Ha].
    exists instancename, text, rest, link, article_url. eexists.
    repeat split; assumption || reflexivity.
Qed.

(** X5. A unit node that [fetch_unit] returns keeps the url, the title and
    the description it was given, and has exactly one content node per
    page activity of the unit page, in document order: the id is the link
    of the activity, the title the first text fragment of its instance
    name, stripped and truncated. *)
Theorem fetch_unit_articles (url title description : string) (w : World)
    (node : tree_node) (w' : World) :
  fetch_unit url title description w = (Ok node, w') ->
  exists doc w0 articles,
    get_parsed_html_from_url url w = (Ok doc, w0) /\
    node = TopicNode url title (LangCode "en") (Some description) articles /\
    Forall2 article_of_activity (select sel_page_activities doc) articles.
Proof.
  unfold fetch_unit. intros H. run_ok H as doc w0 E0.
  apply fetch_articles in H as (articles & -> & Ha).
  now exists doc, w0, articles.
Qed.

Lemma fetch_unit_articles_witness :
  exists node,
    fst (fetch_unit Site.unit_url "Unit 3" "About needs" Site.settled) = Ok node /\
    exists doc w0 articles,
      get_parsed_html_from_url Site.unit_url Site.settled = (Ok doc, w0) /\
      node = TopicNode Site.unit_url "Unit 3" (LangCode "en") (Some "About needs")
               articles /\
      Forall2 article_of_activity (select sel_page_activities doc) articles.
Proof.
  eexists. split; [vm_compute; reflexivity |].
  eapply (fetch_unit_articles Site.unit_url "Unit 3" "About needs" Site.settled).
  vm_compute. reflexivity.
Defined.

Lemma fetch_modules courses :
  forall i t l d cs w s' w',
    for_each courses
      (fun course language_node =>
         let title := get_text course in
         url <- item (select_one_in sel_a course) "href" ;;
         module_node <- fetch_module url title ;;
         ret (add_child language_node module_node))
      (TopicNode i t l d cs) w = (Ok s', w') ->
    exists modules,
      s' = TopicNode i t l d (cs ++ modules) /\
      Forall2 module_of_course courses modules.
Proof.
  induction courses as [|course courses IH]; intros i t l d cs w s' w' H.
  - apply ret_ok in H as [<- _]. exists []. split; [now rewrite app_nil_r | constructor].
  - cbn [for_each] in H. run_ok H as s1 w1 E1. cbv zeta in E1.
    run_ok E1 as module_url w2 E2. run_ok E1 as module_node w3 E3.
    apply ret_ok in E1 as [<- _].
    apply item_ok in E2 as (link & Hl & Hhref & _).
    apply fetch_module_fields in E3 as (units & -> & _).
    apply IH in H as (modules & -> & Hm).
    eexists (_ :: modules). split; [now rewrite <- app_assoc |].
    constructor; [| exact Hm]. now exists link, module_url, units.
Qed.

(** X6. A language node that [fetch_language] returns has exactly one
    module node per course-name element of the language page, in document
    order: the id is the link of the element, the title its whole text,
    not stripped. *)
Theorem fetch_language_modules (url : string) (language : Language) (w : World)
    (node : tree_node) (w' : World) :
  fetch_language url (Some language) w = (Ok node, w') ->
  exists doc w0 modules,
    get_parsed_html_from_url url w = (Ok doc, w0) /\
    node = TopicNode (lang_code language) (lang_native_name language)
             (LangObject language) None modules /\
    Forall2 module_of_course (select sel_coursename doc) modules.
Proof.
  unfold fetch_language. intros H. run_ok H as doc w0 E0.
  apply fetch_modules in H as (modules & -> & Hm).
  now exists doc, w0, modules.
Qed.

Lemma fetch_language_modules_witness :
  exists node,
    fst (fetch_language Site.language_url (Some Site.english) Site.start) = Ok node /\
    exists doc w0 modules,
      get_parsed_html_from_url Site.language_url Site.start = (Ok doc, w0) /\
      node = TopicNode "en" "English" (LangObject Site.english) None modules /\
      Forall2 module_of_course (select sel_coursename doc) modules.
Proof.
  eexists. split; [vm_compute; reflexivity |].
  eapply (fetch_language_modules Site.language_url Site.english Site.start).
  vm_compute. reflexivity.
Defined.

(** ** The shape of the tree *)

Lemma truncate_metadata_length (s : string) : String.length (truncate_metadata s) <= 194.
Proof.
  unfold truncate_metadata, MAX_CHARS.
  destruct (Nat.ltb_spec 190 (String.length s)) as [L | L]; [| lia].
  rewrite length_append, length_take. change (String.length " ...") with 4. lia.
Qed.

Lemma articles_are_leaves activities articles :
  Forall2 article_of_activity activities articles -> Forall leaf_shape articles.
Proof.
  induction 1 as [|activity article activities articles Ha _ IH]; constructor; [| exact IH].
  destruct Ha as (instancename & text & rest & link & href & archive & _ & _ & _ & _ & ->).
  exists href, (truncate_metadata (PyStr.strip text)), archive.
  split; [reflexivity | apply truncate_metadata_length].
Qed.

Lemma fetch_unit_shape url title description w node w' :
  fetch_unit url title description w = (Ok node, w') -> unit_shape node.
Proof.
  unfold fetch_unit. intros H. run_ok H as doc w0 E0.
  apply fetch_articles in H as (articles & -> & Ha).
  exists url, title, description, articles.
  split; [reflexivity | now apply articles_are_leaves in Ha].
Qed.

Lemma fetch_module_shape url title w node w' :
  fetch_module url title w = (Ok node, w') -> module_shape node.
Proof.
  unfold fetch_module. intros H. run_ok H as doc0 w0 E0. run_ok H as doc w1 E1.
  enough (HI : exists units,
             node = TopicNode url title (LangCode "en") None units /\
             Forall unit_shape units)
    by (destruct HI as (units & -> & Hu); now exists url, title, units).
  eapply (for_each_keeps
            (fun s => exists units,
                        s = TopicNode url title (LangCode "en") None units /\
                        Forall unit_shape units)); [| | exact H].
  - clear. intros section s wa s' wb (units & -> & Hu) H.
    unfold fetch_section in H.
    destruct (select_one_in sel_section_title section) as [section_title |].
    + run_ok H as unit_url w1 E1. run_ok H as summary w2 E2. run_ok H as unit_node w3 E3.
      apply ret_ok in H as [<- _]. apply fetch_unit_shape in E3.
      eexists. split; [reflexivity |].
      apply Forall_app. split; [exact Hu | now constructor].
    + apply ret_ok in H as [<- _]. now exists units.
  - exists []. split; [reflexivity | constructor].
Qed.

Lemma fetch_language_shape url language w node w' :
  fetch_language url language w = (Ok node, w') -> language_shape node.
Proof.
  unfold fetch_language. destruct language as [l |]; [| discriminate].
  intros H. run_ok H as doc w0 E0.
  enough (HI : exists modules,
             node = TopicNode (lang_code l) (lang_native_name l)
                      (LangObject l) None modules /\
             Forall module_shape modules)
    by (destruct HI as (modules & -> & Hm); now exists l, modules).
  eapply (for_each_keeps
            (fun s => exists modules,
                        s = TopicNode (lang_code l) (lang_native_name l)
                              (LangObject l) None modules /\
                        Forall module_shape modules)); [| | exact H].
  - clear. intros course s wa s' wb (modules & -> & Hm) H.
    run_ok H as module_url w1 E1. run_ok H as module_node w2 E2.
    apply ret_ok in H as [<- _]. apply fetch_module_shape in E2.
    eexists. split; [reflexivity |].
    apply Forall_app. split; [exact Hm | now constructor].
  - exists []. split; [reflexivity | constructor].
Qed.

(** X7. The channel that [construct_channel] returns is the channel of
    [channel_info] with four levels below it: language topics carrying
    their language, module topics and unit topics tagged ["en"], and
    content nodes under the units only, each with the MEET license, one
    file, the tag ["en"] and a title of at most 194 characters. *)
Theorem crawl_tree_shape (getlang_by_name : string -> option Language)
    (meet_username meet_password : string) (w : World)
    (channel : tree_node) (w' : World) :
  construct_channel getlang_by_name meet_username meet_password w = (Ok channel, w') ->
  exists languages,
    channel = ChannelNode "migranthealth.eu" "meet-migrant-health"
                "MEET Community Health Training for Migrants" "thumbnail.png"
                "An initiative of the European Commission's Lifelong Learning Initiative for community health educators"
                "en" languages /\
    Forall language_shape languages.
Proof.
  unfold construct_channel, fetch_all_languages, get_channel. intros H.
  run_ok H as u w0 E0. run_ok H as doc w1 E1.
  eapply (for_each_keeps
            (fun s => exists languages,
                        s = ChannelNode "migranthealth.eu" "meet-migrant-health"
                              "MEET Community Health Training for Migrants"
                              "thumbnail.png"
                              "An initiative of the European Commission's Lifelong Learning Initiative for community health educators"
                              "en" languages /\
                        Forall language_shape languages)); [| | exact H].
  - clear. intros link s wa s' wb (languages & -> & Hl) H.
    unfold fetch_language_link in H.
    run_ok H as url w1 E1. run_ok H as language_node w2 E2.
    apply ret_ok in H as [<- _]. apply fetch_language_shape in E2.
    eexists. split; [reflexivity |].
    apply Forall_app. split; [exact Hl | now constructor].
  - exists []. split; [reflexivity | constructor].
Qed.

Lemma crawl_tree_shape_witness :
  exists channel,
    fst (construct_channel Site.getlang_by_name "user" "secret" Site.start) = Ok channel /\
    exists languages,
      channel = ChannelNode "migranthealth.eu" "meet-migrant-health"
                  "MEET Community Health Training for Migrants" "thumbnail.png"
                  "An initiative of the European Commission's Lifelong Learning Initiative for community health educators"
                  "en" languages /\
      Forall language_shape languages.
Proof.
  eexists. split; [vm_compute; reflexivity |].
  eapply (crawl_tree_shape Site.getlang_by_name "user" "secret" Site.start).
  vm_compute. reflexivity.
Defined.

(** ** The requests of the crawl *)

Lemma grows_weaken {A} (P Q : event -> Prop) (m : M A) :
  (forall e, P e -> Q e) -> grows P m -> grows Q m.
Proof.
  intros HPQ Hm w. destruct (Hm w) as (evs & E & F).
  exists evs. split; [exact E |]. eapply Forall_impl; [exact HPQ | exact F].
Qed.

Lemma no_post_only_enrol e : no_post e -> only_enrol e.
Proof. destruct e; simpl; tauto. Qed.

Lemma grows_collect_post_values P inputs : grows P (collect_post_values inputs).
Proof.
  unfold collect_post_values. apply grows_for_each. intros element acc _.
  destruct (has_attr "value" element); [| apply grows_ret].
  apply grows_bind; [apply grows_item |]. intros key.
  apply grows_bind; [apply grows_item | intros; apply grows_ret].
Qed.

Lemma grows_enroll url doc : grows only_enrol (enroll url doc).
Proof.
  unfold enroll. destruct (select_one sel_form doc) as [form |]; [| apply grows_ret].
  apply grows_bind; [apply grows_item |]. intros action.
  destruct (String.eqb_spec action enrol_url) as [-> | N]; [| apply grows_ret].
  apply grows_bind; [apply grows_collect_post_values |]. intros post_values.
  apply grows_bind; [now apply grows_sess_post |]. intros _.
  apply grows_bind; [now apply grows_sleep |]. intros _.
  now apply grows_get_parsed_html_from_url.
Qed.

Lemma grows_fetch_module url title : grows only_enrol (fetch_module url title).
Proof.
  unfold fetch_module.
  apply grows_bind; [now apply grows_get_parsed_html_from_url |]. intros doc0.
  apply grows_bind; [apply grows_enroll |]. intros doc.
  apply grows_for_each. intros section s _.
  apply (grows_weaken no_post); [exact no_post_only_enrol | apply grows_fetch_section].
Qed.

Lemma grows_fetch_language url language : grows only_enrol (fetch_language url language).
Proof.
  unfold fetch_language. destruct language as [l |]; [| apply grows_raise].
  apply grows_bind; [now apply grows_get_parsed_html_from_url |]. intros doc.
  apply grows_for_each. intros course s _.
  apply grows_bind; [apply grows_item |]. intros module_url.
  apply grows_bind; [apply grows_fetch_module | intros; apply grows_ret].
Qed.

(** X8. Whatever the site answers, the crawl starts with the login POST,
    carrying the user name, the password, [rememberusername] 1 and an
    empty [anchor]; every other form it submits goes to the enrollment
    endpoint. *)
Theorem crawl_posts (getlang_by_name : string -> option Language)
    (meet_username meet_password : string) (w : World) :
  exists rest,
    log (snd (construct_channel getlang_by_name meet_username meet_password w))
    = log w ++
      Post "http://migranthealth.eu/etraining/login/index.php"
        [("username", meet_username); ("password", meet_password);
         ("rememberusername", "1"); ("anchor", "")] :: rest /\
    Forall only_enrol rest.
Proof.
  unfold construct_channel, login_to_meet.
  set (login := Post "http://migranthealth.eu/etraining/login/index.php"
                  [("username", meet_username); ("password", meet_password);
                   ("rememberusername", "1"); ("anchor", "")]).
  assert (G : grows only_enrol (fetch_all_languages getlang_by_name get_channel)).
  { unfold fetch_all_languages.
    apply grows_bind; [now apply grows_get_parsed_html_from_url |]. intros doc.
    apply grows_for_each. intros link s _. unfold fetch_language_link.
    apply grows_bind; [apply grows_item |]. intros url.
    apply grows_bind; [apply grows_fetch_language | intros; apply grows_ret]. }
  unfold bind at 1 2. unfold sess_post. fold login.
  destruct (site w (log w) login) as [r | e].
  - unfold ret at 1. destruct (G (record login w)) as (rest & E & F).
    exists rest. split; [| exact F].
    rewrite E, log_record. now rewrite <- app_assoc.
  - exists []. split; [reflexivity | constructor].
Qed.

(** ** Enrollment: lookup failures and the fields of the form *)

Lemma bind_assoc {A B C} (m : M A) (k : A -> M B) (h : B -> M C) w :
  bind (bind m k) h w = bind m (fun a => bind (k a) h) w.
Proof.
  unfold bind. destruct (m w) as [[a | e] w1]; reflexivity.
Qed.

Lemma collect_post_values_nameless inputs :
  existsb nameless_valued inputs = true ->
  forall w, collect_post_values inputs w = (Raise (KeyError "name"), w).
Proof.
  unfold collect_post_values. generalize (@nil (string * string)) as acc.
  induction inputs as [|element inputs IH]; intros acc H w; [discriminate |].
  cbn [existsb for_each] in *. unfold nameless_valued, has_attr in H.
  unfold bind at 1. unfold has_attr, item. cbn [attrs_of].
  destruct (get_attr "value" (attrs_of element)) as [value |] eqn:V;
    [destruct (get_attr "name" (attrs_of element)) as [key |] eqn:K |].
  - cbn [andb negb orb] in H. unfold bind, ret. now apply IH.
  - reflexivity.
  - cbn [andb orb] in H. unfold ret. now apply IH.
Qed.

(** X9. When the module page carries a [form#mform1] without an [action]
    attribute, [fetch_module] raises [KeyError] on [action]; when the
    enrollment form has an input with a value and no name, it raises
    [KeyError] on [name].  In both cases nothing has been posted: the world
    is as the first fetch of the page left it. *)
Theorem fetch_module_enrollment_failures (url title : string) (w : World)
    (doc : document) (w0 : World) :
  get_parsed_html_from_url url w = (Ok doc, w0) ->
  (forall form,
      select_one sel_form doc = Some form ->
      get_attr "action" (attrs_of form) = None ->
      fetch_module url title w = (Raise (KeyError "action"), w0)) /\
  (enrollment_needed doc = true ->
   existsb nameless_valued (select sel_form_inputs doc) = true ->
   fetch_module url title w = (Raise (KeyError "name"), w0)).
Proof.
  intros E0. unfold fetch_module. rewrite (bind_step _ _ _ _ _ E0). split.
  - intros form Hf Ha. unfold bind at 1. unfold enroll. rewrite Hf.
    unfold bind, item. cbn [attrs_of]. now rewrite Ha.
  - unfold enrollment_needed. intros Hn Hbad. unfold bind at 1. unfold enroll.
    destruct (select_one sel_form doc) as [form |]; [| discriminate].
    unfold bind at 1. unfold item.
    destruct (get_attr "action" (attrs_of form)) as [action |]; [| discriminate].
    unfold ret at 1. rewrite Hn. unfold bind at 1.
    now rewrite (collect_post_values_nameless _ Hbad).
Qed.

Lemma fetch_module_enrollment_failures_witness :
  fetch_module "http://migranthealth.eu/etraining/course/view.php?id=3" "Module 1"
    nameless_form_world
  = (Raise (KeyError "name"),
     record (Get "http://migranthealth.eu/etraining/course/view.php?id=3")
       nameless_form_world).
Proof.
  apply (proj2 (fetch_module_enrollment_failures
                  "http://migranthealth.eu/etraining/course/view.php?id=3" "Module 1"
                  nameless_form_world nameless_form_page
                  (record (Get "http://migranthealth.eu/etraining/course/view.php?id=3")
                     nameless_form_world) eq_refl)).
  - reflexivity.
  - reflexivity.
Defined.

Lemma for_each_keeps_in {A S} (I : S -> Prop) (xs : list A) (body : A -> S -> M S) :
  (forall x s w s' w', In x xs -> I s -> body x s w = (Ok s', w') -> I s') ->
  forall s w s' w', I s -> for_each xs body s w = (Ok s', w') -> I s'.
Proof.
  induction xs as [|x xs IH]; intros Hbody s w s' w' Hs H.
  - apply ret_ok in H as [<- _]. exact Hs.
  - simpl in H. run_ok H as s1 w1 E.
    eapply IH; [| | exact H].
    + intros y t v t' v' Hy. apply Hbody. now right.
    + eapply Hbody; [now left | exact Hs | exact E].
Qed.

Lemma in_keys_set_attr key value d x :
  In x (map fst (set_attr key value d)) -> x = key \/ In x (map fst d).
Proof.
  induction d as [|[k0 v0] d IH]; simpl.
  - intros [H | []]. now left.
  - destruct (String.eqb_spec k0 key) as [-> | N]; simpl.
    + intros [H | H]; [now left | right; now right].
    + intros [H | H]; [right; now left |]. destruct (IH H); [now left | right; now right].
Qed.

Lemma set_attr_keeps_distinct key value d :
  NoDup (map fst d) -> NoDup (map fst (set_attr key value d)).
Proof.
  induction d as [|[k0 v0] d IH]; simpl; intros ND.
  - constructor; [intros [] | constructor].
  - inversion ND as [|? ? Hk Hd]; subst.
    destruct (String.eqb_spec k0 key) as [-> | N]; simpl.
    + now constructor.
    + constructor; [| now apply IH].
      intros H. apply in_keys_set_attr in H as [H | H]; [congruence | contradiction].
Qed.

(** The step of the loop of lines 139-141. *)
Lemma post_value_step element acc w acc' w' :
  (if has_attr "value" element
   then key <- item (Some element) "name" ;;
        value <- item (Some element) "value" ;;
        ret (set_attr key value acc)
   else ret acc) w = (Ok acc', w') ->
  (has_attr "value" element = false /\ acc' = acc) \/
  (exists key value,
      get_attr "name" (attrs_of element) = Some key /\
      get_attr "value" (attrs_of element) = Some value /\
      acc' = set_attr key value acc).
Proof.
  destruct (has_attr "value" element); intros H.
  - right. run_ok H as key w1 E1. run_ok H as value w2 E2.
    apply ret_ok in H as [<- _].
    apply item_ok in E1 as (t & Ht & Hk & _). inversion Ht; subst t.
    apply item_ok in E2 as (t & Ht' & Hv & _). inversion Ht'; subst t.
    now exists key, value.
  - left. apply ret_ok in H as [<- _]. now split.
Qed.

(** X10. The fields of the enrollment POST are a dictionary: no name occurs
    twice, and under each name stands the value of the last input of that
    name that carries a value. *)
Theorem post_values_are_a_dict (inputs : list node) (w : World)
    (fields : list (string * string)) (w' : World) :
  collect_post_values inputs w = (Ok fields, w') ->
  NoDup (map fst fields) /\
  (forall earlier input later key value,
      inputs = earlier ++ input :: later ->
      get_attr "name" (attrs_of input) = Some key ->
      get_attr "value" (attrs_of input) = Some value ->
      (forall other, In other later -> has_attr "value" other = true ->
                     get_attr "name" (attrs_of other) <> Some key) ->
      get_attr key fields = Some value).
Proof.
  unfold collect_post_values. intros H. split.
  - eapply (for_each_keeps (fun acc => NoDup (map fst acc))); [| | exact H].
    + clear. intros element acc w acc' w' ND Hstep.
      apply post_value_step in Hstep as [[_ ->] | (key & value & _ & _ & ->)];
        [exact ND | now apply set_attr_keeps_distinct].
    + constructor.
  - intros earlier input later key value -> Hname Hvalue Hlater.
    rewrite for_each_app in H. run_ok H as acc1 w1 E1.
    cbn [for_each] in H. run_ok H as acc2 w2 E2.
    apply post_value_step in E2 as [[Hno _] | (key' & value' & Hk & Hv & ->)].
    { unfold has_attr in Hno. now rewrite Hvalue in Hno. }
    rewrite Hname in Hk. rewrite Hvalue in Hv.
    inversion Hk; subst key'. inversion Hv; subst value'.
    eapply (for_each_keeps_in (fun acc => get_attr key acc = Some value)); [| | exact H].
    + intros other acc w3 acc' w4 Hin Hacc Hstep.
      apply post_value_step in Hstep as [[_ ->] | (k & v & Hk' & Hv' & ->)]; [exact Hacc |].
      rewrite get_set_attr_other; [exact Hacc |].
      intros <-. apply (Hlater other Hin); [| exact Hk'].
      unfold has_attr. now rewrite Hv'.
    + apply get_set_attr.
Qed.

Lemma post_values_are_a_dict_witness :
  exists fields,
    fst (collect_post_values repeated_inputs silent_world) = Ok fields /\
    NoDup (map fst fields) /\
    get_attr "id" fields = Some "4".
Proof.
  eexists. split; [vm_compute; reflexivity |].
  pose proof (post_values_are_a_dict repeated_inputs silent_world
                [("id", "4"); ("sesskey", "k9")] silent_world eq_refl) as [ND Hlast].
  split; [exact ND |].
  apply (Hlast [Tag 1 "input" [("name", "id"); ("value", "3")] [];
                Tag 2 "input" [("name", "sesskey"); ("value", "k9")] []]
               (Tag 3 "input" [("name", "id"); ("value", "4")] [])
               [Tag 4 "input" [("name", "sesskey")] []] "id" "4");
    try reflexivity.
  intros other [<- | []] Hv. discriminate Hv.
Defined.

(** ** A section that cannot be read *)

(** X11. A titled section whose title holds no link raises [TypeError]
    without a request; and an exception raised in a section ends
    [fetch_module] there: the sections after it are not visited and the
    units built before it are not returned. *)
Theorem fetch_module_stops_at_section (url title : string) (w : World)
    (doc : document) (w1 : World) (earlier : list node) (section : node)
    (later : list node) (built : tree_node) (w2 : World) (e : exn) (w3 : World) :
  module_document url w = (Ok doc, w1) ->
  select sel_sections doc = earlier ++ section :: later ->
  for_each earlier fetch_section (TopicNode url title (LangCode "en") None []) w1
    = (Ok built, w2) ->
  fetch_section section built w2 = (Raise e, w3) ->
  fetch_module url title w = (Raise e, w3) /\
  (forall section_title,
      select_one_in sel_section_title section = Some section_title ->
      select_one_in sel_a section_title = None ->
      e = TypeError /\ w3 = w2).
Proof.
  intros Hdoc Hsel Hearlier Hsection. split.
  - unfold fetch_module. unfold module_document in Hdoc.
    rewrite <- bind_assoc. rewrite (bind_step _ _ _ _ _ Hdoc).
    rewrite Hsel, for_each_app. rewrite (bind_step _ _ _ _ _ Hearlier).
    cbn [for_each]. unfold bind at 1. now rewrite Hsection.
  - intros section_title Ht Ha. unfold fetch_section in Hsection.
    rewrite Ht in Hsection. unfold bind at 1 in Hsection. rewrite Ha in Hsection.
    unfold item, raise in Hsection. inversion Hsection. now split.
Qed.

Lemma fetch_module_stops_at_section_witness :
  fetch_module "http://migranthealth.eu/etraining/course/view.php?id=9" "Module 9"
    linkless_world
  = (Raise TypeError,
     record (Get "http://migranthealth.eu/etraining/course/view.php?id=9")
       linkless_world).
Proof.
  apply (proj1 (fetch_module_stops_at_section
                  "http://migranthealth.eu/etraining/course/view.php?id=9" "Module 9"
                  linkless_world linkless_module_page
                  (record (Get "http://migranthealth.eu/etraining/course/view.php?id=9")
                     linkless_world)
                  [Tag 3 "li" [("class", "section main")] []]
                  (Tag 4 "li" [("class", "section main")]
                     [Tag 5 "h3" [("class", "section-title")] [NavigableString "General"];
                      Tag 6 "div" [("class", "summarytext")] [NavigableString "About"]])
                  [Tag 7 "li" [("class", "section main")] []]
                  (TopicNode "http://migranthealth.eu/etraining/course/view.php?id=9"
                     "Module 9" (LangCode "en") None [])
                  (record (Get "http://migranthealth.eu/etraining/course/view.php?id=9")
                     linkless_world)
                  TypeError
                  (record (Get "http://migranthealth.eu/etraining/course/view.php?id=9")
                     linkless_world)
                  eq_refl eq_refl eq_refl eq_refl)).
Defined.

(** ** Sanitizing: what stays and what goes *)

(** X12. A page on which none of the fourteen selectors matches comes out
    of the sanitizer as it went in. *)
Theorem sanitize_clean_page (doc : document) :
  (forall sel, In sel nodes_to_remove -> select sel doc = []) ->
  sanitize doc = doc.
Proof.
  unfold sanitize. generalize nodes_to_remove as sels.
  induction sels as [|sel sels IH]; intros H; [reflexivity |].
  change (remove_all (sel :: sels) doc) with (remove_all sels (remove_selected doc sel)).
  replace (remove_selected doc sel) with doc
    by (unfold remove_selected; now rewrite (H sel (or_introl eq_refl))).
  apply IH. intros s Hs. apply H. now right.
Qed.

Lemma sanitize_clean_page_witness : sanitize plain_page = plain_page.
Proof.
  apply sanitize_clean_page.
  intros sel Hin. unfold nodes_to_remove in Hin. simpl in Hin.
  repeat (destruct Hin as [<- | Hin]; [reflexivity |]). contradiction.
Defined.

Lemma uids_prune_node_incl doomed n :
  is_doomed doomed n = false -> incl (uids_node (prune_node doomed n)) (uids_node n).
Proof. intros Hd u Hu. now apply (uids_prune_node doomed n u Hu Hd). Qed.

Lemma uids_prune_incl doomed l : incl (uids (prune doomed l)) (uids l).
Proof. intros u Hu. now apply uids_prune in Hu. Qed.

(** Pruning keeps the uids distinct. *)
Lemma prune_distinct_list doomed l :
  Forall (fun n => NoDup (uids_node n) -> NoDup (uids_node (prune_node doomed n))) l ->
  NoDup (uids l) -> NoDup (uids (prune doomed l)).
Proof.
  intros Hl. forest_from_trees l Hl; intros ND; [exact ND |].
  rewrite uids_cons in ND. rewrite prune_cons.
  destruct (is_doomed doomed c) eqn:Ec.
  - apply IHl. now apply NoDup_app_remove_l in ND.
  - rewrite uids_cons. apply NoDup_app.
    + apply Hc. now apply NoDup_app_remove_r in ND.
    + apply IHl. now apply NoDup_app_remove_l in ND.
    + intros a H1 H2. apply (NoDup_app_disjoint _ _ ND a).
      * now apply (uids_prune_node_incl doomed c Ec).
      * now apply (uids_prune_incl doomed l).
Qed.

Lemma prune_distinct_node doomed n :
  NoDup (uids_node n) -> NoDup (uids_node (prune_node doomed n)).
Proof.
  induction n as [s | u nm a cs IH] using node_forall_ind; [intros H; exact H |].
  rewrite prune_node_tag, !uids_node_tag. intros ND.
  inversion ND as [|? ? Hu Hcs]; subst. constructor.
  - intros H. apply Hu. now apply (uids_prune_incl doomed cs).
  - now apply prune_distinct_list.
Qed.

Lemma prune_distinct doomed l : NoDup (uids l) -> NoDup (uids (prune doomed l)).
Proof.
  apply prune_distinct_list, Forall_forall. intros n _. apply prune_distinct_node.
Qed.

Lemma remove_all_distinct sels doc :
  NoDup (uids doc) -> NoDup (uids (remove_all sels doc)).
Proof.
  revert doc. induction sels as [|s sels IH]; intros doc ND; [exact ND |].
  simpl. apply IH. rewrite remove_selected_prune. now apply prune_distinct.
Qed.

(** X13. The sanitizer only takes away: every element of its output was in
    the page, with the attributes it had there, and elements that were
    distinct stay distinct. *)
Theorem sanitize_only_removes (doc : document) :
  incl (uids (sanitize doc)) (uids doc) /\
  (forall u, incl (attrs_at u (sanitize doc)) (attrs_at u doc)) /\
  (NoDup (uids doc) -> NoDup (uids (sanitize doc))).
Proof.
  split; [| split].
  - intros u Hu. unfold sanitize in Hu. now apply uids_remove_all in Hu.
  - intros u. apply attrs_at_sanitize.
  - apply remove_all_distinct.
Qed.

(** What [select] returns are tags of the forest it searched. *)
Lemma select_within_list sel l :
  Forall (fun c => forall ancs seen n,
            In n (select_node sel ancs seen c) ->
            (exists u, uid_of n = Some u) /\ (n = c \/ within n (contents_of c))) l ->
  forall ancs seen n,
    In n (select_list sel ancs seen l) -> (exists u, uid_of n = Some u) /\ within n l.
Proof.
  intros Hl. forest_from_trees l Hl; intros ancs seen n Hn; [contradiction |].
  rewrite select_list_cons, in_app_iff in Hn. destruct Hn as [Hn | Hn].
  - destruct (Hc ancs seen n Hn) as [Hu [-> | Hw]].
    + split; [exact Hu | apply within_here; now left].
    + split; [exact Hu |]. destruct c as [u nm a cs | s].
      * apply (within_below n u nm a cs); [now left | exact Hw].
      * simpl in Hw. inversion Hw as [? Hin | ? ? ? ? ? Hin ?]; destruct Hin.
  - destruct (IHl ancs (push_seen c seen) n Hn) as [Hu Hw]. split; [exact Hu |].
    inversion Hw as [? Hin | u nm a cs ? Hin Hb]; subst.
    + apply within_here. now right.
    + apply (within_below n u nm a cs); [now right | exact Hb].
Qed.

Lemma select_within_node sel c :
  forall ancs seen n,
    In n (select_node sel ancs seen c) ->
    (exists u, uid_of n = Some u) /\ (n = c \/ within n (contents_of c)).
Proof.
  induction c as [s | u nm a cs IH] using node_forall_ind; intros ancs seen n Hn.
  - contradiction.
  - rewrite select_node_tag in Hn. cbv zeta in Hn. rewrite in_app_iff in Hn.
    destruct Hn as [Hn | Hn].
    + destruct (matches sel _ ancs); [| contradiction].
      destruct Hn as [<- | []]. split; [now exists u | now left].
    + destruct (select_within_list sel cs IH _ _ n Hn) as [Hu Hw].
      split; [exact Hu | now right].
Qed.

Lemma select_within sel doc n :
  In n (select sel doc) -> (exists u, uid_of n = Some u) /\ within n doc.
Proof.
  unfold select. apply select_within_list, Forall_forall.
  intros c _. apply select_within_node.
Qed.

Lemma uids_of_member n l : In n l -> incl (uids_node n) (uids l).
Proof.
  induction l as [|c l IH]; intros Hin; [contradiction |].
  rewrite uids_cons. destruct Hin as [-> | Hin].
  - now apply incl_appl.
  - apply incl_appr. now apply IH.
Qed.

Lemma uids_within n l : within n l -> incl (uids_node n) (uids l).
Proof.
  induction 1 as [l Hin | u nm a cs l Hin Hw IH].
  - now apply uids_of_member.
  - intros v Hv. apply (uids_of_member _ _ Hin). rewrite uids_node_tag.
    right. now apply IH.
Qed.

(** A uid that lives in the top-level node [m] and is not in what pruning
    leaves of [m] is not in the pruned forest. *)
Lemma prune_excludes doomed l m v :
  In m l -> NoDup (uids l) -> In v (uids_node m) ->
  (is_doomed doomed m = true \/ ~ In v (uids_node (prune_node doomed m))) ->
  ~ In v (uids (prune doomed l)).
Proof.
  induction l as [|c l IH]; intros Hin ND Hv Hm; [contradiction |].
  rewrite uids_cons in ND. rewrite prune_cons.
  assert (Hdis := NoDup_app_disjoint _ _ ND).
  destruct Hin as [-> | Hin].
  - assert (Hl : ~ In v (uids (prune doomed l))).
    { intros H. apply (Hdis v Hv). now apply (uids_prune_incl doomed l). }
    destruct (is_doomed doomed m) eqn:Em; [exact Hl |].
    destruct Hm as [Hm | Hm]; [discriminate |].
    rewrite uids_cons, in_app_iff. tauto.
  - assert (Hvl : In v (uids l)) by now apply (uids_of_member m l Hin).
    assert (Hrest : ~ In v (uids (prune doomed l))).
    { apply IH; [exact Hin | now apply NoDup_app_remove_l in ND | exact Hv | exact Hm]. }
    destruct (is_doomed doomed c) eqn:Ec; [exact Hrest |].
    rewrite uids_cons, in_app_iff. intros [H | H]; [| now apply Hrest].
    apply (Hdis v); [| exact Hvl]. now apply (uids_prune_node_incl doomed c Ec).
Qed.

Lemma prune_removes_below doomed n l :
  within n l -> NoDup (uids l) -> is_doomed doomed n = true ->
  forall v, In v (uids_node n) -> ~ In v (uids (prune doomed l)).
Proof.
  induction 1 as [l Hin | u nm a cs l Hin Hw IH]; intros ND Hd v Hv.
  - apply (prune_excludes doomed l n v Hin ND Hv). now left.
  - assert (NDp : NoDup (uids_node (Tag u nm a cs))).
    { clear - Hin ND. induction l as [|c l IHl]; [contradiction |].
      rewrite uids_cons in ND. destruct Hin as [-> | Hin].
      - now apply NoDup_app_remove_r in ND.
      - apply IHl; [exact Hin | now apply NoDup_app_remove_l in ND]. }
    rewrite uids_node_tag in NDp. inversion NDp as [|? ? Hu Hcs]; subst.
    assert (Hvcs : In v (uids cs)) by now apply (uids_within n cs Hw).
    apply (prune_excludes doomed l (Tag u nm a cs) v Hin ND).
    + rewrite uids_node_tag. now right.
    + right. rewrite prune_node_tag, uids_node_tag. intros [<- | H].
      * contradiction.
      * now apply (IH Hcs Hd v Hv).
Qed.

(** X14. An element that a selector matches is removed with everything
    inside it: in a page whose elements are distinct, no element below one
    that was selected reaches the output. *)
Theorem sanitize_removes_contents (doc : document) (pre : list selector)
    (sel : selector) (post : list selector) (n : node) (v : nat) :
  NoDup (uids doc) ->
  nodes_to_remove = pre ++ sel :: post ->
  In n (select sel (remove_all pre doc)) ->
  In v (uids_node n) ->
  ~ In v (uids (sanitize doc)).
Proof.
  intros ND E Hn Hv H. unfold sanitize in H. rewrite E, remove_all_app in H.
  simpl in H. apply uids_remove_all in H. rewrite remove_selected_prune in H.
  destruct (select_within _ _ _ Hn) as [(u & Hu) Hw].
  revert H. apply (prune_removes_below _ n); [exact Hw | | | exact Hv].
  - now apply remove_all_distinct.
  - destruct n as [x nm a cs | s]; [| discriminate]. simpl in Hu. inversion Hu; subst x.
    simpl. apply (doomed_by_selected _ (Tag u nm a cs) u Hn eq_refl).
Qed.

Lemma sanitize_removes_contents_witness :
  ~ In 5 (uids (sanitize footer_page)).
Proof.
  apply (sanitize_removes_contents footer_page
           (firstn 8 nodes_to_remove) [by_class ["footer-rts"]] (skipn 9 nodes_to_remove)
           (Tag 2 "div" [("class", "footer-rts")]
              [Tag 3 "ul" []
                 [Tag 4 "li" []
                    [Tag 5 "a" [("href", "/etraining/")] [NavigableString "Home"]]]]) 5).
  - vm_compute. repeat (constructor; [simpl; intuition discriminate |]). constructor.
  - reflexivity.
  - vm_compute. tauto.
  - vm_compute. tauto.
Defined.

(** ** Names: tokens and language labels *)

Lemma length_hex (k : nat) (n : N) : String.length (hex k n) = k.
Proof.
  revert n. induction k as [|k IH]; intros n; [reflexivity |].
  change (hex (S k) n)
    with (hex k (N.shiftr n 4) ++ String (hex_digit (N.land n 15)) EmptyString)%string.
  rewrite length_append, IH. simpl. lia.
Qed.

Lemma append_same_length (a a' b b' : string) :
  String.length a = String.length a' -> (a ++ b)%string = (a' ++ b')%string -> a = a'.
Proof.
  revert a'. induction a as [|c a IH]; intros [|c' a'] L E; simpl in *;
    try discriminate; [reflexivity |].
  inversion E; subst. f_equal. apply IH; [lia | assumption].
Qed.

(** X15. Two names that [derive_filename] returns with different tokens
    are different, whatever the URLs: the token keeps assets of the same
    basename apart. *)
Theorem derive_filename_distinct (url1 url2 : string) (w1 w2 : World)
    (name1 name2 : string) :
  last_piece url1 <> "all" -> last_piece url2 <> "all" ->
  next_token w1 <> next_token w2 ->
  fst (derive_filename url1 w1) = Ok name1 ->
  fst (derive_filename url2 w2) = Ok name2 ->
  name1 <> name2.
Proof.
  unfold last_piece, next_token, derive_filename. intros H1 H2 Ht.
  destruct (String.eqb_spec (last (PyStr.split "/" url1) "") "all") as [E | _];
    [contradiction |].
  destruct (String.eqb_spec (last (PyStr.split "/" url2) "") "all") as [E | _];
    [contradiction |].
  destruct (urlparse_path url1) as [path1 | e1];
    [| cbv beta iota delta [bind lift fst]; discriminate].
  destruct (urlparse_path url2) as [path2 | e2];
    [| cbv beta iota delta [bind lift fst]; discriminate].
  cbv beta iota delta [bind lift uuid4_hex ret fst].
  rewrite !lower_append, !lower_hex. intros N1 N2 E.
  apply Ht.
  pose proof (f_equal (fun r => match r with Ok x => x | Raise _ => EmptyString end) N1)
    as N1'.
  pose proof (f_equal (fun r => match r with Ok x => x | Raise _ => EmptyString end) N2)
    as N2'.
  cbv beta iota in N1', N2'. rewrite <- N1', <- N2' in E.
  apply (append_same_length _ _ _ _ (eq_trans (length_hex 32 _) (eq_sym (length_hex 32 _))) E).
Qed.

Lemma derive_filename_distinct_witness :
  "00000000000040008000000000000000.logo.png"
    <> "00000000000040008000000000000001.logo.png".
Proof.
  apply (derive_filename_distinct
           "http://migranthealth.eu/etraining/pix/a/logo.png"
           "http://migranthealth.eu/etraining/pix/b/logo.png"
           Site.settled
           (snd (derive_filename "http://migranthealth.eu/etraining/pix/a/logo.png"
                   Site.settled))).
  - vm_compute. discriminate.
  - vm_compute. discriminate.
  - vm_compute. discriminate.
  - vm_compute. reflexivity.
  - vm_compute. reflexivity.
Defined.

Lemma drop_append_all (a b : string) : PyStr.drop (String.length a) (a ++ b) = b.
Proof. induction a as [|c a IH]; simpl; [now destruct b | exact IH]. Qed.

Lemma drop_short (n : nat) (s : string) :
  String.length s <= n -> PyStr.drop n s = EmptyString.
Proof.
  revert s. induction n as [|n IH]; intros [|c s] L; simpl in *; try reflexivity; try lia.
  apply IH. lia.
Qed.

(** X16. The name looked up for a language link is its stripped label
    without its first five characters, whatever they are: the prefix is
    not compared with ["MEET "], and a label of five characters or fewer
    gives the empty name. *)
Theorem language_name_drops_five (link : node) :
  (forall prefix rest,
      String.length prefix = 5 ->
      PyStr.strip (get_text link) = (prefix ++ rest)%string ->
      language_name_of link = rest) /\
  (String.length (PyStr.strip (get_text link)) <= 5 -> language_name_of link = "").
Proof.
  unfold language_name_of. change (String.length "MEET ") with 5. split.
  - intros prefix rest L E. rewrite E, <- L. apply drop_append_all.
  - apply drop_short.
Qed.

Lemma language_name_drops_five_witness :
  language_name_of (Tag 1 "a" [("href", "/etraining/course/index.php?categoryid=2")]
                      [NavigableString " Kurs Deutsch "]) = "Deutsch" /\
  language_name_of (Tag 1 "a" [] [NavigableString "MEET"]) = "".
Proof.
  split.
  - apply (proj1 (language_name_drops_five _) "Kurs "); reflexivity.
  - apply (proj2 (language_name_drops_five _)). vm_compute. lia.
Defined.
